(** * Embedded supervisor of isaaxiot/service: model and verification

    A shallow embedding of the Go packages [process] (ConfigEntry, Process,
    ProcessManager) and [service] (the supervisedService adapter), with the
    properties of the natural-language specification stated and settled
    against it.

    Conventions.
    - A Go [int] is a 64-bit two's-complement integer, modelled as [Z]
      with the wrap-around written out ([GoInt.wrap]).
    - A Go [string] is a byte sequence, modelled as [string] (a list of
      [ascii], that is of bytes).
    - A Go [map[string]T] is a [gmap string T].
    - A Go [error] is [option string]: [None] is [nil], [Some msg] an error.
    - A nil pointer dereference is the result [Panic]. *)

From Stdlib Require Import ZArith String Ascii List Bool Lia.
From Stdlib Require Import DecimalString DecimalPos.
From stdpp Require Import base option list gmap strings.
Import ListNotations.

Local Open Scope Z_scope.

(** ** Go machine integers *)

Module GoInt.

Definition minInt : Z := - 2 ^ 63.
Definition maxInt : Z := 2 ^ 63 - 1.

Definition inRange (z : Z) : Prop := minInt <= z <= maxInt.

(** Two's-complement reduction of a mathematical integer to an [int]. *)
Definition wrap (z : Z) : Z := (z + 2 ^ 63) mod 2 ^ 64 - 2 ^ 63.

Definition add (a b : Z) : Z := wrap (a + b).
Definition sub (a b : Z) : Z := wrap (a - b).
Definition mul (a b : Z) : Z := wrap (a * b).

End GoInt.

(** The outcome of a call that may dereference a nil pointer. *)
Inductive result (A : Type) : Type :=
  | Ok (a : A)
  | Panic.
Arguments Ok {A} a.
Arguments Panic {A}.

(** ** The Go library functions the program calls

    These are not part of the repository; they are modelled after the Go
    standard library with a 64-bit [int]. Where the platform shows, in
    [syscall.WaitStatus], the model is the one of Linux. *)

Module strconv.

Inductive NumError := ErrSyntax | ErrRange.

Definition digitVal (c : ascii) : option Z :=
  let n := Z.of_N (N_of_ascii c) in
  if (48 <=? n) && (n <=? 57) then Some (n - 48) else None.

Definition maxUint64 : Z := 2 ^ 64 - 1.
Definition cutoff : Z := maxUint64 / 10 + 1.

(** The digit loop of [ParseUint] in base 10: a byte that is no digit is
    a syntax error (value 0); running over 64 bits is a range error
    (value [maxUint64]) reported at once, before later bytes are read. *)
Fixpoint parseUintLoop (s : string) (n : Z) : Z * option NumError :=
  match s with
  | EmptyString => (n, None)
  | String c s' =>
      match digitVal c with
      | None => (0, Some ErrSyntax)
      | Some d =>
          if cutoff <=? n then (maxUint64, Some ErrRange)
          else
            let n1 := n * 10 + d in
            if maxUint64 <? n1 then (maxUint64, Some ErrRange)
            else parseUintLoop s' n1
      end
  end.

Definition ParseUint (s : string) : Z * option NumError :=
  match s with
  | EmptyString => (0, Some ErrSyntax)
  | _ => parseUintLoop s 0
  end.

(** [ParseInt(s, 10, 0)]. *)
Definition ParseInt (s : string) : Z * option NumError :=
  match s with
  | EmptyString => (0, Some ErrSyntax)
  | String c rest =>
      let neg := Ascii.eqb c "-" in
      let body := if Ascii.eqb c "+" || Ascii.eqb c "-" then rest else s in
      match ParseUint body with
      | (_, Some ErrSyntax) => (0, Some ErrSyntax)
      | (un, _) =>
          if negb neg && (2 ^ 63 <=? un) then (2 ^ 63 - 1, Some ErrRange)
          else if neg && (2 ^ 63 <? un) then (- 2 ^ 63, Some ErrRange)
          else (if neg then - un else un, None)
      end
  end.

(** [Atoi(s)] is [ParseInt(s, 10, 0)] converted to [int]; its fast path
    for short inputs computes the same result. *)
Definition Atoi (s : string) : Z * option NumError := ParseInt s.

(** [ParseBool]. *)
Definition ParseBool (s : string) : option bool :=
  if bool_decide (s ∈ ["1"; "t"; "T"; "TRUE"; "true"; "True"]%string)
  then Some true
  else if bool_decide (s ∈ ["0"; "f"; "F"; "FALSE"; "false"; "False"]%string)
  then Some false
  else None.

(** [fmt.Sprintf("%d", z)]. *)
Definition Itoa (z : Z) : string := NilZero.string_of_int (Z.to_int z).

End strconv.

Module strings.

(** [Index(s, sep)] for a one-byte [sep]: the offset of its first
    occurrence, or -1. *)
Fixpoint Index (s : string) (sep : ascii) : Z :=
  match s with
  | EmptyString => -1
  | String c s' =>
      if Ascii.eqb c sep then 0
      else let i := Index s' sep in if i =? -1 then -1 else i + 1
  end.

(** The slice [s[i:]], for [0 <= i <= len(s)]. *)
Definition sliceFrom (s : string) (i : Z) : string :=
  substring (Z.to_nat i) (String.length s - Z.to_nat i) s.

(** [Split(s, sep)] for a one-byte [sep]: the pieces between the
    separators, one more than there are separators. *)
Fixpoint Split (s : string) (sep : ascii) : list string :=
  match s with
  | EmptyString => [EmptyString]
  | String c s' =>
      if Ascii.eqb c sep then EmptyString :: Split s' sep
      else
        match Split s' sep with
        | piece :: pieces => String c piece :: pieces
        | [] => [String c EmptyString]
        end
  end.

Definition ofBytes (l : list N) : string :=
  fold_right (fun n s => String (ascii_of_N n) s) EmptyString l.

(** The UTF-8 encodings of the code points for which [unicode.IsSpace]
    holds: tab, LF, VT, FF, CR, space, U+0085, U+00A0, U+1680,
    U+2000..U+200A, U+2028, U+2029, U+202F, U+205F, U+3000. *)
Definition spaceRunes : list (list N) :=
  [ [9]; [10]; [11]; [12]; [13]; [32];
    [0xC2; 0x85]; [0xC2; 0xA0]; [0xE1; 0x9A; 0x80];
    [0xE2; 0x80; 0x80]; [0xE2; 0x80; 0x81]; [0xE2; 0x80; 0x82];
    [0xE2; 0x80; 0x83]; [0xE2; 0x80; 0x84]; [0xE2; 0x80; 0x85];
    [0xE2; 0x80; 0x86]; [0xE2; 0x80; 0x87]; [0xE2; 0x80; 0x88];
    [0xE2; 0x80; 0x89]; [0xE2; 0x80; 0x8A]; [0xE2; 0x80; 0xA8];
    [0xE2; 0x80; 0xA9]; [0xE2; 0x80; 0xAF]; [0xE2; 0x81; 0x9F];
    [0xE3; 0x80; 0x80] ]%N.

Fixpoint stripPrefix (pre s : string) : option string :=
  match pre, s with
  | EmptyString, _ => Some s
  | String a pre', String b s' =>
      if Ascii.eqb a b then stripPrefix pre' s' else None
  | String _ _, EmptyString => None
  end.

Fixpoint stripAny (pres : list string) (s : string) : option string :=
  match pres with
  | [] => None
  | pre :: pres' =>
      match stripPrefix pre s with
      | Some s' => Some s'
      | None => stripAny pres' s
      end
  end.

Fixpoint trimLeftLoop (fuel : nat) (pres : list string) (s : string) : string :=
  match fuel with
  | O => s
  | S fuel' =>
      match stripAny pres s with
      | Some s' => trimLeftLoop fuel' pres s'
      | None => s
      end
  end.

Definition TrimLeftSpace (s : string) : string :=
  trimLeftLoop (String.length s) (map ofBytes spaceRunes) s.

Definition TrimRightSpace (s : string) : string :=
  String.rev
    (trimLeftLoop (String.length s)
       (map (fun r => ofBytes (rev r)) spaceRunes) (String.rev s)).

(** [TrimSpace(s)]: leading, then trailing, white space removed. *)
Definition TrimSpace (s : string) : string :=
  TrimRightSpace (TrimLeftSpace s).

Definition upperByte (c : ascii) : ascii :=
  let n := N_of_ascii c in
  if ((97 <=? n) && (n <=? 122))%N then ascii_of_N (n - 32) else c.

Fixpoint ToUpper (s : string) : string :=
  match s with
  | EmptyString => EmptyString
  | String c s' => String (upperByte c) (ToUpper s')
  end.

End strings.

Module time.

(** A [time.Time] is the number of nanoseconds since the Unix epoch; a
    [time.Duration] is a number of nanoseconds. *)
Definition Time : Type := Z.
Definition Duration : Type := Z.

Definition Second : Duration := 1000000000.

(** [time.Unix(sec, nsec)]. *)
Definition Unix (sec nsec : Z) : Time := sec * Second + nsec.

(** The method [t.Unix()]: whole seconds since the epoch. *)
Definition Time_Unix (t : Time) : Z := t / Second.

Definition Add (t : Time) (d : Duration) : Time := t + d.
Definition Before (t u : Time) : bool := t <? u.

End time.

Module syscall.

(** [syscall.WaitStatus] on Linux, a [uint32]. *)
Definition WaitStatus : Type := Z.

Definition mask : Z := 0x7F.
Definition exited : Z := 0x00.
Definition stopped : Z := 0x7F.
Definition shift : Z := 8.

Definition Exited (w : WaitStatus) : bool := Z.land w mask =? exited.

Definition Signaled (w : WaitStatus) : bool :=
  negb (Z.land w mask =? stopped) && negb (Z.land w mask =? exited).

Definition Continued (w : WaitStatus) : bool := w =? 0xFFFF.

Definition ExitStatus (w : WaitStatus) : Z :=
  if negb (Exited w) then -1 else Z.land (Z.shiftr w shift) 0xFF.

Inductive Signal :=
  | SIGHUP | SIGINT | SIGQUIT | SIGKILL | SIGUSR1 | SIGUSR2 | SIGTERM | SIGSTOP.

End syscall.

(** What a path holds: a file that can be read, or one that cannot. The
    file system is a map from paths to such nodes. *)
Inductive FileNode :=
  | Readable (content : string)
  | Unreadable.

Module os.

Record Process := { Pid : Z }.

(** [os.ProcessState], of which only the wait status is read. *)
Record ProcessState := { status : syscall.WaitStatus }.

(** [ps.Sys().(syscall.WaitStatus)]: on this target [Sys()] always holds
    a [syscall.WaitStatus], so the type assertion never fails. *)
Definition Sys (ps : ProcessState) : syscall.WaitStatus := status ps.

(** [os.Remove(path)], its error dropped as every caller drops it. *)
Definition Remove (fs : gmap string FileNode) (path : string) : gmap string FileNode :=
  delete path fs.

End os.

Module ioutil.

(** [ioutil.ReadFile(path)]: the content, or the error. *)
Definition ReadFile (fs : gmap string FileNode) (path : string) : string + string :=
  match fs !! path with
  | Some (Readable content) => inl content
  | Some Unreadable => inr "permission denied"%string
  | None => inr "no such file or directory"%string
  end.

(** [ioutil.WriteFile(path, data, perm)]; [ok] tells whether the host let
    the write through. *)
Definition WriteFile (ok : bool) (fs : gmap string FileNode) (path data : string)
  : gmap string FileNode :=
  if ok then <[path := Readable data]> fs else fs.

End ioutil.

Module exec.

(** [exec.Cmd], with the fields the supervisor reads back. The
    environment, the log files and [SysProcAttr] are handed to the
    operating system and never read by the modelled code. *)
Record Cmd := {
  Path : string;
  Args : list string;
  Dir : string;
  Process : option os.Process;
  ProcessState : option os.ProcessState;
}.

Definition set_Args (a : list string) (c : Cmd) : Cmd :=
  {| Path := Path c; Args := a; Dir := Dir c;
     Process := Process c; ProcessState := ProcessState c |}.

Definition set_Dir (d : string) (c : Cmd) : Cmd :=
  {| Path := Path c; Args := Args c; Dir := d;
     Process := Process c; ProcessState := ProcessState c |}.

Definition set_Process (p : option os.Process) (c : Cmd) : Cmd :=
  {| Path := Path c; Args := Args c; Dir := Dir c;
     Process := p; ProcessState := ProcessState c |}.

Definition set_ProcessState (ps : option os.ProcessState) (c : Cmd) : Cmd :=
  {| Path := Path c; Args := Args c; Dir := Dir c;
     Process := Process c; ProcessState := ps |}.

(** [exec.Command(name)], with [Path] as given. *)
Definition Command (name : string) : Cmd :=
  {| Path := name; Args := [name]; Dir := EmptyString;
     Process := None; ProcessState := None |}.

End exec.

(** ** ConfigEntry (process/config.go) *)

Record ConfigEntry := {
  ConfigDir : string;
  Name : string;
  Arguments : list string;
  KeyValues : gmap string string;
  Envs : gmap string string;
}.

Definition toInt (s : string) (factor : Z) (defValue : Z) : Z :=
  match strconv.Atoi s with
  | (i, None) => GoInt.mul i factor
  | (_, Some _) => defValue
  end.

Definition GetBool (c : ConfigEntry) (key : string) (defValue : bool) : bool :=
  match KeyValues c !! key with
  | Some value =>
      match strconv.ParseBool value with
      | Some b => b
      | None => defValue
      end
  | None => defValue
  end.

Definition HasParameter (c : ConfigEntry) (key : string) : bool :=
  bool_decide (is_Some (KeyValues c !! key)).

Definition GetInt (c : ConfigEntry) (key : string) (defValue : Z) : Z :=
  match KeyValues c !! key with
  | Some value => toInt value 1 defValue
  | None => defValue
  end.

Definition GetString (c : ConfigEntry) (key : string) (defValue : string) : string :=
  match KeyValues c !! key with
  | Some s => s
  | None => defValue
  end.

(** [v[len(v)-2:]] and [v[:len(v)-2]], for [len(v) > 2]. *)
Definition lastTwo (v : string) : string :=
  substring (String.length v - 2) 2 v.
Definition dropLastTwo (v : string) : string :=
  substring 0 (String.length v - 2) v.

Definition GetBytes (c : ConfigEntry) (key : string) (defValue : Z) : Z :=
  match KeyValues c !! key with
  | Some v =>
      if (2 <? String.length v)%nat then
        let lastTwoBytes := lastTwo v in
        if String.eqb lastTwoBytes "MB" then
          toInt (dropLastTwo v) (1024 * 1024) defValue
        else if String.eqb lastTwoBytes "GB" then
          toInt (dropLastTwo v) (1024 * 1024 * 1024) defValue
        else if String.eqb lastTwoBytes "KB" then
          toInt (dropLastTwo v) 1024 defValue
        else toInt v 1 defValue
      else toInt v 1 defValue
  | None => defValue
  end.

(** [v] ends in [suf]. *)
Definition hasSuffix (v suf : string) : Prop := exists pre, v = pre +:+ suf.

(** ** The host: file system and process table *)

(** The part of the operating system that [Attach] consults. [kill0] is
    the outcome of [proc.Signal(syscall.Signal(0))]. *)
Record Host := {
  files : gmap string FileNode;
  GOOS_windows : bool;
  FindProcess : Z -> option string;
  kill0 : Z -> option string;
}.

(** ** Process (the process state machine) *)

Inductive ProcessState :=
  | STOPPED | STARTING | RUNNING | BACKOFF | STOPPING | EXITED | FATAL | UNKNOWN.

Global Instance ProcessState_eq_dec : EqDecision ProcessState.
Proof. solve_decision. Defined.

(** The values of the constants, and the method [String]. *)
Definition ProcessState_value (s : ProcessState) : Z :=
  match s with
  | STOPPED => 0
  | STARTING => 10
  | RUNNING => 20
  | BACKOFF => 30
  | STOPPING => 40
  | EXITED => 100
  | FATAL => 200
  | UNKNOWN => 1000
  end.

Definition ProcessState_String (s : ProcessState) : string :=
  match s with
  | STOPPED => "STOPPED"
  | STARTING => "STARTING"
  | RUNNING => "RUNNING"
  | BACKOFF => "BACKOFF"
  | STOPPING => "STOPPING"
  | EXITED => "EXITED"
  | FATAL => "FATAL"
  | UNKNOWN => "UNKNOWN"
  end.

(** The struct [Process]. The lock and the stdin writer are left out: the
    model is sequential and no modelled operation reads the writer. *)
Record Process := {
  config : ConfigEntry;
  cmd : option exec.Cmd;
  startTime : time.Time;
  stopTime : time.Time;
  state : ProcessState;
  inStart : bool;
  stopByUser : bool;
  retryTimes : Z;
  pidfile : string;
}.

Definition set_cmd (c : option exec.Cmd) (p : Process) : Process :=
  {| config := config p; cmd := c; startTime := startTime p;
     stopTime := stopTime p; state := state p; inStart := inStart p;
     stopByUser := stopByUser p; retryTimes := retryTimes p;
     pidfile := pidfile p |}.

Definition set_startTime (t : time.Time) (p : Process) : Process :=
  {| config := config p; cmd := cmd p; startTime := t;
     stopTime := stopTime p; state := state p; inStart := inStart p;
     stopByUser := stopByUser p; retryTimes := retryTimes p;
     pidfile := pidfile p |}.

Definition set_stopTime (t : time.Time) (p : Process) : Process :=
  {| config := config p; cmd := cmd p; startTime := startTime p;
     stopTime := t; state := state p; inStart := inStart p;
     stopByUser := stopByUser p; retryTimes := retryTimes p;
     pidfile := pidfile p |}.

Definition changeStateTo (procState : ProcessState) (p : Process) : Process :=
  {| config := config p; cmd := cmd p; startTime := startTime p;
     stopTime := stopTime p; state := procState; inStart := inStart p;
     stopByUser := stopByUser p; retryTimes := retryTimes p;
     pidfile := pidfile p |}.

Definition set_inStart (b : bool) (p : Process) : Process :=
  {| config := config p; cmd := cmd p; startTime := startTime p;
     stopTime := stopTime p; state := state p; inStart := b;
     stopByUser := stopByUser p; retryTimes := retryTimes p;
     pidfile := pidfile p |}.

Definition set_stopByUser (b : bool) (p : Process) : Process :=
  {| config := config p; cmd := cmd p; startTime := startTime p;
     stopTime := stopTime p; state := state p; inStart := inStart p;
     stopByUser := b; retryTimes := retryTimes p;
     pidfile := pidfile p |}.

Definition set_retryTimes (n : Z) (p : Process) : Process :=
  {| config := config p; cmd := cmd p; startTime := startTime p;
     stopTime := stopTime p; state := state p; inStart := inStart p;
     stopByUser := stopByUser p; retryTimes := n;
     pidfile := pidfile p |}.

Definition GetName (p : Process) : string := Name (config p).

Definition GetState (p : Process) : ProcessState := state p.

Definition GetStartTime (p : Process) : time.Time := startTime p.

Definition GetStopTime (p : Process) : time.Time :=
  match state p with
  | STARTING | RUNNING | STOPPING => time.Unix 0 0
  | _ => stopTime p
  end.

Definition GetPid (p : Process) : result Z :=
  if bool_decide (state p = STOPPED) || bool_decide (state p = FATAL)
     || bool_decide (state p = UNKNOWN) || bool_decide (state p = EXITED)
     || bool_decide (state p = BACKOFF)
  then Ok 0
  else
    match cmd p with
    | Some c =>
        match exec.Process c with
        | Some proc => Ok (os.Pid proc)
        | None => Panic
        end
    | None => Panic
    end.

Definition getStartSeconds (p : Process) : Z := GetInt (config p) "startsecs" 1.

Definition getStartRetries (p : Process) : Z := GetInt (config p) "startretries" 3.

Definition isAutoStart (p : Process) : bool :=
  String.eqb (GetString (config p) "autostart" "true") "true".

Definition getExitCodes (p : Process) : list Z :=
  let strExitCodes := strings.Split (GetString (config p) "exitcodes" "0,2") "," in
  fold_left
    (fun result val =>
       match strconv.Atoi val with
       | (i, None) => result ++ [i]
       | (_, Some _) => result
       end)
    strExitCodes [].

Definition inExitCodes (p : Process) (exitCode : Z) : bool :=
  existsb (fun code => code =? exitCode) (getExitCodes p).

(** [getExitCode], called with [p.cmd] set: the code and the error. The
    last [return -1, "no exit code"] of the source is reached only when the
    type assertion on [Sys()] fails, which it never does on this target. *)
Definition getExitCode (c : exec.Cmd) : Z * option string :=
  match exec.ProcessState c with
  | None => (-1, Some "no exit code"%string)
  | Some ps => (syscall.ExitStatus (os.Sys ps), None)
  end.

Definition isAutoRestart (p : Process) : bool :=
  let autoRestart := GetString (config p) "autorestart" "unexpected" in
  if String.eqb autoRestart "false" then false
  else if String.eqb autoRestart "true" then true
  else
    match cmd p with
    | Some c =>
        match exec.ProcessState c with
        | Some _ =>
            let '(exitCode, err) := getExitCode c in
            bool_decide (err = None) && negb (inExitCodes p exitCode)
        | None => false
        end
    | None => false
    end.

(** Lines 109 to 112 of the source: [os.FindProcess(pid)], then off
    Windows the null signal; the error left in [err]. *)
Definition findLive (h : Host) (pid : Z) : option string :=
  match FindProcess h pid with
  | None => if negb (GOOS_windows h) then kill0 h pid else None
  | Some e => Some e
  end.

(** [Attach]: the Process afterwards, the files afterwards, the error. *)
Definition Attach (h : Host) (p : Process)
  : Process * gmap string FileNode * option string :=
  match ioutil.ReadFile (files h) (pidfile p) with
  | inr err => (changeStateTo UNKNOWN p, files h, Some err)
  | inl info =>
      if String.eqb info EmptyString then
        (p, files h, Some "empty pid file"%string)
      else
        let pidinfo := strings.Split info ":" in
        let intpid :=
          fst (strconv.Atoi (strings.TrimSpace (nth 0 pidinfo EmptyString))) in
        match findLive h intpid with
        | Some e =>
            (changeStateTo STOPPED p, os.Remove (files h) (pidfile p), Some e)
        | None =>
            let c :=
              {| exec.Path := GetString (config p) "command" EmptyString;
                 exec.Args := GetString (config p) "command" EmptyString
                              :: Arguments (config p);
                 exec.Dir := EmptyString;
                 exec.Process := Some {| os.Pid := intpid |};
                 exec.ProcessState := None |} in
            let p1 := set_inStart true (changeStateTo RUNNING (set_cmd (Some c) p)) in
            let starttime :=
              fst (strconv.Atoi (strings.TrimSpace (nth 0 pidinfo EmptyString))) in
            (set_startTime (time.Unix starttime 0) p1, files h, None)
        end
  end.

(** ** Signals (process/signals) *)

Module signals.

(** Modelled from the spec: the package [process/signals] is not among
    the sources. The spec describes a fixed mapping from case-insensitive
    names to the signals of the platform, and spells out the names HUP,
    INT, TERM, USR1, USR2, QUIT, KILL and STOP; these eight make the
    table. *)
Definition signalTable : list (string * syscall.Signal) :=
  [ ("HUP", syscall.SIGHUP); ("INT", syscall.SIGINT);
    ("TERM", syscall.SIGTERM); ("USR1", syscall.SIGUSR1);
    ("USR2", syscall.SIGUSR2); ("QUIT", syscall.SIGQUIT);
    ("KILL", syscall.SIGKILL); ("STOP", syscall.SIGSTOP) ]%string.

Fixpoint lookupName (table : list (string * syscall.Signal)) (name : string)
  : option syscall.Signal :=
  match table with
  | [] => None
  | (n, sig) :: table' =>
      if String.eqb n name then Some sig else lookupName table' name
  end.

End signals.

(** A call of [signals.Kill(proc, sig)]: [sig] sent to the child [pid]. *)
Inductive Event :=
  | Kill (pid : Z) (sig : syscall.Signal).

(** What the host does during one call of [run]. *)
Record RunHost := {
  setUser_fails : bool;                 (* the user or group lookup fails *)
  now_start : time.Time;                (* time.Now() when startTime is set *)
  spawn : option Z;                     (* cmd.Start(): the pid, or an error *)
  found_after_sleep : bool;             (* os.FindProcess after the sleep *)
  write_ok : bool;                      (* the pidfile could be written *)
  wait_state : option os.ProcessState;  (* what cmd.Wait() stores *)
  now_stop : time.Time;                 (* time.Now() when stopTime is set *)
  user_stop : bool;                     (* Stop() ran on another goroutine *)
}.

Definition setUser (h : RunHost) (p : Process) : bool :=
  let userName := GetString (config p) "user" EmptyString in
  if (String.length userName =? 0)%nat then false else setUser_fails h.

Definition setDir (p : Process) (c : exec.Cmd) : exec.Cmd :=
  let dir := GetString (config p) "directory" EmptyString in
  if String.eqb dir EmptyString then c else exec.set_Dir dir c.

(** The test at the head of [run]: the previous child is still there. *)
Definition stillRunning (p : Process) : bool :=
  match cmd p with
  | Some c =>
      match exec.ProcessState c with
      | Some ps => syscall.Continued (os.Sys ps)
      | None => false
      end
  | None => false
  end.

Section Supervisor.

(** [filepath.Join] of two elements, of the Go library. *)
Variable filepath_Join : string -> string -> string.

(** Modelled from the spec: [parseCommand] is not among the sources. It
    tokenises [command] with shell-like quoting and fails on an empty
    command; a successful parse yields a non-empty argv, given here as
    its head and its tail. *)
Variable parseCommand : string -> option (string * list string).

(** Modelled from the spec: [signals.ToSignal] is not among the sources.
    It resolves the name of a signal to the signal, or fails. The spec
    gives TERM as the default of [stopsignal] where it lists the options
    and where it describes [Stop], and says that the lookup of an empty
    name fails where it describes the package; so what [ToSignal] returns
    is left open here, and a theorem that needs it says what it assumes. *)
Variable ToSignal : string -> syscall.Signal + string.

Definition NewProcess (config : ConfigEntry) : Process :=
  {| config := config;
     cmd := None;
     startTime := time.Unix 0 0;
     stopTime := time.Unix 0 0;
     state := STOPPED;
     inStart := false;
     stopByUser := false;
     retryTimes := 0;
     pidfile := filepath_Join (GetString config "directory" EmptyString)
                              (Name config +:+ ".pid") |}.

(** [run] up to the call of [finishCb]: the Process and the files at
    that point, and whether a child was spawned and is to be waited for.
    Of the files, the pidfile is followed. The log files that [setLog]
    opens for the child, creating them if need be, and whatever the child
    writes are not: the map is not to be read at any other path. *)
Definition run_spawn (h : RunHost) (st : Process * gmap string FileNode)
  : Process * gmap string FileNode * bool :=
  let '(p, fs) := st in
  match parseCommand (GetString (config p) "command" EmptyString) with
  | None => (p, fs, false)
  | Some (arg0, rest) =>
      if stillRunning p then (p, fs, false)
      else
        let args := (arg0 :: rest) ++ Arguments (config p) in
        let c1 :=
          if (1 <? length args)%nat
          then exec.set_Args args (exec.Command arg0)
          else exec.Command arg0 in
        let p1 := set_cmd (Some c1) p in
        if setUser h p1 then (p1, fs, false)
        else
          let c2 := setDir p1 c1 in
          let p2 :=
            changeStateTo STARTING
              (set_startTime (now_start h) (set_cmd (Some c2) p1)) in
          match spawn h with
          | None =>
              (set_stopTime (now_stop h) (changeStateTo FATAL p2), fs, false)
          | Some pid =>
              let c3 := exec.set_Process (Some {| os.Pid := pid |}) c2 in
              let p3 := set_cmd (Some c3) p2 in
              let startSecs := GetInt (config p3) "startsecs" 1 in
              let p4 :=
                if startSecs <=? 0 then changeStateTo RUNNING p3
                else if found_after_sleep h then changeStateTo RUNNING p3
                else p3 in
              let line :=
                strconv.Itoa pid +:+ ":"
                +:+ strconv.Itoa (time.Time_Unix (startTime p4)) in
              (p4, ioutil.WriteFile (write_ok h) fs (pidfile p4) line, true)
          end
  end.

(** [run] from [cmd.Wait()] on. *)
Definition run_wait (h : RunHost) (p : Process) : Process :=
  let p1 := set_cmd (exec.set_ProcessState (wait_state h) <$> cmd p) p in
  let p2 := set_stopTime (now_stop h) p1 in
  let startSecs := GetInt (config p2) "startsecs" 1 in
  if GoInt.sub (time.Time_Unix (stopTime p2)) (time.Time_Unix (startTime p2))
     <? startSecs
  then changeStateTo BACKOFF p2
  else changeStateTo EXITED p2.

Definition run (h : RunHost) (st : Process * gmap string FileNode)
  : Process * gmap string FileNode :=
  let '(p, fs, spawned) := run_spawn h st in
  if spawned then (run_wait h p, fs) else (p, fs).

(** The run's uptime was below [startsecs] (line 166 of the source). *)
Definition shortRun (p : Process) : bool :=
  GoInt.sub (time.Time_Unix (stopTime p)) (time.Time_Unix (startTime p))
  <? getStartSeconds p.

(** The three [break] tests of the restart loop, in their order. *)
Definition loopBreaks (p : Process) : bool :=
  if stopByUser p then true
  else if negb (isAutoRestart p) then true
  else if getStartRetries p <=? retryTimes p then true
  else false.

(** One turn of the [for] loop in the goroutine of [Start]: the state
    when the [break] tests are made, and whether one of them fires. A
    [Stop] on another goroutine shows as [user_stop]. *)
Definition iteration (h : RunHost) (st : Process * gmap string FileNode)
  : Process * gmap string FileNode * bool :=
  let '(p1, fs1) := run h st in
  let fs2 := os.Remove fs1 (pidfile p1) in
  let p2 :=
    if shortRun p1 then set_retryTimes (GoInt.add (retryTimes p1) 1) p1
    else set_retryTimes 0 p1 in
  let p3 := if user_stop h then set_stopByUser true p2 else p2 in
  (p3, fs2, loopBreaks p3).

(** The [for] loop, one [RunHost] per turn. The result is the state at
    the end of every turn made, and whether the loop was left by a
    [break] ([false]: the script of the host ran out first). *)
Fixpoint restartLoop (hs : list RunHost) (st : Process * gmap string FileNode)
  : list (Process * gmap string FileNode) * bool :=
  match hs with
  | [] => ([], false)
  | h :: hs' =>
      let '(p, fs, brk) := iteration h st in
      if brk then ([(p, fs)], true)
      else
        let '(trace, broke) := restartLoop hs' (p, fs) in
        ((p, fs) :: trace, broke)
  end.

(** The goroutine launched by [Start]. *)
Definition startLoop (hs : list RunHost) (st : Process * gmap string FileNode)
  : list (Process * gmap string FileNode) * bool :=
  restartLoop hs (set_retryTimes 0 (fst st), snd st).

(** [Start(wait)] to the end of its goroutine: [None] when the loop is
    still turning as the script of the host ends. [wait] only decides
    when the caller is let go, after the first spawn or at once. *)
Definition Start (wait : bool) (hs : list RunHost)
  (st : Process * gmap string FileNode)
  : option (Process * gmap string FileNode) :=
  let '(p, fs) := st in
  if inStart p then Some (p, fs)
  else
    let p1 := set_stopByUser false (set_inStart true p) in
    match startLoop hs (p1, fs) with
    | (trace, true) =>
        match last trace with
        | Some (p2, fs2) => Some (set_inStart false p2, fs2)
        | None => None
        end
    | (_, false) => None
    end.

(** [sendSignal]: the calls of [signals.Kill] it makes. Without a child
    handle it makes none and returns "process is not started"; the error
    is dropped by the modelled callers. *)
Definition sendSignal (p : Process) (sig : syscall.Signal) : list Event :=
  match cmd p with
  | Some c =>
      match exec.Process c with
      | Some proc => [Kill (os.Pid proc) sig]
      | None => []
      end
  | None => []
  end.

(** The test both loops of [Stop] make on [p.state]. *)
Definition stillLive (s : ProcessState) : bool :=
  negb (negb (bool_decide (s = STARTING)) && negb (bool_decide (s = RUNNING))
        && negb (bool_decide (s = STOPPING))).

(** What the other goroutines and the clock show to [Stop]: the time
    when [endTime] is computed, the clock and the Process as read by the
    watchdog at its [k]-th turn, the state read by the [k]-th poll of
    the caller. *)
Record StopHost := {
  stop_now : time.Time;
  watch_clock : nat -> time.Time;
  watch_proc : nat -> Process;
  poll_state : nat -> ProcessState;
}.

(** The watchdog goroutine from its [k]-th turn on: the signals it sends,
    or [None] if it is still turning after [fuel] turns. *)
Fixpoint watchdog (fuel : nat) (k : nat) (endTime : time.Time) (h : StopHost)
  : option (list Event) :=
  match fuel with
  | O => None
  | S fuel' =>
      let p := watch_proc h k in
      if negb (stillLive (state p)) then Some []
      else if time.Before endTime (watch_clock h k)
      then Some (sendSignal p syscall.SIGKILL)
      else watchdog fuel' (S k) endTime h
  end.

(** The polling loop of the caller under [wait]: whether it has returned
    within [fuel] polls. *)
Fixpoint waitPoll (fuel : nat) (k : nat) (h : StopHost) : bool :=
  match fuel with
  | O => false
  | S fuel' =>
      if negb (stillLive (poll_state h k)) then true
      else waitPoll fuel' (S k) h
  end.

Record Stopped := {
  stop_proc : Process;                 (* the Process as Stop leaves it *)
  stop_files : gmap string FileNode;   (* the files as Stop leaves them *)
  graceful : list Event;               (* sent by Stop itself *)
  forced : option (list Event);        (* sent by the watchdog *)
  returned : bool;                     (* Stop has returned to its caller *)
}.

Definition Stop (wait : bool) (fuel : nat) (h : StopHost)
  (st : Process * gmap string FileNode) : Stopped :=
  let '(p, fs) := st in
  let fs1 := os.Remove fs (pidfile p) in
  let p1 := set_stopByUser true p in
  let sent :=
    match ToSignal (GetString (config p1) "stopsignal" EmptyString) with
    | inl sig => sendSignal p1 sig
    | inr _ => []
    end in
  let waitsecs := GoInt.mul (GetInt (config p1) "stopwaitsecs" 10) time.Second in
  let endTime := time.Add (stop_now h) waitsecs in
  {| stop_proc := p1;
     stop_files := fs1;
     graceful := sent;
     forced := watchdog fuel 0 endTime h;
     returned := if wait then waitPoll fuel 0 h else true |}.


(** ** ProcessManager

    The manager maps names to pointers. A pointer is [None] (nil) or the
    address of a Process in the heap. *)
Record ProcessManager := {
  procs : gmap string (option nat);
}.

Definition NewProcessManager : ProcessManager := {| procs := ∅ |}.

Definition createProgram (pm : ProcessManager) (heap : gmap nat Process)
  (config : ConfigEntry) : ProcessManager * gmap nat Process * option nat :=
  let procName := Name config in
  match procs pm !! procName with
  | Some proc => (pm, heap, proc)
  | None =>
      let l := fresh (dom heap) in
      ({| procs := <[procName := Some l]> (procs pm) |},
       <[l := NewProcess config]> heap, Some l)
  end.

Definition CreateProcess (pm : ProcessManager) (heap : gmap nat Process)
  (config : ConfigEntry) : ProcessManager * gmap nat Process * option nat :=
  createProgram pm heap config.

Definition Add (pm : ProcessManager) (name : string) (proc : option nat)
  : ProcessManager :=
  {| procs := <[name := proc]> (procs pm) |}.

Definition Remove (pm : ProcessManager) (name : string)
  : ProcessManager * option nat :=
  ({| procs := delete name (procs pm) |}, default None (procs pm !! name)).

Definition Find (pm : ProcessManager) (name : string) : option nat :=
  match procs pm !! name with
  | Some proc => proc
  | None =>
      let pos := strings.Index name ":" in
      if negb (pos =? -1) then
        match procs pm !! strings.sliceFrom name (pos + 1) with
        | Some proc => proc
        | None => None
        end
      else None
  end.

Definition Clear (pm : ProcessManager) : ProcessManager := {| procs := ∅ |}.

End Supervisor.

(** ** The supervisedService adapter (service_process.go) *)

Module service.

(** The struct [Config] is declared outside the sources at hand; it is
    given the fields the adapter reads. [StandardOutPath] and
    [StandardErrorPath] are the two options [parseConfig] looks up. *)
Record Config := {
  Name : string;
  DisplayName : string;
  Executable : string;
  UserName : string;
  WorkingDirectory : string;
  Envs : gmap string string;
  StandardOutPath : string;
  StandardErrorPath : string;
}.

Record supervisedService := {
  Cfg : Config;
  procMgr : ProcessManager;
}.

(** [parseConfig], in the later of the two versions of the file. *)
Definition parseConfig (s : supervisedService) : ConfigEntry :=
  let stderr := StandardErrorPath (Cfg s) in
  let redirect := if String.eqb stderr EmptyString then "true" else "false" in
  Build_ConfigEntry
    EmptyString
    (Name (Cfg s))
    []
    (list_to_map
       [ ("command", Executable (Cfg s));
         ("stdout_logfile", StandardOutPath (Cfg s));
         ("stderr_logfile", stderr);
         ("user", UserName (Cfg s));
         ("directory", WorkingDirectory (Cfg s));
         ("redirect_stderr", redirect);
         ("autostart", "true");
         ("autorestart", "true");
         ("startretries", "10") ]%string)
    (Envs (Cfg s)).

(** [supervisedSystem.New]: the service and the heap holding its Process. *)
Definition New (filepath_Join : string -> string -> string) (c : Config)
  : supervisedService * gmap nat Process :=
  let s := {| Cfg := c; procMgr := NewProcessManager |} in
  let '(pm, heap, _) := CreateProcess filepath_Join (procMgr s) ∅ (parseConfig s) in
  ({| Cfg := c; procMgr := pm |}, heap).

(** A method of Process called by the adapter, with its receiver. *)
Inductive Call :=
  | Call_Start (p : nat) (wait : bool)
  | Call_Stop (p : nat) (wait : bool).

(** A method call through the pointer [p]: the methods of Process read
    the fields of their receiver at once, so a nil receiver panics. *)
Definition call (p : option nat) (method : nat -> Call) : result (list Call) :=
  match p with
  | Some l => Ok [method l]
  | None => Panic
  end.

Definition Install (s : supervisedService) : result (list Call) :=
  let p := Find (procMgr s) (Name (Cfg s)) in
  if bool_decide (p = None) then Ok []
  else call p (fun l => Call_Start l false).

Definition Stop (s : supervisedService) : result (list Call) :=
  let p := Find (procMgr s) (Name (Cfg s)) in
  if bool_decide (p = None) then call p (fun l => Call_Stop l true)
  else Ok [].

Definition Restart (s : supervisedService) : result (list Call) :=
  let p := Find (procMgr s) (Name (Cfg s)) in
  if bool_decide (p = None) then Ok []
  else
    match call p (fun l => Call_Stop l true), call p (fun l => Call_Start l false) with
    | Ok a, Ok b => Ok (a ++ b)
    | _, _ => Panic
    end.

End service.

(** ** The rest of the process package *)

Definition GetArgs (c : ConfigEntry) : list string := Arguments c.

(** [GetEnv]: one [KEY=VALUE] string for every variable. Go ranges over
    the map in an unspecified order; here the order is the one of
    [map_to_list], and nothing proved depends on it. *)
Definition GetEnv (c : ConfigEntry) : list string :=
  (fun kv => fst kv +:+ "=" +:+ snd kv) <$> map_to_list (Envs c).

Definition GetPriority (p : Process) : Z := GetInt (config p) "priority" 999.

Definition getNumberProcs (p : Process) : Z := GetInt (config p) "numprocs" 1.

Definition GetExitstatus (p : Process) : result Z :=
  if bool_decide (state p = EXITED) || bool_decide (state p = BACKOFF) then
    match cmd p with
    | None => Panic
    | Some c =>
        match exec.ProcessState c with
        | None => Ok 0
        | Some ps => Ok (syscall.ExitStatus (os.Sys ps))
        end
    end
  else Ok 0.

(** [GetStatus]. [describe] is the method [String] of [os.ProcessState],
    of the Go library; [Exited] on a nil [ProcessState] reads through the
    nil pointer. *)
Definition GetStatus (describe : os.ProcessState -> string) (p : Process)
  : result string :=
  match cmd p with
  | None => Panic
  | Some c =>
      match exec.ProcessState c with
      | None => Panic
      | Some ps =>
          if syscall.Exited (os.Sys ps) then Ok (describe ps)
          else Ok "running"%string
      end
  end.

(** [Start] up to the launch of its goroutine: the Process as the caller
    of [Start(false)] finds it, and whether a restart loop was launched. *)
Definition Start_enter (p : Process) : Process * bool :=
  if inStart p then (p, false)
  else (set_stopByUser false (set_inStart true p), true).

(** A method of Process called by the manager on the Process at an
    address. *)
Inductive ProcCall :=
  | Do_Start (l : nat) (wait : bool)
  | Do_Stop (l : nat) (wait : bool).

(** [getAllProcess]: the pointers held by the manager, in the order in
    which the map is ranged over (unspecified in Go). *)
Definition getAllProcess (pm : ProcessManager) : list (option nat) :=
  snd <$> map_to_list (procs pm).

(** The [for] loop of [ForEachProcess]: the calls made by [procFunc] on
    every pointer in turn; a panic of [procFunc] ends the program. *)
Fixpoint forEach (procFunc : option nat -> result (list ProcCall))
  (all : list (option nat)) : result (list ProcCall) :=
  match all with
  | [] => Ok []
  | proc :: rest =>
      match procFunc proc with
      | Panic => Panic
      | Ok made =>
          match forEach procFunc rest with
          | Panic => Panic
          | Ok more => Ok (made ++ more)
          end
      end
  end.

Definition ForEachProcess (pm : ProcessManager)
  (procFunc : option nat -> result (list ProcCall)) : result (list ProcCall) :=
  forEach procFunc (getAllProcess pm).

(** [StartAutoStartPrograms]. [proc.isAutoStart()] reads the configuration
    through the pointer, so a nil pointer panics; a pointer always leads
    to a Process of the heap. *)
Definition StartAutoStartPrograms (pm : ProcessManager) (heap : gmap nat Process)
  : result (list ProcCall) :=
  ForEachProcess pm
    (fun proc =>
       match proc with
       | None => Panic
       | Some l =>
           match heap !! l with
           | Some p => if isAutoStart p then Ok [Do_Start l false] else Ok []
           | None => Panic
           end
       end).

Definition StopAllProcesses (pm : ProcessManager) : result (list ProcCall) :=
  ForEachProcess pm
    (fun proc =>
       match proc with
       | None => Panic
       | Some l => Ok [Do_Stop l true]
       end).

(** Every name of the manager leads to a Process of that name. *)
Definition namesAgree (pm : ProcessManager) (heap : gmap nat Process) : Prop :=
  forall name proc,
    procs pm !! name = Some proc ->
    exists l p, proc = Some l /\ heap !! l = Some p /\ Name (config p) = name.

(** ** The rest of the supervisedService adapter

    In the later of the two versions of service_process.go. *)

Module supervised.

(** [checkRunning]: the pid, the error, and the heap and the files as the
    call leaves them. *)
Definition checkRunning (h : Host) (s : service.supervisedService)
  (heap : gmap nat Process)
  : result (Z * option string * gmap nat Process * gmap string FileNode) :=
  match Find (service.procMgr s) (service.Name (service.Cfg s)) with
  | None => Ok (-1, Some "couldn't find program"%string, heap, files h)
  | Some l =>
      match heap !! l with
      | None => Panic
      | Some p =>
          match GetPid p with
          | Panic => Panic
          | Ok pid =>
              if pid =? 0 then
                let '(p', fs', err) := Attach h p in
                let heap' := <[l := p']> heap in
                match err with
                | Some e => Ok (0, Some e, heap', fs')
                | None =>
                    match GetPid p' with
                    | Panic => Panic
                    | Ok pid' => Ok (pid', None, heap', fs')
                    end
                end
              else Ok (pid, None, heap, files h)
          end
      end
  end.

Definition PID (h : Host) (s : service.supervisedService) (heap : gmap nat Process)
  : result (Z * option string * gmap nat Process * gmap string FileNode) :=
  checkRunning h s heap.

(** [Status]: the text, the error, the heap and the files. *)
Definition Status (h : Host) (s : service.supervisedService) (heap : gmap nat Process)
  : result (string * option string * gmap nat Process * gmap string FileNode) :=
  match checkRunning h s heap with
  | Panic => Panic
  | Ok (pid, err, heap', fs') =>
      match err with
      | Some e => Ok (EmptyString, Some e, heap', fs')
      | None =>
          Ok ("running (pid: " +:+ strconv.Itoa pid +:+ ")", None, heap', fs')
      end
  end.

(** [Start]: the error, the heap and the files as the call leaves them,
    and whether a restart loop was launched. *)
Definition Start (h : Host) (s : service.supervisedService) (heap : gmap nat Process)
  : result (option string * gmap nat Process * gmap string FileNode * bool) :=
  match Find (service.procMgr s) (service.Name (service.Cfg s)) with
  | None => Ok (Some "couldn't find program"%string, heap, files h, false)
  | Some l =>
      if String.eqb (service.Executable (service.Cfg s)) EmptyString then
        Ok (Some "empty executable"%string, heap, files h, false)
      else
        match heap !! l with
        | None => Panic
        | Some p =>
            let '(p', fs', err) := Attach h p in
            match err with
            | Some _ =>
                let '(p'', launched) := Start_enter p' in
                Ok (None, <[l := p'']> heap, fs', launched)
            | None => Ok (None, <[l := p']> heap, fs', false)
            end
        end
  end.

(** [Update]: the calls made, the service and the heap afterwards, what
    [p.Stop(false)] did on the registered Process ([None] when no
    Process was found), and whether [p.Start(false)] launched a restart
    loop on the new one. The heap holds the two Processes as [Update]
    leaves them when it returns; the files are then [stop_files]. The
    pointer [CreateProcess] returns is used without a nil test. *)
Definition Update (filepath_Join : string -> string -> string)
  (ToSignal : string -> syscall.Signal + string)
  (fuel : nat) (sh : StopHost) (h : Host)
  (s : service.supervisedService) (heap : gmap nat Process)
  : result (list service.Call * service.supervisedService * gmap nat Process
            * option Stopped * bool) :=
  match Find (service.procMgr s) (service.Name (service.Cfg s)) with
  | None => Ok ([], s, heap, None, false)
  | Some l =>
      match heap !! l with
      | None => Panic
      | Some old =>
          let r := Stop ToSignal false fuel sh (old, files h) in
          let heap1 := <[l := stop_proc r]> heap in
          let '(pm1, _) :=
            Remove (service.procMgr s) (service.Name (service.Cfg s)) in
          let '(pm2, heap2, p2) :=
            CreateProcess filepath_Join pm1 heap1 (service.parseConfig s) in
          match p2 with
          | None => Panic
          | Some l2 =>
              match heap2 !! l2 with
              | None => Panic
              | Some new =>
                  let '(new', launched) := Start_enter new in
                  Ok ([service.Call_Stop l false; service.Call_Start l2 false],
                      {| service.Cfg := service.Cfg s; service.procMgr := pm2 |},
                      <[l2 := new']> heap2, Some r, launched)
              end
          end
      end
  end.

End supervised.

(** ** The procd backend (service_procd_linux.go), its pidfile check *)

Module procd.

(** The sentinel [ErrServiceIsNotRunning] is declared outside the sources
    at hand; only its identity matters. *)
Definition ErrServiceIsNotRunning : string := "the service is not running".

Definition servicePath (name : string) : string := "/etc/init.d/" +:+ name.

(** [checkRunning], in the version that reads [/var/run/<name>.pid]: the
    pid, the error, and the files as the call leaves them. *)
Definition checkRunning (h : Host) (name : string)
  : Z * option string * gmap string FileNode :=
  let pidfile := "/var/run/" +:+ name +:+ ".pid" in
  match ioutil.ReadFile (files h) pidfile with
  | inr _ => (-1, Some ErrServiceIsNotRunning, files h)
  | inl pid =>
      if String.eqb pid EmptyString then
        (-1, Some ErrServiceIsNotRunning, os.Remove (files h) pidfile)
      else
        let intpid := fst (strconv.Atoi (strings.TrimSpace pid)) in
        let err :=
          match FindProcess h intpid with
          | None => kill0 h intpid
          | Some e => Some e
          end in
        match err with
        | Some e => (-1, Some e, os.Remove (files h) pidfile)
        | None => (intpid, None, files h)
        end
  end.

Definition PID (h : Host) (name : string)
  : Z * option string * gmap string FileNode :=
  checkRunning h name.

Definition Status (h : Host) (name : string)
  : string * option string * gmap string FileNode :=
  let '(pid, err, fs) := checkRunning h name in
  match err with
  | Some e => (EmptyString, Some e, fs)
  | None => ("(pid: " +:+ strconv.Itoa pid +:+ ")", None, fs)
  end.

End procd.

(** ** Auxiliary notions for the proofs *)

(** The value of a run of decimal digits read from the left, above [acc]. *)
Fixpoint digitsValue (d : Decimal.uint) (acc : Z) : Z :=
  match d with
  | Decimal.Nil => acc
  | Decimal.D0 d => digitsValue d (acc * 10)
  | Decimal.D1 d => digitsValue d (acc * 10 + 1)
  | Decimal.D2 d => digitsValue d (acc * 10 + 2)
  | Decimal.D3 d => digitsValue d (acc * 10 + 3)
  | Decimal.D4 d => digitsValue d (acc * 10 + 4)
  | Decimal.D5 d => digitsValue d (acc * 10 + 5)
  | Decimal.D6 d => digitsValue d (acc * 10 + 6)
  | Decimal.D7 d => digitsValue d (acc * 10 + 7)
  | Decimal.D8 d => digitsValue d (acc * 10 + 8)
  | Decimal.D9 d => digitsValue d (acc * 10 + 9)
  end.

(** A byte of a printed number: a digit or the minus sign. *)
Definition numberByte (c : ascii) : bool :=
  let n := N_of_ascii c in
  ((48 <=? n) && (n <=? 57) || (n =? 45))%N.

Fixpoint numberBytes (s : string) : bool :=
  match s with
  | EmptyString => true
  | String c s' => numberByte c && numberBytes s'
  end.

(** A byte that is white space on its own. *)
Definition spaceByte (c : ascii) : bool :=
  let n := N_of_ascii c in
  ((9 <=? n) && (n <=? 13) || (n =? 32))%N.

Fixpoint spaceBytes (s : string) : bool :=
  match s with
  | EmptyString => true
  | String c s' => spaceByte c && spaceBytes s'
  end.

(** The pieces of a list joined by a separator byte, as [strings.Join]. *)
Fixpoint joinWith (sep : ascii) (pieces : list string) : string :=
  match pieces with
  | [] => EmptyString
  | [piece] => piece
  | piece :: rest => piece +:+ String sep (joinWith sep rest)
  end.

(** ** Concrete inputs *)

(** A join and a command parser for the examples: the directory, a slash
    and the file name; the whole command as the one word of the argv. *)
Definition exJoin (dir file : string) : string := dir +:+ "/" +:+ file.

Definition exParse (command : string) : option (string * list string) :=
  if String.eqb command EmptyString then None else Some (command, []).

(** The program [prog] with the options [kv]. *)
Definition exConfig (kv : list (string * string)) : ConfigEntry :=
  {| ConfigDir := EmptyString; Name := "prog"; Arguments := [];
     KeyValues := list_to_map kv; Envs := ∅ |}.

(** The state in which [run] leaves a Process when it calls [finishCb],
    for a child of pid 4242 that [os.FindProcess] does not find after the
    [startsecs] sleep. *)
Definition exStarting : Process :=
  fst (fst (run_spawn exParse
              {| setUser_fails := false; now_start := time.Unix 1700000000 0;
                 spawn := Some 4242; found_after_sleep := false;
                 write_ok := true; wait_state := None;
                 now_stop := time.Unix 1700000600 0; user_stop := false |}
              (NewProcess exJoin (exConfig [("command", "/bin/sleep")]%string), ∅))).

(** A child of pid 4242 that was killed by SIGKILL (wait status 9), under
    a configuration that lists -1 among the expected exit codes. *)
Definition exKilled : Process :=
  {| config := exConfig [("exitcodes", "0,-1")]%string;
     cmd := Some {| exec.Path := "/bin/sleep"; exec.Args := ["/bin/sleep"%string];
                    exec.Dir := EmptyString;
                    exec.Process := Some {| os.Pid := 4242 |};
                    exec.ProcessState := Some {| os.status := 9 |} |};
     startTime := time.Unix 1700000000 0;
     stopTime := time.Unix 1700000600 0;
     state := EXITED; inStart := true; stopByUser := false; retryTimes := 0;
     pidfile := "/prog.pid" |}.

(** A host on which the only live process is 4242 and the files are [fs]. *)
Definition exHost (fs : gmap string FileNode) : Host :=
  {| files := fs; GOOS_windows := false;
     FindProcess := fun _ => None;
     kill0 := fun pid => if pid =? 4242 then None
                         else Some "no such process"%string |}.

(** The files as [run] leaves them when it calls [finishCb], for a child
    of pid 4242 started at the epoch 1700000000. *)
Definition exFiles : gmap string FileNode :=
  snd (fst (run_spawn exParse
              {| setUser_fails := false; now_start := time.Unix 1700000000 0;
                 spawn := Some 4242; found_after_sleep := true;
                 write_ok := true; wait_state := None;
                 now_stop := time.Unix 1700000600 0; user_stop := false |}
              (NewProcess exJoin (exConfig [("command", "/bin/sleep")]%string), ∅))).

(** A fresh Process of a new supervisor, attached to those files. *)
Definition exAttached : Process :=
  fst (fst (Attach (exHost exFiles)
              (NewProcess exJoin (exConfig [("command", "/bin/sleep")]%string)))).

(** A host on which the program cannot be spawned: [cmd.Start()] fails
    half a microsecond after the start time was taken. *)
Definition exSpawnFails : RunHost :=
  {| setUser_fails := false; now_start := time.Unix 1700000000 0;
     spawn := None; found_after_sleep := false; write_ok := false;
     wait_state := None;
     now_stop := time.Unix 1700000000 500; user_stop := false |}.

(** A fresh Process that is always restarted and allowed two retries, and
    no files. *)
Definition exRetrying : Process * gmap string FileNode :=
  (NewProcess exJoin
     (exConfig [("command", "/no/such/program"); ("autorestart", "true");
                ("startretries", "2")]%string), ∅).

(** A Process with the live child 4242 and no [stopsignal] option. *)
Definition exLive : Process :=
  set_cmd (Some {| exec.Path := "/bin/sleep"; exec.Args := ["/bin/sleep"%string];
                   exec.Dir := EmptyString;
                   exec.Process := Some {| os.Pid := 4242 |};
                   exec.ProcessState := None |})
    (changeStateTo RUNNING
       (NewProcess exJoin (exConfig [("command", "/bin/sleep")]%string))).

(** A child that ignores what it is sent: the Process stays as it is, and
    the [k]-th turn of the watchdog is made [k] seconds after [Stop]. *)
Definition exStubborn : StopHost :=
  {| stop_now := time.Unix 1700000000 0;
     watch_clock := fun k => time.Unix (1700000000 + Z.of_nat k) 1000;
     watch_proc := fun _ => set_stopByUser true exLive;
     poll_state := fun _ => RUNNING |}.

(** A [ToSignal] for the examples: TERM for the empty name, the default
    of [stopsignal] in the spec's table of options, and otherwise the
    names of the table, in either case of letters. *)
Definition exToSignal (name : string) : syscall.Signal + string :=
  if String.eqb name EmptyString then inl syscall.SIGTERM
  else
    match signals.lookupName signals.signalTable (strings.ToUpper name) with
    | Some sig => inl sig
    | None => inr "unrecognized signal name"%string
    end.

(** A host on which the program is spawned as pid 4242, is found after
    the [startsecs] sleep, and exits with code 1 ten minutes later. *)
Definition exExits : RunHost :=
  {| setUser_fails := false; now_start := time.Unix 1700000000 0;
     spawn := Some 4242; found_after_sleep := true; write_ok := true;
     wait_state := Some {| os.status := 256 |};
     now_stop := time.Unix 1700000600 0; user_stop := false |}.

(** A fresh Process for [/bin/sleep], and no files. *)
Definition exFresh : Process * gmap string FileNode :=
  (NewProcess exJoin (exConfig [("command", "/bin/sleep")]%string), ∅).

(** A host on which every probe passes and the files are [fs]. *)
Definition exHostAll (fs : gmap string FileNode) : Host :=
  {| files := fs; GOOS_windows := false;
     FindProcess := fun _ => None; kill0 := fun _ => None |}.

(** A pidfile written by hand: a blank, the pid and a line feed. *)
Definition exPadded : gmap string FileNode :=
  {[ "/prog.pid"%string :=
       Readable (" " +:+ "4242" +:+ String "010" EmptyString +:+ EmptyString) ]}.

(** A pidfile that holds no number. *)
Definition exGarbage : gmap string FileNode :=
  {[ "/prog.pid"%string := Readable "abc" ]}.

(** A child that is seen RUNNING by the first two polls and EXITED by
    the third, and by the watchdog likewise. *)
Definition exDies : StopHost :=
  {| stop_now := time.Unix 1700000000 0;
     watch_clock := fun k => time.Unix (1700000000 + Z.of_nat k) 1000;
     watch_proc := fun k => if (k <? 2)%nat then exLive
                            else changeStateTo EXITED exLive;
     poll_state := fun k => if (k <? 2)%nat then RUNNING else EXITED |}.

(** The configuration of a service [prog] that runs [/bin/sleep]. *)
Definition exService : service.Config :=
  {| service.Name := "prog"; service.DisplayName := "Program";
     service.Executable := "/bin/sleep"; service.UserName := EmptyString;
     service.WorkingDirectory := EmptyString; service.Envs := ∅;
     service.StandardOutPath := EmptyString;
     service.StandardErrorPath := EmptyString |}.

(** The pidfile of the procd service [prog], as the init script leaves
    it. *)
Definition exProcd : gmap string FileNode :=
  {[ "/var/run/prog.pid"%string :=
       Readable (EmptyString +:+ "4242" +:+ String "010" EmptyString) ]}.

(** * Properties *)

(** ** The library model on known inputs *)

Example Atoi_accepts :
  map strconv.Atoi ["0"; "-1"; "+12"; "007"; "-9223372036854775808"]%string
  = [(0, None); (-1, None); (12, None); (7, None); (-9223372036854775808, None)].
Proof. reflexivity. Qed.

Example Atoi_rejects :
  map strconv.Atoi [EmptyString; "-"; "12x"; " 1"; "1_000";
                    "9223372036854775808"; "99999999999999999999x"]%string
  = [(0, Some strconv.ErrSyntax); (0, Some strconv.ErrSyntax);
     (0, Some strconv.ErrSyntax); (0, Some strconv.ErrSyntax);
     (0, Some strconv.ErrSyntax);
     (9223372036854775807, Some strconv.ErrRange);
     (9223372036854775807, Some strconv.ErrRange)].
Proof. reflexivity. Qed.

Example Split_pieces :
  strings.Split "4242:1700000000" ":" = ["4242"; "1700000000"]%string /\
  strings.Split "4242" ":" = ["4242"]%string /\
  strings.Split "a::b:" ":" = ["a"; EmptyString; "b"; EmptyString]%string.
Proof. repeat split; reflexivity. Qed.

Example TrimSpace_ascii_and_unicode :
  strings.TrimSpace (strings.ofBytes [32; 9; 52; 50; 13; 10]%N) = "42"%string /\
  strings.TrimSpace (strings.ofBytes [0xC2; 0xA0; 52; 32; 50; 0xE2; 0x80; 0x85]%N)
  = "4 2"%string.
Proof. split; reflexivity. Qed.

Example Index_first_colon :
  strings.Index "a:b:c" ":" = 1 /\ strings.sliceFrom "a:b:c" 2 = "b:c"%string /\
  strings.Index "abc" ":" = -1.
Proof. repeat split; reflexivity. Qed.

(** Exit with the code 7, and death by signal 9. *)
Example WaitStatus_decoding :
  syscall.Exited 1792 = true /\ syscall.ExitStatus 1792 = 7 /\
  syscall.Signaled 9 = true /\ syscall.ExitStatus 9 = -1 /\
  syscall.Continued 65535 = true.
Proof. repeat split; reflexivity. Qed.

Example Time_round_trip :
  time.Time_Unix (time.Unix 1700000000 999999999) = 1700000000 /\
  time.Time_Unix (time.Unix (-1) 1) = -1.
Proof. split; reflexivity. Qed.

Example pidfile_line :
  exFiles !! "/prog.pid"%string = Some (Readable "4242:1700000000").
Proof. vm_compute. reflexivity. Qed.

(** ** Machine integers and number parsing *)

Lemma wrap_inRange z : GoInt.inRange (GoInt.wrap z).
Proof.
  unfold GoInt.inRange, GoInt.wrap, GoInt.minInt, GoInt.maxInt.
  pose proof (Z.mod_pos_bound (z + 2 ^ 63) (2 ^ 64) ltac:(lia)). lia.
Qed.

Lemma wrap_id z : GoInt.inRange z -> GoInt.wrap z = z.
Proof.
  unfold GoInt.inRange, GoInt.wrap, GoInt.minInt, GoInt.maxInt. intros Hz.
  rewrite Z.mod_small; lia.
Qed.

Lemma digitVal_bounds c d : strconv.digitVal c = Some d -> 0 <= d <= 9.
Proof.
  unfold strconv.digitVal. intros H.
  destruct (48 <=? Z.of_N (N_of_ascii c)) eqn:E1; simpl in H; [|discriminate].
  destruct (Z.of_N (N_of_ascii c) <=? 57) eqn:E2; [|discriminate].
  inversion H; subst. lia.
Qed.

Lemma parseUintLoop_nonneg s : forall n,
  0 <= n -> 0 <= fst (strconv.parseUintLoop s n).
Proof.
  induction s as [|c s IH]; intros n Hn; simpl; [exact Hn|].
  destruct (strconv.digitVal c) as [d|] eqn:Hd; simpl; [|lia].
  apply digitVal_bounds in Hd.
  destruct (strconv.cutoff <=? n); simpl; [unfold strconv.maxUint64; lia|].
  destruct (strconv.maxUint64 <? n * 10 + d); simpl;
    [unfold strconv.maxUint64; lia|].
  apply IH. lia.
Qed.

Lemma ParseUint_nonneg s : 0 <= fst (strconv.ParseUint s).
Proof.
  destruct s as [|a s]; [simpl; lia|].
  change (strconv.ParseUint (String a s))
    with (strconv.parseUintLoop (String a s) 0).
  apply parseUintLoop_nonneg. lia.
Qed.

(** A number that [Atoi] accepts is an [int]. *)
Lemma Atoi_inRange s i : strconv.Atoi s = (i, None) -> GoInt.inRange i.
Proof.
  unfold strconv.Atoi, strconv.ParseInt.
  destruct s as [|c rest]; [discriminate|].
  set (body := if (Ascii.eqb c "+" || Ascii.eqb c "-")%bool then rest else String c rest).
  pose proof (ParseUint_nonneg body) as Hnn.
  destruct (strconv.ParseUint body) as [un err]. simpl in Hnn.
  assert (Hgo :
    (if negb (Ascii.eqb c "-") && (2 ^ 63 <=? un)
     then (2 ^ 63 - 1, Some strconv.ErrRange)
     else if Ascii.eqb c "-" && (2 ^ 63 <? un)
          then (- 2 ^ 63, Some strconv.ErrRange)
          else (if Ascii.eqb c "-" then - un else un, None)) = (i, None) ->
    GoInt.inRange i).
  { unfold GoInt.inRange, GoInt.minInt, GoInt.maxInt.
    destruct (Ascii.eqb c "-"); simpl.
    - destruct (2 ^ 63 <? un) eqn:E; [discriminate|].
      intros H; inversion H; subst. apply Z.ltb_ge in E. lia.
    - destruct (2 ^ 63 <=? un) eqn:E; [discriminate|].
      intros H; inversion H; subst. apply Z.leb_gt in E. lia. }
  destruct err as [[ | ]|]; [discriminate | exact Hgo | exact Hgo].
Qed.

Lemma toInt_inRange s factor defValue :
  GoInt.inRange defValue -> GoInt.inRange (toInt s factor defValue).
Proof.
  intros Hd. unfold toInt.
  destruct (strconv.Atoi s) as [i [e|]]; [exact Hd|apply wrap_inRange].
Qed.

Lemma GetInt_inRange c key defValue :
  GoInt.inRange defValue -> GoInt.inRange (GetInt c key defValue).
Proof.
  intros Hd. unfold GetInt.
  destruct (KeyValues c !! key); [apply toInt_inRange|]; exact Hd.
Qed.

(** ** Strings *)

Lemma length_append (a b : string) :
  String.length (a +:+ b) = (String.length a + String.length b)%nat.
Proof. induction a as [|c a IH]; simpl; [reflexivity|]. now rewrite IH. Qed.

Lemma substring_all (b : string) : substring 0 (String.length b) b = b.
Proof. induction b as [|c b IH]; simpl; [reflexivity|]. now rewrite IH. Qed.

Lemma substring_skip (a b : string) m :
  substring (String.length a) m (a +:+ b) = substring 0 m b.
Proof. induction a as [|c a IH]; simpl; [reflexivity|]. exact IH. Qed.

Lemma substring_head (a b : string) :
  substring 0 (String.length a) (a +:+ b) = a.
Proof.
  induction a as [|c a IH]; simpl; [now destruct b|]. now rewrite IH.
Qed.

Lemma substring_split (s : string) : forall n,
  (n <= String.length s)%nat ->
  s = substring 0 n s +:+ substring n (String.length s - n) s.
Proof.
  induction s as [|c s IH]; intros n Hn; simpl in *.
  - assert (n = 0%nat) by lia. subst. reflexivity.
  - destruct n as [|n]; simpl.
    + now rewrite substring_all.
    + rewrite (IH n) at 1 by lia. reflexivity.
Qed.

Lemma lastTwo_append (num unit : string) :
  String.length unit = 2%nat -> lastTwo (num +:+ unit) = unit.
Proof.
  intros Hu. unfold lastTwo. rewrite length_append, Hu.
  replace (String.length num + 2 - 2)%nat with (String.length num) by lia.
  rewrite substring_skip, <- Hu. apply substring_all.
Qed.

Lemma dropLastTwo_append (num unit : string) :
  String.length unit = 2%nat -> dropLastTwo (num +:+ unit) = num.
Proof.
  intros Hu. unfold dropLastTwo. rewrite length_append, Hu.
  replace (String.length num + 2 - 2)%nat with (String.length num) by lia.
  apply substring_head.
Qed.

Lemma lastTwo_split (v : string) :
  (2 <= String.length v)%nat -> v = dropLastTwo v +:+ lastTwo v.
Proof.
  intros Hv. unfold dropLastTwo, lastTwo.
  rewrite (substring_split v (String.length v - 2)) at 1 by lia.
  do 2 f_equal. lia.
Qed.

(** ** ConfigEntry *)

Lemma toInt_parsed s factor defValue i :
  strconv.Atoi s = (i, None) -> toInt s factor defValue = GoInt.mul i factor.
Proof. unfold toInt. now intros ->. Qed.

Lemma toInt_default s factor defValue i e :
  strconv.Atoi s = (i, Some e) -> toInt s factor defValue = defValue.
Proof. unfold toInt. now intros ->. Qed.

Lemma GetBytes_unit c key defValue num unit factor :
  In (unit, factor)
     [("KB", 1024); ("MB", 1024 * 1024); ("GB", 1024 * 1024 * 1024)]%string ->
  KeyValues c !! key = Some (num +:+ unit) ->
  GetBytes c key defValue = toInt num factor defValue.
Proof.
  intros Hin Hkey. unfold GetBytes. rewrite Hkey.
  assert (Hlen : String.length unit = 2%nat).
  { simpl in Hin. destruct Hin as [H|[H|[H|[]]]]; inversion H; reflexivity. }
  destruct (2 <? String.length (num +:+ unit))%nat eqn:Hlong.
  - rewrite lastTwo_append, dropLastTwo_append by exact Hlen.
    simpl in Hin. destruct Hin as [H|[H|[H|[]]]]; inversion H; reflexivity.
  - apply Nat.ltb_ge in Hlong. rewrite length_append, Hlen in Hlong.
    destruct num; [|simpl in Hlong; lia].
    simpl in Hin. destruct Hin as [H|[H|[H|[]]]]; inversion H; reflexivity.
Qed.

Lemma GetBytes_raw c key defValue v :
  KeyValues c !! key = Some v ->
  ~ hasSuffix v "KB" -> ~ hasSuffix v "MB" -> ~ hasSuffix v "GB" ->
  GetBytes c key defValue = toInt v 1 defValue.
Proof.
  intros Hkey HK HM HG. unfold GetBytes. rewrite Hkey.
  destruct (2 <? String.length v)%nat eqn:Hlong; [|reflexivity].
  apply Nat.ltb_lt in Hlong.
  pose proof (lastTwo_split v ltac:(lia)) as Hsplit.
  destruct (String.eqb (lastTwo v) "MB") eqn:EM.
  { apply String.eqb_eq in EM. exfalso. apply HM.
    exists (dropLastTwo v). now rewrite <- EM. }
  destruct (String.eqb (lastTwo v) "GB") eqn:EG.
  { apply String.eqb_eq in EG. exfalso. apply HG.
    exists (dropLastTwo v). now rewrite <- EG. }
  destruct (String.eqb (lastTwo v) "KB") eqn:EK.
  { apply String.eqb_eq in EK. exfalso. apply HK.
    exists (dropLastTwo v). now rewrite <- EK. }
  reflexivity.
Qed.

(** C9. [GetBytes] returns the default when the key is absent; for a
    value ending in KB, MB or GB it returns the number before the suffix
    times 1024, 1024*1024 or 1024*1024*1024 (in [int] arithmetic, which is
    the exact product whenever that fits an [int]), and the default when
    that part is not a number; for a value with no such suffix it returns
    the base-10 number itself, and the default when it is not a number. *)
Theorem GetBytes_suffix_scaling (c : ConfigEntry) (key : string) (defValue : Z) :
  (KeyValues c !! key = None -> GetBytes c key defValue = defValue) /\
  (forall num unit factor,
     In (unit, factor)
        [("KB", 1024); ("MB", 1024 * 1024); ("GB", 1024 * 1024 * 1024)]%string ->
     KeyValues c !! key = Some (num +:+ unit) ->
     match strconv.Atoi num with
     | (i, None) =>
         GetBytes c key defValue = GoInt.mul i factor /\
         (GoInt.inRange (i * factor) -> GetBytes c key defValue = i * factor)
     | (_, Some _) => GetBytes c key defValue = defValue
     end) /\
  (forall v,
     KeyValues c !! key = Some v ->
     ~ hasSuffix v "KB" -> ~ hasSuffix v "MB" -> ~ hasSuffix v "GB" ->
     match strconv.Atoi v with
     | (i, None) => GetBytes c key defValue = i
     | (_, Some _) => GetBytes c key defValue = defValue
     end).
Proof.
  split; [|split].
  - intros Hkey. unfold GetBytes. now rewrite Hkey.
  - intros num unit factor Hin Hkey.
    rewrite (GetBytes_unit c key defValue num unit factor Hin Hkey).
    destruct (strconv.Atoi num) as [i [e|]] eqn:Hnum.
    + eapply toInt_default; eassumption.
    + rewrite (toInt_parsed _ _ _ _ Hnum). split; [reflexivity|].
      intros Hfit. unfold GoInt.mul. now apply wrap_id.
  - intros v Hkey HK HM HG.
    rewrite (GetBytes_raw c key defValue v Hkey HK HM HG).
    destruct (strconv.Atoi v) as [i [e|]] eqn:Hnum.
    + eapply toInt_default; eassumption.
    + rewrite (toInt_parsed _ _ _ _ Hnum). unfold GoInt.mul.
      rewrite Z.mul_1_r. apply wrap_id. eapply Atoi_inRange; eassumption.
Qed.

Lemma GetBytes_suffix_scaling_witness :
  GetBytes (exConfig [("logSize", "3MB")]%string) "logSize" 7 = 3145728.
Proof.
  destruct (GetBytes_suffix_scaling (exConfig [("logSize", "3MB")]%string)
              "logSize" 7) as (_ & Hunit & _).
  specialize (Hunit "3"%string "MB"%string (1024 * 1024)).
  destruct Hunit as [_ Hexact].
  - simpl. right. left. reflexivity.
  - vm_compute. reflexivity.
  - apply Hexact. vm_compute. split; discriminate.
Defined.

(** ** Process: creation and the accessors *)

(** C10. A Process made by [NewProcess] is STOPPED, has no child handle,
    has [retryTimes] 0, [inStart] and [stopByUser] false, and its
    [GetPid] is 0; [CreateProcess] for a name not yet registered stores
    exactly that Process at a fresh address and returns its address,
    leaving every other Process of the heap as it was. *)
Theorem NewProcess_is_stopped_and_idle
  (filepath_Join : string -> string -> string) (cfg : ConfigEntry) :
  let p := NewProcess filepath_Join cfg in
  (state p = STOPPED /\ cmd p = None /\ retryTimes p = 0 /\
   inStart p = false /\ stopByUser p = false /\ GetPid p = Ok 0) /\
  (forall (pm : ProcessManager) (heap : gmap nat Process),
     procs pm !! Name cfg = None ->
     exists l,
       CreateProcess filepath_Join pm heap cfg
       = ({| procs := <[Name cfg := Some l]> (procs pm) |},
          <[l := p]> heap, Some l)
       /\ heap !! l = None
       /\ (forall l', l' <> l -> (<[l := p]> heap) !! l' = heap !! l')).
Proof.
  intros p. split.
  - repeat split; reflexivity.
  - intros pm heap Hfree. exists (fresh (dom heap)).
    split; [|split].
    + unfold CreateProcess, createProgram. now rewrite Hfree.
    + apply not_elem_of_dom. apply is_fresh.
    + intros l' Hne. now apply lookup_insert_ne.
Qed.

Lemma NewProcess_is_stopped_and_idle_witness :
  exists l,
    CreateProcess exJoin NewProcessManager ∅ (exConfig [])
    = ({| procs := {[ "prog"%string := Some l ]} |},
       {[ l := NewProcess exJoin (exConfig []) ]}, Some l)
    /\ GetPid (NewProcess exJoin (exConfig [])) = Ok 0.
Proof.
  destruct (NewProcess_is_stopped_and_idle exJoin (exConfig [])) as [Hnew Hcreate].
  destruct (Hcreate NewProcessManager ∅) as (l & Heq & _ & _).
  - reflexivity.
  - exists l. split; [exact Heq|]. apply Hnew.
Defined.

(** C4 (as amended). [GetPid] is 0 in the states STOPPED, FATAL, UNKNOWN,
    EXITED and BACKOFF; in the states STARTING, RUNNING and STOPPING it is
    the pid of the child handle; so a positive [GetPid] tells that the
    state is one of STARTING, RUNNING and STOPPING. *)
Theorem GetPid_by_state (p : Process) :
  (In (state p) [STOPPED; FATAL; UNKNOWN; EXITED; BACKOFF] -> GetPid p = Ok 0) /\
  (In (state p) [STARTING; RUNNING; STOPPING] ->
   forall c proc, cmd p = Some c -> exec.Process c = Some proc ->
                  GetPid p = Ok (os.Pid proc)) /\
  (forall n, GetPid p = Ok n -> 0 < n ->
             In (state p) [STARTING; RUNNING; STOPPING]).
Proof.
  unfold GetPid. split; [|split].
  - intros Hin. simpl in Hin.
    destruct Hin as [H|[H|[H|[H|[H|[]]]]]]; rewrite <- H; reflexivity.
  - intros Hin c proc Hc Hproc. rewrite Hc, Hproc. simpl in Hin.
    destruct Hin as [H|[H|[H|[]]]]; rewrite <- H; reflexivity.
  - intros n Hpid Hpos.
    destruct (state p); simpl in *;
      try (inversion Hpid; subst; lia); auto.
Qed.

Lemma GetPid_by_state_witness :
  GetPid exStarting = Ok 4242 /\ GetPid (NewProcess exJoin (exConfig [])) = Ok 0.
Proof.
  split.
  - destruct (GetPid_by_state exStarting) as (_ & Hlive & _).
    apply (Hlive ltac:(vm_compute; auto)
             {| exec.Path := "/bin/sleep"; exec.Args := ["/bin/sleep"%string];
                exec.Dir := EmptyString;
                exec.Process := Some {| os.Pid := 4242 |};
                exec.ProcessState := None |}
             {| os.Pid := 4242 |}); reflexivity.
  - destruct (GetPid_by_state (NewProcess exJoin (exConfig []))) as (Hidle & _).
    apply Hidle. simpl. auto.
Defined.

(** C4, refuted as stated: a Process in the state STARTING has a positive
    [GetPid], so a positive pid does not tell that the state is RUNNING. *)
Lemma GetPid_positive_while_STARTING :
  state exStarting = STARTING /\ GetPid exStarting = Ok 4242 /\
  ~ ((exists n, GetPid exStarting = Ok n /\ 0 < n) <-> state exStarting = RUNNING).
Proof.
  split; [reflexivity|]. split; [reflexivity|].
  intros [Hto _].
  assert (H : state exStarting = RUNNING).
  { apply Hto. exists 4242. split; [reflexivity|lia]. }
  discriminate H.
Qed.

(** ** The restart policy *)

Lemma inExitCodes_In p code :
  inExitCodes p code = true <-> In code (getExitCodes p).
Proof.
  unfold inExitCodes. rewrite existsb_exists. split.
  - intros (x & Hin & Heq). apply Z.eqb_eq in Heq. now subst.
  - intros Hin. exists code. split; [exact Hin|apply Z.eqb_refl].
Qed.

Lemma Signaled_ExitStatus w :
  syscall.Signaled w = true -> syscall.ExitStatus w = -1.
Proof.
  unfold syscall.Signaled, syscall.ExitStatus, syscall.Exited.
  intros H. apply andb_true_iff in H as [_ H].
  now destruct (Z.land w syscall.mask =? syscall.exited).
Qed.

Lemma isAutoRestart_unexpected_eq p :
  GetString (config p) "autorestart" "unexpected" = "unexpected"%string ->
  isAutoRestart p =
  match cmd p with
  | Some c =>
      match exec.ProcessState c with
      | Some ps => negb (inExitCodes p (syscall.ExitStatus (os.Sys ps)))
      | None => false
      end
  | None => false
  end.
Proof.
  intros Hopt. unfold isAutoRestart. rewrite Hopt. simpl.
  destruct (cmd p) as [c|]; [|reflexivity].
  unfold getExitCode.
  destruct (exec.ProcessState c) as [ps|]; reflexivity.
Qed.

(** C1 (as amended). Under [autorestart=unexpected], [isAutoRestart] is
    true exactly when the child has a recorded exit whose exit status is
    not in [exitcodes]. A child terminated by a signal has the exit status
    -1, so it is restarted exactly when -1 is not listed in [exitcodes];
    in particular it is restarted under the default [exitcodes]. *)
Theorem isAutoRestart_unexpected (p : Process) :
  GetString (config p) "autorestart" "unexpected" = "unexpected"%string ->
  (isAutoRestart p = true <->
   exists c ps,
     cmd p = Some c /\ exec.ProcessState c = Some ps /\
     ~ In (syscall.ExitStatus (os.Sys ps)) (getExitCodes p)) /\
  (forall c ps,
     cmd p = Some c -> exec.ProcessState c = Some ps ->
     syscall.Signaled (os.Sys ps) = true ->
     syscall.ExitStatus (os.Sys ps) = -1 /\
     (isAutoRestart p = true <-> ~ In (-1) (getExitCodes p)) /\
     (KeyValues (config p) !! "exitcodes"%string = None -> isAutoRestart p = true)).
Proof.
  intros Hopt. rewrite (isAutoRestart_unexpected_eq p Hopt). split.
  - split.
    + destruct (cmd p) as [c|]; [|discriminate].
      destruct (exec.ProcessState c) as [ps|] eqn:Hps; [|discriminate].
      intros H. exists c, ps. repeat split; try assumption.
      rewrite <- inExitCodes_In. now destruct (inExitCodes p _).
    + intros (c & ps & -> & -> & Hnot).
      rewrite <- inExitCodes_In in Hnot. now destruct (inExitCodes p _).
  - intros c ps -> -> Hsig.
    pose proof (Signaled_ExitStatus _ Hsig) as Hcode. rewrite Hcode.
    split; [reflexivity|]. split.
    + rewrite <- inExitCodes_In. now destruct (inExitCodes p (-1)).
    + intros Hdef. unfold inExitCodes, getExitCodes, GetString.
      rewrite Hdef. reflexivity.
Qed.

Lemma isAutoRestart_unexpected_witness :
  isAutoRestart
    (set_cmd (Some {| exec.Path := "/bin/sleep"; exec.Args := ["/bin/sleep"%string];
                      exec.Dir := EmptyString;
                      exec.Process := Some {| os.Pid := 4242 |};
                      exec.ProcessState := Some {| os.status := 9 |} |})
             (NewProcess exJoin (exConfig []))) = true.
Proof.
  eapply (isAutoRestart_unexpected
            (set_cmd (Some {| exec.Path := "/bin/sleep";
                              exec.Args := ["/bin/sleep"%string];
                              exec.Dir := EmptyString;
                              exec.Process := Some {| os.Pid := 4242 |};
                              exec.ProcessState := Some {| os.status := 9 |} |})
                     (NewProcess exJoin (exConfig [])))).
  - reflexivity.
  - reflexivity.
  - reflexivity.
  - reflexivity.
  - reflexivity.
Defined.

(** C1, refuted as stated: with -1 among [exitcodes], a child terminated
    by a signal is not restarted under [autorestart=unexpected]. *)
Lemma isAutoRestart_false_for_signalled :
  GetString (config exKilled) "autorestart" "unexpected" = "unexpected"%string /\
  (exists c ps,
     cmd exKilled = Some c /\ exec.ProcessState c = Some ps /\
     syscall.Signaled (os.Sys ps) = true /\ syscall.Exited (os.Sys ps) = false) /\
  isAutoRestart exKilled = false.
Proof.
  split; [reflexivity|]. split; [|reflexivity].
  eexists _, _. repeat split; reflexivity.
Qed.

(** ** Attach *)

(** The pid that [Attach] reads from the content of a pidfile. *)
Lemma Attach_success h p info :
  ioutil.ReadFile (files h) (pidfile p) = inl info ->
  info <> EmptyString ->
  let pid :=
    fst (strconv.Atoi (strings.TrimSpace (nth 0 (strings.Split info ":") EmptyString))) in
  findLive h pid = None ->
  let '(p', fs', err) := Attach h p in
  err = None /\ fs' = files h /\ state p' = RUNNING /\ inStart p' = true /\
  GetPid p' = Ok pid /\ startTime p' = time.Unix pid 0.
Proof.
  intros Hread Hne pid Hlive. unfold Attach. rewrite Hread.
  apply String.eqb_neq in Hne. rewrite Hne. fold pid. rewrite Hlive.
  repeat split; reflexivity.
Qed.

(** C3, at the pidfile [4242:1700000000] that [run] wrote for the live
    child 4242: [Attach] succeeds, the state is RUNNING, [inStart] is true
    and the pid is 4242, but the start time is the epoch 4242, taken from
    the first field, and not 1700000000, the second field. *)
Theorem Attach_startTime_from_pid_field :
  exFiles !! "/prog.pid"%string = Some (Readable "4242:1700000000") /\
  snd (Attach (exHost exFiles)
         (NewProcess exJoin (exConfig [("command", "/bin/sleep")]%string))) = None /\
  state exAttached = RUNNING /\ inStart exAttached = true /\
  GetPid exAttached = Ok 4242 /\
  GetStartTime exAttached = time.Unix 4242 0 /\
  time.Time_Unix (GetStartTime exAttached) <> 1700000000.
Proof.
  split; [vm_compute; reflexivity|].
  split; [vm_compute; reflexivity|].
  split; [vm_compute; reflexivity|].
  split; [vm_compute; reflexivity|].
  split; [vm_compute; reflexivity|].
  split; [vm_compute; reflexivity|].
  vm_compute. discriminate.
Qed.

(** C7 (as amended). When the pidfile cannot be read, [Attach] returns
    the error of the read and sets the state to UNKNOWN, leaving the files
    as they are; when the pidfile is empty, the error is "empty pid file";
    when the recorded process is not alive, [Attach] returns the error of
    the check, sets the state to STOPPED and removes the pidfile. These
    are all the ways in which [Attach] fails. *)
Theorem Attach_failure (h : Host) (p : Process) :
  (forall err,
     ioutil.ReadFile (files h) (pidfile p) = inr err ->
     Attach h p = (changeStateTo UNKNOWN p, files h, Some err) /\
     state (changeStateTo UNKNOWN p) = UNKNOWN) /\
  (ioutil.ReadFile (files h) (pidfile p) = inl EmptyString ->
   snd (Attach h p) = Some "empty pid file"%string) /\
  (forall info e,
     ioutil.ReadFile (files h) (pidfile p) = inl info ->
     info <> EmptyString ->
     findLive h
       (fst (strconv.Atoi
               (strings.TrimSpace (nth 0 (strings.Split info ":") EmptyString))))
     = Some e ->
     Attach h p = (changeStateTo STOPPED p, os.Remove (files h) (pidfile p), Some e) /\
     state (changeStateTo STOPPED p) = STOPPED /\
     os.Remove (files h) (pidfile p) !! pidfile p = None) /\
  (forall e,
     snd (Attach h p) = Some e ->
     (exists err, ioutil.ReadFile (files h) (pidfile p) = inr err) \/
     ioutil.ReadFile (files h) (pidfile p) = inl EmptyString \/
     (exists info,
        ioutil.ReadFile (files h) (pidfile p) = inl info /\ info <> EmptyString /\
        findLive h
          (fst (strconv.Atoi
                  (strings.TrimSpace (nth 0 (strings.Split info ":") EmptyString))))
        = Some e)).
Proof.
  split; [|split; [|split]].
  - intros err Hread. unfold Attach. now rewrite Hread.
  - intros Hread. unfold Attach. now rewrite Hread.
  - intros info e Hread Hne Hdead. unfold Attach. rewrite Hread.
    apply String.eqb_neq in Hne. rewrite Hne, Hdead.
    split; [reflexivity|]. split; [reflexivity|]. apply lookup_delete_eq.
  - intros e. unfold Attach.
    destruct (ioutil.ReadFile (files h) (pidfile p)) as [info|err] eqn:Hread.
    + destruct (String.eqb info EmptyString) eqn:Hempty.
      * apply String.eqb_eq in Hempty. subst. auto.
      * apply String.eqb_neq in Hempty.
        destruct (findLive h _) as [e'|] eqn:Hlive; simpl; [|discriminate].
        intros Heq. inversion Heq; subst. right. right. eauto.
    + eauto.
Qed.

Lemma Attach_failure_witness :
  Attach (exHost {[ "/prog.pid"%string := Readable "77:1700000000" ]})
         (NewProcess exJoin (exConfig []))
  = (changeStateTo STOPPED (NewProcess exJoin (exConfig [])), ∅,
     Some "no such process"%string).
Proof.
  destruct (Attach_failure
              (exHost {[ "/prog.pid"%string := Readable "77:1700000000" ]})
              (NewProcess exJoin (exConfig []))) as (_ & _ & Hdead & _).
  destruct (Hdead "77:1700000000"%string "no such process"%string) as (Heq & _ & _).
  - vm_compute. reflexivity.
  - discriminate.
  - vm_compute. reflexivity.
  - rewrite Heq. vm_compute. reflexivity.
Defined.

(** C7, refuted as stated: a pidfile that exists but cannot be read is
    not removed; and on an empty pidfile a Process that was RUNNING stays
    RUNNING and the pidfile stays. *)
Lemma Attach_failure_keeps_pidfile :
  (let '(p', fs', err) :=
     Attach (exHost {[ "/prog.pid"%string := Unreadable ]})
            (NewProcess exJoin (exConfig [])) in
   err = Some "permission denied"%string /\
   fs' !! "/prog.pid"%string = Some Unreadable) /\
  (let '(p', fs', err) :=
     Attach (exHost {[ "/prog.pid"%string := Readable EmptyString ]}) exAttached in
   err = Some "empty pid file"%string /\ state p' = RUNNING /\
   fs' !! "/prog.pid"%string = Some (Readable EmptyString)).
Proof.
  split; vm_compute; repeat split; reflexivity.
Qed.

(** ** ProcessManager *)

Lemma Index_lower s c : -1 <= strings.Index s c.
Proof.
  induction s as [|a s IH]; simpl; [lia|].
  destruct (Ascii.eqb a c); [lia|].
  destruct (strings.Index s c =? -1); lia.
Qed.

Lemma substring_skip_more (a b : string) k m :
  substring (String.length a + k) m (a +:+ b) = substring k m b.
Proof. induction a as [|c a IH]; simpl; [reflexivity|]. exact IH. Qed.

(** In [g:n] with no colon in [g], the first colon is the one written. *)
Lemma Index_group (g n : string) :
  strings.Index g ":" = -1 ->
  strings.Index (g +:+ ":" +:+ n) ":" = Z.of_nat (String.length g).
Proof.
  induction g as [|a g IH]; simpl; [reflexivity|].
  destruct (Ascii.eqb a ":"); [discriminate|].
  pose proof (Index_lower g ":") as Hlow.
  destruct (strings.Index g ":" =? -1) eqn:E; [|lia].
  apply Z.eqb_eq in E. intros _. rewrite (IH E).
  destruct (Z.of_nat (String.length g) =? -1) eqn:E'; [|lia].
  apply Z.eqb_eq in E'. lia.
Qed.

Lemma sliceFrom_group (g n : string) :
  strings.sliceFrom (g +:+ ":" +:+ n) (Z.of_nat (String.length g) + 1) = n.
Proof.
  unfold strings.sliceFrom.
  replace (Z.to_nat (Z.of_nat (String.length g) + 1))
    with (String.length g + 1)%nat by lia.
  rewrite substring_skip_more, length_append.
  change (":" +:+ n)%string with (String ":" n).
  change (substring 1 ?m (String ":" n)) with (substring 0 m n).
  cbn [String.length].
  replace (String.length g + S (String.length n) - (String.length g + 1))%nat
    with (String.length n) by lia.
  apply substring_all.
Qed.

Lemma Find_exact pm name proc :
  procs pm !! name = Some proc -> Find pm name = proc.
Proof. intros H. unfold Find. now rewrite H. Qed.

Lemma Find_group pm g n :
  procs pm !! (g +:+ ":" +:+ n) = None ->
  strings.Index g ":" = -1 ->
  Find pm (g +:+ ":" +:+ n) = default None (procs pm !! n).
Proof.
  intros Hmiss Hg. unfold Find. rewrite Hmiss, (Index_group g n Hg).
  destruct (Z.of_nat (String.length g) =? -1) eqn:E;
    [apply Z.eqb_eq in E; lia|].
  simpl. rewrite sliceFrom_group. now destruct (procs pm !! n).
Qed.

(** C8 (as amended). [Find] returns the pointer stored under a name that
    is a key, so the pointer just given to [Add] and the one returned by
    [CreateProcess]. For [g:n] that is not a key, with no colon in [g],
    [Find] returns what is stored under exactly [n], nil if nothing is,
    which is [Find(n)] whenever [n] has no colon or is a key. [Find]
    returns nil when neither the name nor what follows its first colon is
    a key. *)
Theorem Find_by_name_and_group (pm : ProcessManager) :
  (forall name proc, procs pm !! name = Some proc -> Find pm name = proc) /\
  (forall name proc, Find (Add pm name proc) name = proc) /\
  (forall filepath_Join heap cfg,
     let '(pm', _, proc) := CreateProcess filepath_Join pm heap cfg in
     Find pm' (Name cfg) = proc) /\
  (forall g n,
     procs pm !! (g +:+ ":" +:+ n) = None ->
     strings.Index g ":" = -1 ->
     Find pm (g +:+ ":" +:+ n) = default None (procs pm !! n) /\
     (strings.Index n ":" = -1 \/ is_Some (procs pm !! n) ->
      Find pm (g +:+ ":" +:+ n) = Find pm n)) /\
  (forall name,
     procs pm !! name = None ->
     strings.Index name ":" = -1 \/
     procs pm !! strings.sliceFrom name (strings.Index name ":" + 1) = None ->
     Find pm name = None).
Proof.
  split; [|split; [|split; [|split]]].
  - apply Find_exact.
  - intros name proc. apply Find_exact. simpl. apply lookup_insert_eq.
  - intros filepath_Join heap cfg. unfold CreateProcess, createProgram.
    destruct (procs pm !! Name cfg) as [proc|] eqn:Hkey.
    + now apply Find_exact.
    + apply Find_exact. simpl. apply lookup_insert_eq.
  - intros g n Hmiss Hg. rewrite (Find_group pm g n Hmiss Hg).
    split; [reflexivity|].
    intros [Hn|[proc Hproc]].
    + unfold Find. rewrite Hn. simpl. now destruct (procs pm !! n).
    + rewrite (Find_exact pm n proc Hproc), Hproc. reflexivity.
  - intros name Hmiss Hrest. unfold Find. rewrite Hmiss.
    destruct Hrest as [Hno|Hno]; [now rewrite Hno|].
    rewrite Hno. now destruct (negb _).
Qed.

Lemma Find_by_name_and_group_witness :
  Find {| procs := {[ "prog"%string := Some 0%nat ]} |} "group:prog" = Some 0%nat /\
  Find {| procs := {[ "prog"%string := Some 0%nat ]} |} "group:other" = None.
Proof.
  destruct (Find_by_name_and_group {| procs := {[ "prog"%string := Some 0%nat ]} |})
    as (_ & _ & _ & Hgroup & Hnil).
  split.
  - destruct (Hgroup "group"%string "prog"%string) as [Heq _].
    + vm_compute. reflexivity.
    + reflexivity.
    + exact Heq.
  - apply Hnil.
    + vm_compute. reflexivity.
    + right. vm_compute. reflexivity.
Defined.

(** C8, refuted as stated: with only [c] registered, [a:b:c] is no key
    and [Find] does not return for it what it returns for [c], nor what
    it returns for [b:c]. *)
Lemma Find_group_with_two_colons :
  let pm := {| procs := {[ "c"%string := Some 0%nat ]} |} in
  procs pm !! "a:b:c"%string = None /\
  Find pm "a:b:c" = None /\ Find pm "c" = Some 0%nat /\ Find pm "b:c" = Some 0%nat.
Proof.
  vm_compute. repeat split; reflexivity.
Qed.

(** ** The supervisedService adapter *)

Lemma New_registers filepath_Join c :
  Find (service.procMgr (fst (service.New filepath_Join c))) (service.Name c)
  = Some (fresh (dom (∅ : gmap nat Process))).
Proof.
  unfold service.New, CreateProcess, createProgram. simpl.
  rewrite lookup_empty. simpl. apply Find_exact. simpl. apply lookup_insert_eq.
Qed.

(** C2, on the code: [Stop] calls no method of the Process when the name
    of the service is registered, and calls [Stop(true)] through the nil
    pointer, which panics, when it is not; [Restart] on the same service
    does call [Stop(true)], then [Start(false)], when the name is
    registered. So for every service made by [New], whose name is
    registered, [Stop] returns without stopping anything. *)
Theorem service_Stop_calls_nothing :
  (forall s : service.supervisedService,
     service.Stop s
     = match Find (service.procMgr s) (service.Name (service.Cfg s)) with
       | Some _ => Ok []
       | None => Panic
       end /\
     service.Restart s
     = match Find (service.procMgr s) (service.Name (service.Cfg s)) with
       | Some l => Ok [service.Call_Stop l true; service.Call_Start l false]
       | None => Ok []
       end) /\
  (forall (filepath_Join : string -> string -> string) (c : service.Config),
     service.Stop (fst (service.New filepath_Join c)) = Ok []).
Proof.
  split.
  - intros s. unfold service.Stop, service.Restart.
    destruct (Find _ _); split; reflexivity.
  - intros filepath_Join c. unfold service.Stop. now rewrite New_registers.
Qed.

(** ** The restart loop *)

Section RestartLoop.

Variable parseCommand : string -> option (string * list string).

(** [run] touches neither the retry counter nor the configuration. *)
Lemma run_spawn_keeps_retryTimes h st :
  retryTimes (fst (fst (run_spawn parseCommand h st))) = retryTimes (fst st) /\
  config (fst (fst (run_spawn parseCommand h st))) = config (fst st).
Proof.
  destruct st as [p fs]. unfold run_spawn.
  destruct (parseCommand _) as [[arg0 rest]|]; [|split; reflexivity].
  destruct (stillRunning p); [split; reflexivity|].
  destruct (setUser h _); [split; reflexivity|].
  destruct (spawn h) as [pid|]; [|split; reflexivity].
  cbv zeta.
  destruct (GetInt _ "startsecs" 1 <=? 0); [split; reflexivity|].
  destruct (found_after_sleep h); split; reflexivity.
Qed.

Lemma run_wait_keeps_retryTimes h p :
  retryTimes (run_wait h p) = retryTimes p /\
  config (run_wait h p) = config p.
Proof.
  unfold run_wait. cbv zeta.
  destruct (_ <? _); split; reflexivity.
Qed.

Lemma run_keeps_retryTimes h st :
  retryTimes (fst (run parseCommand h st)) = retryTimes (fst st) /\
  config (fst (run parseCommand h st)) = config (fst st).
Proof.
  unfold run.
  pose proof (run_spawn_keeps_retryTimes h st) as [Hr Hc].
  destruct (run_spawn parseCommand h st) as [[p fs] spawned]. simpl in Hr, Hc.
  destruct spawned; simpl; [|now split].
  pose proof (run_wait_keeps_retryTimes h p) as [Hr' Hc'].
  rewrite Hr', Hc'. now split.
Qed.

Lemma loopBreaks_iff p :
  loopBreaks p = true <->
  stopByUser p = true \/ isAutoRestart p = false \/
  getStartRetries p <= retryTimes p.
Proof.
  unfold loopBreaks.
  destruct (stopByUser p); [intuition|].
  destruct (isAutoRestart p); simpl; [|intuition].
  destruct (getStartRetries p <=? retryTimes p) eqn:E.
  - apply Z.leb_le in E. intuition.
  - apply Z.leb_gt in E. intuition; try discriminate; lia.
Qed.

Lemma getStartRetries_inRange p : GoInt.inRange (getStartRetries p).
Proof.
  apply GetInt_inRange. unfold GoInt.inRange, GoInt.minInt, GoInt.maxInt. lia.
Qed.

(** One turn: the counter is stepped without wrapping, and the turn
    reports a [break] exactly when one of the three tests holds. *)
Lemma iteration_step h p fs p' fs' brk :
  0 <= retryTimes p < GoInt.maxInt ->
  iteration parseCommand h (p, fs) = (p', fs', brk) ->
  let ran := fst (run parseCommand h (p, fs)) in
  retryTimes p' = (if shortRun ran then retryTimes p + 1 else 0) /\
  brk = loopBreaks p' /\
  0 <= retryTimes p' /\
  (brk = false -> retryTimes p' < GoInt.maxInt).
Proof.
  intros Hr Hit ran. unfold iteration in Hit.
  pose proof (run_keeps_retryTimes h (p, fs)) as [Hkeep _]. fold ran in Hkeep.
  simpl in Hkeep.
  destruct (run parseCommand h (p, fs)) as [p1 fs1] eqn:Hrun.
  subst ran. simpl in *.
  assert (Hadd : GoInt.add (retryTimes p1) 1 = retryTimes p + 1).
  { unfold GoInt.add. rewrite Hkeep. apply wrap_id.
    unfold GoInt.inRange, GoInt.minInt, GoInt.maxInt in *. lia. }
  inversion Hit; subst; clear Hit.
  assert (Hcount :
    retryTimes
      (if user_stop h
       then set_stopByUser true
              (if shortRun p1
               then set_retryTimes (GoInt.add (retryTimes p1) 1) p1
               else set_retryTimes 0 p1)
       else if shortRun p1
            then set_retryTimes (GoInt.add (retryTimes p1) 1) p1
            else set_retryTimes 0 p1)
    = (if shortRun p1 then retryTimes p + 1 else 0)).
  { destruct (user_stop h), (shortRun p1); simpl; try exact Hadd; reflexivity. }
  split; [exact Hcount|]. split; [reflexivity|]. split.
  - rewrite Hcount. destruct (shortRun p1); lia.
  - intros Hgo.
    match type of Hgo with loopBreaks ?q = false => set (q0 := q) in * end.
    pose proof (getStartRetries_inRange q0) as Hmax.
    unfold GoInt.inRange in Hmax.
    assert (Hnot : ~ getStartRetries q0 <= retryTimes q0).
    { intros Hle.
      assert (loopBreaks q0 = true) by (apply loopBreaks_iff; auto).
      congruence. }
    lia.
Qed.

Lemma restartLoop_steps hs : forall p fs trace broke,
  0 <= retryTimes p < GoInt.maxInt ->
  restartLoop parseCommand hs (p, fs) = (trace, broke) ->
  (forall i h before after,
     hs !! i = Some h ->
     ((p, fs) :: trace) !! i = Some before ->
     ((p, fs) :: trace) !! S i = Some after ->
     let ran := fst (run parseCommand h before) in
     retryTimes (fst after)
     = (if shortRun ran then retryTimes (fst before) + 1 else 0) /\
     (loopBreaks (fst after) = true <->
      broke = true /\ S i = length trace)) /\
  (broke = false -> length trace = length hs) /\
  (broke = true -> (1 <= length trace <= length hs)%nat).
Proof.
  induction hs as [|h hs IH]; intros p fs trace broke Hr Hloop; simpl in Hloop.
  - inversion Hloop; subst. split; [|split].
    + intros i h before after Hh. rewrite lookup_nil in Hh. discriminate.
    + reflexivity.
    + discriminate.
  - destruct (iteration parseCommand h (p, fs)) as [[p' fs'] brk] eqn:Hit.
    pose proof (iteration_step h p fs p' fs' brk Hr Hit) as (Hcount & Hbrk & Hpos & Hmax).
    destruct brk.
    + inversion Hloop; subst trace broke; clear Hloop. split; [|split].
      * intros i h0 before after Hh Hb Ha.
        destruct i as [|i]; simpl in *.
        -- inversion Hh; inversion Hb; inversion Ha; subst. simpl.
           split; [exact Hcount|]. rewrite <- Hbrk. tauto.
        -- destruct i; discriminate.
      * discriminate.
      * intros _. simpl. lia.
    + destruct (restartLoop parseCommand hs (p', fs')) as [tr br] eqn:Hrest.
      inversion Hloop; subst trace broke; clear Hloop.
      destruct (IH p' fs' tr br) as (Hsteps & Hrun & Hstop);
        [split; [exact Hpos|now apply Hmax] | exact Hrest |].
      split; [|split].
      * intros i h0 before after Hh Hb Ha.
        destruct i as [|i]; simpl in *.
        -- inversion Hh; inversion Hb; inversion Ha; subst. simpl.
           split; [exact Hcount|]. rewrite <- Hbrk. split; [discriminate|].
           intros [Hbroke Hlen]. specialize (Hstop Hbroke). lia.
        -- destruct (Hsteps i h0 before after Hh Hb Ha) as [Hc Hb'].
           split; [exact Hc|]. rewrite Hb'.
           split; intros [? ?]; split; auto; lia.
      * intros Hbr. simpl. now rewrite Hrun.
      * intros Hbr. specialize (Hstop Hbr). simpl. lia.
Qed.

End RestartLoop.

(** C5. In the goroutine of [Start], every turn of the loop leaves
    [retryTimes] one above its value before the turn when the uptime of
    the run, [stopTime - startTime] in seconds, is below [startsecs], and
    at 0 otherwise; and a turn is the last one, the loop being left,
    exactly when after it [stopByUser] is set, or [isAutoRestart] is
    false, or [retryTimes] has reached [startretries]. As long as none of
    these holds the loop makes one more run. *)
Theorem restart_loop_counts_and_exits
  (parseCommand : string -> option (string * list string))
  (hs : list RunHost) (st : Process * gmap string FileNode) :
  let '(trace, broke) := startLoop parseCommand hs st in
  let states := (set_retryTimes 0 (fst st), snd st) :: trace in
  (forall i h before after,
     hs !! i = Some h ->
     states !! i = Some before ->
     states !! S i = Some after ->
     let ran := fst (run parseCommand h before) in
     retryTimes (fst after)
     = (if GoInt.sub (time.Time_Unix (stopTime ran)) (time.Time_Unix (startTime ran))
           <? getStartSeconds ran
        then retryTimes (fst before) + 1 else 0) /\
     ((stopByUser (fst after) = true \/ isAutoRestart (fst after) = false \/
       getStartRetries (fst after) <= retryTimes (fst after)) <->
      broke = true /\ S i = length trace)) /\
  (broke = false -> length trace = length hs) /\
  (broke = true -> (1 <= length trace <= length hs)%nat).
Proof.
  unfold startLoop.
  destruct (restartLoop parseCommand hs (set_retryTimes 0 (fst st), snd st))
    as [trace broke] eqn:Hloop.
  assert (Hzero : 0 <= retryTimes (set_retryTimes 0 (fst st)) < GoInt.maxInt)
    by (simpl; unfold GoInt.maxInt; lia).
  destruct (restartLoop_steps parseCommand hs _ _ trace broke Hzero Hloop)
    as (Hsteps & Hrun & Hstop).
  cbv zeta. split; [|split; assumption].
  intros i h before after Hh Hb Ha.
  destruct (Hsteps i h before after Hh Hb Ha) as [Hc Hb'].
  split; [exact Hc|]. rewrite <- Hb'. symmetry. apply loopBreaks_iff.
Qed.

Lemma restart_loop_counts_and_exits_witness :
  let hs := [exSpawnFails; exSpawnFails; exSpawnFails] in
  let trace := fst (startLoop exParse hs exRetrying) in
  exists before after,
    trace !! 0%nat = Some before /\ trace !! 1%nat = Some after /\
    retryTimes (fst after) = retryTimes (fst before) + 1 /\
    getStartRetries (fst after) <= retryTimes (fst after) /\
    length trace = 2%nat.
Proof.
  intros hs trace.
  pose proof (restart_loop_counts_and_exits exParse hs exRetrying) as H.
  destruct (startLoop exParse hs exRetrying) as [tr broke] eqn:E.
  subst trace. simpl fst.
  assert (Hlen : length tr = 2%nat /\ broke = true).
  { vm_compute in E. inversion E. split; reflexivity. }
  destruct Hlen as [Hlen Hbroke].
  destruct tr as [|before [|after [|]]]; try discriminate Hlen.
  destruct H as (Hsteps & _ & _).
  destruct (Hsteps 1%nat exSpawnFails before after eq_refl eq_refl eq_refl)
    as [Hcount Hexit].
  exists before, after.
  split; [reflexivity|]. split; [reflexivity|].
  assert (Hshort :
    (GoInt.sub (time.Time_Unix (stopTime (fst (run exParse exSpawnFails before))))
               (time.Time_Unix (startTime (fst (run exParse exSpawnFails before))))
     <? getStartSeconds (fst (run exParse exSpawnFails before))) = true).
  { vm_compute in E. inversion E. subst. vm_compute. reflexivity. }
  rewrite Hshort in Hcount.
  split; [exact Hcount|]. split; [|reflexivity].
  destruct Hexit as [_ Hexit]. specialize (Hexit (conj Hbroke eq_refl)).
  destruct Hexit as [Hu|[Ha|Hr]]; [| |exact Hr].
  - exfalso. vm_compute in E. inversion E. subst. vm_compute in Hu. discriminate.
  - exfalso. vm_compute in E. inversion E. subst. vm_compute in Ha. discriminate.
Defined.

(** ** Stop *)





(** * Further properties of the code *)

(** ** Printing and reading numbers *)

Lemma maxUint64_value : strconv.maxUint64 = 18446744073709551615.
Proof. reflexivity. Qed.

Lemma cutoff_value : strconv.cutoff = 1844674407370955162.
Proof. reflexivity. Qed.

Lemma digitsValue_ge d : forall acc, 0 <= acc -> acc <= digitsValue d acc.
Proof.
  induction d as [ | d IHd | d IHd | d IHd | d IHd | d IHd | d IHd | d IHd
                   | d IHd | d IHd | d IHd ]; intros acc Hacc; simpl; try lia;
    (etransitivity; [|apply IHd]; lia).
Qed.

(** The digit loop of [ParseUint] on printed digits that fit 64 bits. *)
Lemma parseUintLoop_digits d : forall acc,
  0 <= acc -> digitsValue d acc <= strconv.maxUint64 ->
  strconv.parseUintLoop (NilEmpty.string_of_uint d) acc = (digitsValue d acc, None).
Proof.
  rewrite maxUint64_value.
  induction d as [ | d IHd | d IHd | d IHd | d IHd | d IHd | d IHd | d IHd
                   | d IHd | d IHd | d IHd ];
    intros acc Hacc Hfit; simpl in *; [reflexivity|..].
  all: match goal with
       | |- context [digitsValue ?d' ?a] =>
           pose proof (digitsValue_ge d' a ltac:(lia)) as Hge
       end.
  all: assert (Hc : (strconv.cutoff <=? acc) = false)
         by (apply Z.leb_gt; rewrite cutoff_value; lia).
  all: cbn [strconv.digitVal N_of_ascii]; simpl; rewrite Hc.
  all: match goal with
       | |- context [strconv.maxUint64 <? ?a] =>
           assert (Hm : (strconv.maxUint64 <? a) = false)
             by (apply Z.ltb_ge; rewrite maxUint64_value; lia);
           rewrite Hm
       end.
  all: rewrite ?Z.add_0_r; apply IHd; lia.
Qed.

Lemma of_uint_digit d (k : positive) :
  N.pos (Pos.of_uint_acc d k)
  = (Pos.of_uint d + N.pos k * 10 ^ DecimalPos.Unsigned.usize d)%N.
Proof.
  rewrite DecimalPos.Unsigned.of_uint_acc_rev.
  now rewrite DecimalPos.Unsigned.of_uint_alt.
Qed.

Lemma digitsValue_of_uint d : forall acc,
  digitsValue d acc
  = acc * 10 ^ Z.of_N (DecimalPos.Unsigned.usize d) + Z.of_N (Pos.of_uint d).
Proof.
  induction d as [ | d IHd | d IHd | d IHd | d IHd | d IHd | d IHd | d IHd
                   | d IHd | d IHd | d IHd ]; intros acc.
  - simpl. lia.
  - cbn [digitsValue DecimalPos.Unsigned.usize Pos.of_uint]. rewrite IHd.
    rewrite N2Z.inj_succ, Z.pow_succ_r by lia. lia.
  - cbn [digitsValue DecimalPos.Unsigned.usize Pos.of_uint].
    rewrite IHd, of_uint_digit, N2Z.inj_succ, Z.pow_succ_r by lia.
    rewrite N2Z.inj_add, N2Z.inj_mul, N2Z.inj_pow. simpl Z.of_N. lia.
  - cbn [digitsValue DecimalPos.Unsigned.usize Pos.of_uint].
    rewrite IHd, of_uint_digit, N2Z.inj_succ, Z.pow_succ_r by lia.
    rewrite N2Z.inj_add, N2Z.inj_mul, N2Z.inj_pow. simpl Z.of_N. lia.
  - cbn [digitsValue DecimalPos.Unsigned.usize Pos.of_uint].
    rewrite IHd, of_uint_digit, N2Z.inj_succ, Z.pow_succ_r by lia.
    rewrite N2Z.inj_add, N2Z.inj_mul, N2Z.inj_pow. simpl Z.of_N. lia.
  - cbn [digitsValue DecimalPos.Unsigned.usize Pos.of_uint].
    rewrite IHd, of_uint_digit, N2Z.inj_succ, Z.pow_succ_r by lia.
    rewrite N2Z.inj_add, N2Z.inj_mul, N2Z.inj_pow. simpl Z.of_N. lia.
  - cbn [digitsValue DecimalPos.Unsigned.usize Pos.of_uint].
    rewrite IHd, of_uint_digit, N2Z.inj_succ, Z.pow_succ_r by lia.
    rewrite N2Z.inj_add, N2Z.inj_mul, N2Z.inj_pow. simpl Z.of_N. lia.
  - cbn [digitsValue DecimalPos.Unsigned.usize Pos.of_uint].
    rewrite IHd, of_uint_digit, N2Z.inj_succ, Z.pow_succ_r by lia.
    rewrite N2Z.inj_add, N2Z.inj_mul, N2Z.inj_pow. simpl Z.of_N. lia.
  - cbn [digitsValue DecimalPos.Unsigned.usize Pos.of_uint].
    rewrite IHd, of_uint_digit, N2Z.inj_succ, Z.pow_succ_r by lia.
    rewrite N2Z.inj_add, N2Z.inj_mul, N2Z.inj_pow. simpl Z.of_N. lia.
  - cbn [digitsValue DecimalPos.Unsigned.usize Pos.of_uint].
    rewrite IHd, of_uint_digit, N2Z.inj_succ, Z.pow_succ_r by lia.
    rewrite N2Z.inj_add, N2Z.inj_mul, N2Z.inj_pow. simpl Z.of_N. lia.
  - cbn [digitsValue DecimalPos.Unsigned.usize Pos.of_uint].
    rewrite IHd, of_uint_digit, N2Z.inj_succ, Z.pow_succ_r by lia.
    rewrite N2Z.inj_add, N2Z.inj_mul, N2Z.inj_pow. simpl Z.of_N. lia.
Qed.

Lemma ParseUint_to_uint p :
  Z.pos p <= strconv.maxUint64 ->
  strconv.ParseUint (NilEmpty.string_of_uint (Pos.to_uint p)) = (Z.pos p, None).
Proof.
  intros Hfit.
  assert (Hval : digitsValue (Pos.to_uint p) 0 = Z.pos p).
  { rewrite digitsValue_of_uint, DecimalPos.Unsigned.of_to. simpl. reflexivity. }
  pose proof (parseUintLoop_digits (Pos.to_uint p) 0 ltac:(lia)) as Hloop.
  rewrite Hval in Hloop. specialize (Hloop Hfit).
  pose proof (DecimalPos.Unsigned.to_uint_nonnil p) as Hnil.
  unfold strconv.ParseUint.
  destruct (NilEmpty.string_of_uint (Pos.to_uint p)) eqn:Hs; [|exact Hloop].
  destruct (Pos.to_uint p); try discriminate Hs. now destruct Hnil.
Qed.

Lemma string_of_uint_head d c s :
  NilEmpty.string_of_uint d = String c s ->
  Ascii.eqb c "+" = false /\ Ascii.eqb c "-" = false.
Proof.
  destruct d; simpl; intros H; inversion H; subst; split; reflexivity.
Qed.

Lemma NilZero_to_uint p :
  NilZero.string_of_uint (Pos.to_uint p) = NilEmpty.string_of_uint (Pos.to_uint p).
Proof.
  pose proof (DecimalPos.Unsigned.to_uint_nonnil p) as Hnil.
  now destruct (Pos.to_uint p).
Qed.

(** What [Sprintf("%d")] prints of an [int], [Atoi] reads back. *)
Lemma Atoi_Itoa z : GoInt.inRange z -> strconv.Atoi (strconv.Itoa z) = (z, None).
Proof.
  unfold GoInt.inRange, GoInt.minInt, GoInt.maxInt. intros Hz.
  unfold strconv.Itoa, strconv.Atoi.
  destruct z as [|p|p]; [reflexivity|..]; simpl Z.to_int;
    cbn [NilZero.string_of_int]; rewrite NilZero_to_uint.
  - pose proof (ParseUint_to_uint p ltac:(rewrite maxUint64_value; lia)) as Hu.
    unfold strconv.ParseInt.
    destruct (NilEmpty.string_of_uint (Pos.to_uint p)) as [|c s] eqn:Hs;
      [discriminate Hu|].
    destruct (string_of_uint_head _ _ _ Hs) as [Hplus Hminus].
    rewrite Hplus, Hminus. cbn [orb negb andb]. rewrite Hu.
    destruct (2 ^ 63 <=? Z.pos p) eqn:E; [apply Z.leb_le in E; lia|reflexivity].
  - pose proof (ParseUint_to_uint p ltac:(rewrite maxUint64_value; lia)) as Hu.
    unfold strconv.ParseInt. cbn [Ascii.eqb Bool.eqb orb negb andb].
    rewrite Hu.
    destruct (2 ^ 63 <? Z.pos p) eqn:E; [apply Z.ltb_lt in E; lia|reflexivity].
Qed.

Lemma numberBytes_uint d : numberBytes (NilEmpty.string_of_uint d) = true.
Proof. induction d; simpl; auto. Qed.

(** A printed number is made of digits and at most a minus sign, and is
    not empty. *)
Lemma numberBytes_Itoa z :
  numberBytes (strconv.Itoa z) = true /\ strconv.Itoa z <> EmptyString.
Proof.
  unfold strconv.Itoa.
  destruct z as [|p|p]; [split; [reflexivity|discriminate]|..]; simpl Z.to_int;
    cbn [NilZero.string_of_int]; rewrite NilZero_to_uint.
  - split; [apply numberBytes_uint|].
    pose proof (DecimalPos.Unsigned.to_uint_nonnil p) as Hnil.
    destruct (Pos.to_uint p); try discriminate. now destruct Hnil.
  - split; [|discriminate]. cbn [numberBytes]. now rewrite numberBytes_uint.
Qed.

(** ** White space and separators around printed numbers *)

Lemma append_cons c (s t : string) : String c s +:+ t = String c (s +:+ t).
Proof. reflexivity. Qed.

Lemma append_empty_r (s : string) : s +:+ EmptyString = s.
Proof. induction s as [|c s IH]; [reflexivity|]. now rewrite append_cons, IH. Qed.

Lemma append_assoc (a b c : string) : (a +:+ b) +:+ c = a +:+ (b +:+ c).
Proof. induction a as [|x a IH]; [reflexivity|]. now rewrite !append_cons, IH. Qed.

Lemma rev_cons c (s : string) :
  String.rev (String c s) = String.rev_app s (String c EmptyString).
Proof. reflexivity. Qed.

Lemma rev_app_spec (a : string) : forall acc,
  String.rev_app a acc = String.rev a +:+ acc.
Proof.
  induction a as [|x a IH]; intros acc; [reflexivity|].
  rewrite rev_cons.
  change (String.rev_app (String x a) acc) with (String.rev_app a (String x acc)).
  rewrite (IH (String x acc)), (IH (String x EmptyString)), append_assoc.
  reflexivity.
Qed.

Lemma rev_snoc c (s : string) :
  String.rev (String c s) = String.rev s +:+ String c EmptyString.
Proof. rewrite rev_cons. apply rev_app_spec. Qed.

Lemma rev_append (a b : string) :
  String.rev (a +:+ b) = String.rev b +:+ String.rev a.
Proof.
  induction a as [|x a IH].
  - change (EmptyString +:+ b) with b.
    change (String.rev EmptyString) with EmptyString.
    now rewrite append_empty_r.
  - rewrite append_cons, !rev_snoc, IH, append_assoc. reflexivity.
Qed.

Lemma rev_involutive (s : string) : String.rev (String.rev s) = s.
Proof.
  induction s as [|x s IH]; [reflexivity|].
  rewrite rev_snoc, rev_append, IH. reflexivity.
Qed.

Lemma numberBytes_append (a b : string) :
  numberBytes (a +:+ b) = numberBytes a && numberBytes b.
Proof.
  induction a as [|x a IH]; [reflexivity|].
  rewrite append_cons. cbn [numberBytes]. now rewrite IH, andb_assoc.
Qed.

Lemma spaceBytes_append (a b : string) :
  spaceBytes (a +:+ b) = spaceBytes a && spaceBytes b.
Proof.
  induction a as [|x a IH]; [reflexivity|].
  rewrite append_cons. cbn [spaceBytes]. now rewrite IH, andb_assoc.
Qed.

Lemma numberBytes_rev (s : string) : numberBytes (String.rev s) = numberBytes s.
Proof.
  induction s as [|x s IH]; [reflexivity|].
  rewrite rev_snoc, numberBytes_append, IH. cbn [numberBytes].
  rewrite andb_true_r. apply andb_comm.
Qed.

Lemma spaceBytes_rev (s : string) : spaceBytes (String.rev s) = spaceBytes s.
Proof.
  induction s as [|x s IH]; [reflexivity|].
  rewrite rev_snoc, spaceBytes_append, IH. cbn [spaceBytes].
  rewrite andb_true_r. apply andb_comm.
Qed.

Lemma length_rev (s : string) : String.length (String.rev s) = String.length s.
Proof.
  induction s as [|x s IH]; [reflexivity|].
  rewrite rev_snoc, length_append, IH. cbn [String.length]. lia.
Qed.

(** A white-space byte is stripped as one rune, from the left and, the
    string reversed, from the right. *)
Lemma stripAny_spaceByte c t :
  spaceByte c = true ->
  strings.stripAny (map strings.ofBytes strings.spaceRunes) (String c t) = Some t /\
  strings.stripAny (map (fun r => strings.ofBytes (rev r)) strings.spaceRunes)
    (String c t) = Some t.
Proof.
  destruct c as [[|] [|] [|] [|] [|] [|] [|] [|]]; intros H;
    vm_compute in H; try discriminate H; split; reflexivity.
Qed.

(** No rune of white space begins, or ends, with a digit or a minus. *)
Lemma stripAny_numberByte c t :
  numberByte c = true ->
  strings.stripAny (map strings.ofBytes strings.spaceRunes) (String c t) = None /\
  strings.stripAny (map (fun r => strings.ofBytes (rev r)) strings.spaceRunes)
    (String c t) = None.
Proof.
  destruct c as [[|] [|] [|] [|] [|] [|] [|] [|]]; intros H;
    vm_compute in H; try discriminate H; split; reflexivity.
Qed.

Lemma trimLeftLoop_stop fuel runes s :
  strings.stripAny runes s = None -> strings.trimLeftLoop fuel runes s = s.
Proof. intros H. destruct fuel; simpl; [reflexivity|]. now rewrite H. Qed.

Lemma trimLeftLoop_spaces runes (ws : string) : forall fuel rest,
  (forall c t, spaceByte c = true -> strings.stripAny runes (String c t) = Some t) ->
  spaceBytes ws = true ->
  (String.length ws <= fuel)%nat ->
  strings.stripAny runes rest = None ->
  strings.trimLeftLoop fuel runes (ws +:+ rest) = rest.
Proof.
  induction ws as [|c ws IH]; intros fuel rest Hstrip Hws Hfuel Hrest.
  - change (EmptyString +:+ rest) with rest. now apply trimLeftLoop_stop.
  - cbn [spaceBytes] in Hws. apply andb_true_iff in Hws as [Hc Hws].
    cbn [String.length] in Hfuel.
    destruct fuel as [|fuel]; [lia|].
    rewrite append_cons. cbn [strings.trimLeftLoop].
    rewrite (Hstrip c _ Hc). apply IH; try assumption. lia.
Qed.

(** [TrimSpace] takes the white-space bytes off both ends of a number. *)
Lemma TrimSpace_number (ws1 s ws2 : string) :
  spaceBytes ws1 = true -> spaceBytes ws2 = true ->
  numberBytes s = true -> s <> EmptyString ->
  strings.TrimSpace (ws1 +:+ s +:+ ws2) = s.
Proof.
  intros H1 H2 Hs Hne. unfold strings.TrimSpace.
  assert (Hleft : strings.TrimLeftSpace (ws1 +:+ s +:+ ws2) = s +:+ ws2).
  { unfold strings.TrimLeftSpace. apply trimLeftLoop_spaces.
    - intros c t Hc. destruct (stripAny_spaceByte c t Hc) as [Hl _]. exact Hl.
    - exact H1.
    - rewrite length_append. lia.
    - destruct s as [|c s]; [congruence|]. cbn [numberBytes] in Hs.
      apply andb_true_iff in Hs as [Hc _]. rewrite append_cons.
      destruct (stripAny_numberByte c (s +:+ ws2) Hc) as [Hl _]. exact Hl. }
  rewrite Hleft. unfold strings.TrimRightSpace.
  rewrite rev_append, trimLeftLoop_spaces.
  - apply rev_involutive.
  - intros c t Hc. destruct (stripAny_spaceByte c t Hc) as [_ Hr]. exact Hr.
  - now rewrite spaceBytes_rev.
  - rewrite length_rev, length_append. lia.
  - assert (Hrev : numberBytes (String.rev s) = true)
      by now rewrite numberBytes_rev.
    assert (Hlen : String.length (String.rev s) = String.length s)
      by apply length_rev.
    destruct (String.rev s) as [|c r].
    + destruct s; [congruence|discriminate Hlen].
    + cbn [numberBytes] in Hrev. apply andb_true_iff in Hrev as [Hc _].
      destruct (stripAny_numberByte c r Hc) as [_ Hr]. exact Hr.
Qed.

(** A string without the separator is one piece. *)
Lemma numberBytes_Index (s : string) (sep : ascii) :
  numberBytes s = true -> numberByte sep = false -> strings.Index s sep = -1.
Proof.
  intros Hs Hsep. induction s as [|c s IH]; [reflexivity|].
  simpl in *. apply andb_true_iff in Hs as [Hc Hs].
  destruct (Ascii.eqb c sep) eqn:E.
  - apply Ascii.eqb_eq in E. congruence.
  - now rewrite (IH Hs).
Qed.

Lemma Index_none_head c s sep :
  strings.Index (String c s) sep = -1 ->
  Ascii.eqb c sep = false /\ strings.Index s sep = -1.
Proof.
  simpl. destruct (Ascii.eqb c sep); [discriminate|].
  pose proof (Index_lower s sep).
  destruct (strings.Index s sep =? -1) eqn:E; [|lia].
  apply Z.eqb_eq in E. auto.
Qed.

Lemma Split_one (a : string) (sep : ascii) :
  strings.Index a sep = -1 -> strings.Split a sep = [a].
Proof.
  induction a as [|c a IH]; intros H; [reflexivity|].
  apply Index_none_head in H as [Hc Ha]. simpl. rewrite Hc, (IH Ha). reflexivity.
Qed.

Lemma Split_first (a b : string) (sep : ascii) :
  strings.Index a sep = -1 ->
  strings.Split (a +:+ String sep b) sep = a :: strings.Split b sep.
Proof.
  induction a as [|c a IH]; intros H.
  - change (EmptyString +:+ String sep b) with (String sep b).
    cbn [strings.Split]. now rewrite Ascii.eqb_refl.
  - apply Index_none_head in H as [Hc Ha]. rewrite append_cons.
    cbn [strings.Split]. rewrite Hc, (IH Ha). reflexivity.
Qed.


(** ** ConfigEntry: numbers, units and the environment *)

Lemma parseUintLoop_range s : forall acc v,
  strconv.parseUintLoop s acc = (v, Some strconv.ErrRange) -> v = strconv.maxUint64.
Proof.
  induction s as [|c s IH]; intros acc v H; simpl in H; [discriminate|].
  destruct (strconv.digitVal c); [|discriminate].
  destruct (strconv.cutoff <=? acc); [now inversion H|].
  destruct (strconv.maxUint64 <? acc * 10 + z); [now inversion H|].
  eapply IH, H.
Qed.

(** The digit loop fails on a string whose last byte is no digit. *)
Lemma parseUintLoop_trailing pre ch : forall acc,
  strconv.digitVal ch = None ->
  snd (strconv.parseUintLoop (pre +:+ String ch EmptyString) acc) <> None.
Proof.
  induction pre as [|c pre IH]; intros acc Hch.
  - change (EmptyString +:+ String ch EmptyString) with (String ch EmptyString).
    simpl. rewrite Hch. discriminate.
  - rewrite append_cons. simpl.
    destruct (strconv.digitVal c); [|discriminate].
    destruct (strconv.cutoff <=? acc); [discriminate|].
    destruct (strconv.maxUint64 <? acc * 10 + z); [discriminate|].
    now apply IH.
Qed.

Lemma ParseUint_trailing pre ch :
  strconv.digitVal ch = None ->
  snd (strconv.ParseUint (pre +:+ String ch EmptyString)) <> None.
Proof.
  intros Hch. pose proof (parseUintLoop_trailing pre ch 0 Hch) as H.
  destruct pre; exact H.
Qed.

Lemma ParseUint_range s v :
  strconv.ParseUint s = (v, Some strconv.ErrRange) -> v = strconv.maxUint64.
Proof.
  destruct s; [discriminate|]. apply parseUintLoop_range.
Qed.

(** [ParseInt] fails when [ParseUint] fails on the digits. *)
Lemma ParseInt_error c rest :
  snd (strconv.ParseUint
         (if (Ascii.eqb c "+" || Ascii.eqb c "-")%bool then rest else String c rest))
  <> None ->
  snd (strconv.ParseInt (String c rest)) <> None.
Proof.
  unfold strconv.ParseInt.
  set (body := if (Ascii.eqb c "+" || Ascii.eqb c "-")%bool then rest else String c rest).
  destruct (strconv.ParseUint body) as [un [[|]|]] eqn:Hu; simpl; intros H.
  - discriminate.
  - apply ParseUint_range in Hu. subst un. rewrite maxUint64_value.
    destruct (Ascii.eqb c "-"); simpl; discriminate.
  - congruence.
Qed.

(** A string whose last byte is no digit is no number for [Atoi]. *)
Lemma Atoi_trailing pre ch :
  strconv.digitVal ch = None ->
  snd (strconv.Atoi (pre +:+ String ch EmptyString)) <> None.
Proof.
  intros Hch. unfold strconv.Atoi.
  destruct pre as [|c pre].
  - change (EmptyString +:+ String ch EmptyString) with (String ch EmptyString).
    apply ParseInt_error.
    destruct (Ascii.eqb ch "+" || Ascii.eqb ch "-")%bool; simpl.
    + discriminate.
    + rewrite Hch. discriminate.
  - rewrite append_cons. apply ParseInt_error.
    destruct (Ascii.eqb c "+" || Ascii.eqb c "-")%bool.
    + now apply ParseUint_trailing.
    + rewrite <- append_cons. now apply ParseUint_trailing.
Qed.

(** X1. [GetInt] returns the number stored under the key, exactly and
    without wrapping, and the default when the key is absent or its value
    is not a base-10 number; a number stored as [Sprintf("%d")] prints it
    is read back. *)
Theorem GetInt_number_or_default (c : ConfigEntry) (key : string) (defValue : Z) :
  GetInt c key defValue
  = match KeyValues c !! key with
    | Some v =>
        match strconv.Atoi v with
        | (i, None) => i
        | (_, Some _) => defValue
        end
    | None => defValue
    end /\
  (forall z, GoInt.inRange z ->
             KeyValues c !! key = Some (strconv.Itoa z) ->
             GetInt c key defValue = z).
Proof.
  assert (Heq : GetInt c key defValue
    = match KeyValues c !! key with
      | Some v =>
          match strconv.Atoi v with
          | (i, None) => i
          | (_, Some _) => defValue
          end
      | None => defValue
      end).
  { unfold GetInt, toInt. destruct (KeyValues c !! key) as [v|]; [|reflexivity].
    destruct (strconv.Atoi v) as [i [e|]] eqn:Hv; [reflexivity|].
    unfold GoInt.mul. rewrite Z.mul_1_r. apply wrap_id.
    eapply Atoi_inRange, Hv. }
  split; [exact Heq|].
  intros z Hz Hkey. rewrite Heq, Hkey, (Atoi_Itoa z Hz). reflexivity.
Qed.

Lemma GetInt_number_or_default_witness :
  GetInt (exConfig [("startretries", strconv.Itoa 25)]%string) "startretries" 3 = 25.
Proof.
  apply (GetInt_number_or_default _ "startretries"%string 3).
  - vm_compute. split; discriminate.
  - vm_compute. reflexivity.
Defined.

(** X2. The units of [GetBytes] are KB, MB and GB in capitals and nothing
    else: a value that ends in any other byte that is no digit (as in
    1kb, 1K, 10B, 1.5 or a number followed by a space) yields the
    default. *)
Theorem GetBytes_unknown_unit (c : ConfigEntry) (key : string) (defValue : Z)
  (pre : string) (ch : ascii) :
  strconv.digitVal ch = None ->
  KeyValues c !! key = Some (pre +:+ String ch EmptyString) ->
  ~ hasSuffix (pre +:+ String ch EmptyString) "KB" ->
  ~ hasSuffix (pre +:+ String ch EmptyString) "MB" ->
  ~ hasSuffix (pre +:+ String ch EmptyString) "GB" ->
  GetBytes c key defValue = defValue.
Proof.
  intros Hch Hkey HK HM HG.
  rewrite (GetBytes_raw c key defValue _ Hkey HK HM HG).
  pose proof (Atoi_trailing pre ch Hch) as Herr.
  unfold toInt. destruct (strconv.Atoi _) as [i [e|]]; [reflexivity|].
  now destruct Herr.
Qed.

Lemma hasSuffix_last (pre suf : string) (a b : ascii) :
  hasSuffix (pre +:+ String a EmptyString) (suf +:+ String b EmptyString) -> a = b.
Proof.
  intros [front H].
  assert (Hrev : String.rev (pre +:+ String a EmptyString)
                 = String.rev (front +:+ suf +:+ String b EmptyString))
    by now rewrite H.
  rewrite !rev_append in Hrev.
  change (String.rev (String a EmptyString)) with (String a EmptyString) in Hrev.
  change (String.rev (String b EmptyString)) with (String b EmptyString) in Hrev.
  rewrite append_assoc in Hrev. rewrite !append_cons in Hrev.
  now inversion Hrev.
Qed.

Lemma GetBytes_unknown_unit_witness :
  GetBytes (exConfig [("logSize", "1kb")]%string) "logSize" 7 = 7.
Proof.
  apply (GetBytes_unknown_unit _ "logSize"%string 7 "1k"%string "b"%char).
  - reflexivity.
  - vm_compute. reflexivity.
  - intros H. apply (hasSuffix_last "1k" "K" "b" "B") in H. discriminate H.
  - intros H. apply (hasSuffix_last "1k" "M" "b" "B") in H. discriminate H.
  - intros H. apply (hasSuffix_last "1k" "G" "b" "B") in H. discriminate H.
Defined.

(** X3. [GetEnv] gives one entry for every variable of the environment
    map, and its entries are exactly the strings [KEY=VALUE] of the
    variables. *)
Theorem GetEnv_entries (c : ConfigEntry) :
  length (GetEnv c) = size (Envs c) /\
  (forall e,
     e ∈ GetEnv c <->
     exists k v, Envs c !! k = Some v /\ e = k +:+ "=" +:+ v).
Proof.
  unfold GetEnv. split.
  - rewrite length_fmap. apply length_map_to_list.
  - intros e. rewrite list_elem_of_fmap. split.
    + intros ([k v] & -> & Hin). apply elem_of_map_to_list in Hin.
      exists k, v. now split.
    + intros (k & v & Hkv & ->). exists (k, v). split; [reflexivity|].
      now apply elem_of_map_to_list.
Qed.

Lemma GetEnv_entries_witness :
  "PATH=/bin"%string
  ∈ GetEnv {| ConfigDir := EmptyString; Name := "prog"; Arguments := [];
              KeyValues := ∅; Envs := {[ "PATH"%string := "/bin"%string ]} |}.
Proof.
  apply GetEnv_entries. exists "PATH"%string, "/bin"%string.
  split; reflexivity.
Defined.

(** ** The restart policy: exit codes and [autorestart] *)

Lemma Split_joinWith (sep : ascii) (pieces : list string) :
  pieces <> [] ->
  Forall (fun piece => strings.Index piece sep = -1) pieces ->
  strings.Split (joinWith sep pieces) sep = pieces.
Proof.
  induction pieces as [|piece rest IH]; intros Hne Hall; [congruence|].
  inversion Hall as [|? ? Hpiece Hrest]; subst.
  destruct rest as [|next rest].
  - simpl. now apply Split_one.
  - change (joinWith sep (piece :: next :: rest))
      with (piece +:+ String sep (joinWith sep (next :: rest))).
    rewrite (Split_first _ _ _ Hpiece), IH; [reflexivity|discriminate|exact Hrest].
Qed.

(** The loop of [getExitCodes] keeps, in their order, the pieces that are
    numbers. *)
Lemma getExitCodes_fold (pieces : list string) : forall acc,
  fold_left
    (fun result val =>
       match strconv.Atoi val with
       | (i, None) => result ++ [i]
       | (_, Some _) => result
       end) pieces acc
  = acc ++ omap (fun val => match strconv.Atoi val with
                            | (i, None) => Some i
                            | (_, Some _) => None
                            end) pieces.
Proof.
  induction pieces as [|val rest IH]; intros acc; simpl.
  - now rewrite app_nil_r.
  - rewrite IH. destruct (strconv.Atoi val) as [i [e|]]; [reflexivity|].
    now rewrite <- app_assoc.
Qed.

Lemma omap_Atoi_Itoa (codes : list Z) :
  Forall GoInt.inRange codes ->
  omap (fun val => match strconv.Atoi val with
                   | (i, None) => Some i
                   | (_, Some _) => None
                   end) (strconv.Itoa <$> codes) = codes.
Proof.
  induction 1 as [|z codes Hz Hall IH]; [reflexivity|].
  rewrite fmap_cons.
  match goal with
  | |- omap ?g (?x :: ?l) = _ =>
      change (omap g (x :: l))
        with (match g x with Some y => y :: omap g l | None => omap g l end)
  end.
  cbv beta. rewrite (Atoi_Itoa z Hz). now rewrite IH.
Qed.

(** X4. An [exitcodes] option written as the decimal codes joined by
    commas is read back by [getExitCodes] as those codes, in their order;
    so [inExitCodes] holds of exactly the listed codes. *)
Theorem getExitCodes_round_trip (p : Process) (codes : list Z) :
  codes <> [] ->
  Forall GoInt.inRange codes ->
  KeyValues (config p) !! "exitcodes"%string
  = Some (joinWith "," (strconv.Itoa <$> codes)) ->
  getExitCodes p = codes /\
  (forall code, inExitCodes p code = true <-> In code codes).
Proof.
  intros Hne Hall Hkey.
  assert (Hcodes : getExitCodes p = codes).
  { unfold getExitCodes, GetString. rewrite Hkey, Split_joinWith.
    - rewrite getExitCodes_fold. simpl. now apply omap_Atoi_Itoa.
    - destruct codes; [congruence|discriminate].
    - apply Forall_fmap, Forall_forall. intros z _. simpl.
      apply numberBytes_Index; [apply numberBytes_Itoa|reflexivity]. }
  split; [exact Hcodes|].
  intros code. rewrite inExitCodes_In, Hcodes. reflexivity.
Qed.

Lemma getExitCodes_round_trip_witness :
  getExitCodes
    (NewProcess exJoin
       (exConfig [("exitcodes", joinWith "," (strconv.Itoa <$> [0; 2; 143]))]%string))
  = [0; 2; 143].
Proof.
  apply getExitCodes_round_trip.
  - discriminate.
  - repeat constructor; vm_compute; discriminate.
  - vm_compute. reflexivity.
Defined.

(** X5. [autorestart=false] never restarts and [autorestart=true] always
    does; every other value is read as [unexpected], so two Processes that
    differ only in such a value decide alike; and as long as no exit of a
    child is recorded, only [autorestart=true] restarts. *)
Theorem isAutoRestart_policy (p : Process) :
  let autoRestart := GetString (config p) "autorestart" "unexpected" in
  (autoRestart = "false"%string -> isAutoRestart p = false) /\
  (autoRestart = "true"%string -> isAutoRestart p = true) /\
  (forall q,
     autoRestart <> "false"%string -> autoRestart <> "true"%string ->
     GetString (config q) "autorestart" "unexpected" <> "false"%string ->
     GetString (config q) "autorestart" "unexpected" <> "true"%string ->
     cmd q = cmd p ->
     KeyValues (config q) !! "exitcodes"%string
     = KeyValues (config p) !! "exitcodes"%string ->
     isAutoRestart q = isAutoRestart p) /\
  ((cmd p = None \/ exists c, cmd p = Some c /\ exec.ProcessState c = None) ->
   (isAutoRestart p = true <-> autoRestart = "true"%string)).
Proof.
  intros autoRestart.
  assert (Hother : forall r,
    GetString (config r) "autorestart" "unexpected" <> "false"%string ->
    GetString (config r) "autorestart" "unexpected" <> "true"%string ->
    isAutoRestart r
    = match cmd r with
      | Some c =>
          match exec.ProcessState c with
          | Some ps => negb (inExitCodes r (syscall.ExitStatus (os.Sys ps)))
          | None => false
          end
      | None => false
      end).
  { intros r Hf Ht. unfold isAutoRestart.
    apply String.eqb_neq in Hf, Ht. rewrite Hf, Ht.
    destruct (cmd r) as [c|]; [|reflexivity]. unfold getExitCode.
    destruct (exec.ProcessState c); reflexivity. }
  split; [|split; [|split]].
  - intros H. unfold isAutoRestart. fold autoRestart. now rewrite H.
  - intros H. unfold isAutoRestart. fold autoRestart. now rewrite H.
  - intros q Hpf Hpt Hqf Hqt Hcmd Hcodes.
    rewrite (Hother q Hqf Hqt), (Hother p Hpf Hpt), Hcmd.
    unfold inExitCodes, getExitCodes, GetString. now rewrite Hcodes.
  - intros Hnone. split.
    + intros Hres.
      destruct (String.eqb_spec autoRestart "true") as [|Ht]; [assumption|].
      destruct (String.eqb_spec autoRestart "false") as [Hf|Hf].
      * unfold isAutoRestart in Hres. fold autoRestart in Hres.
        rewrite Hf in Hres. discriminate Hres.
      * rewrite (Hother p Hf Ht) in Hres.
        destruct Hnone as [Hc|(c & Hc & Hps)]; rewrite Hc in Hres;
          [|rewrite Hps in Hres]; discriminate Hres.
    + intros H. unfold isAutoRestart. fold autoRestart. now rewrite H.
Qed.

Lemma isAutoRestart_policy_witness :
  isAutoRestart (NewProcess exJoin (exConfig [("autorestart", "sometimes")]%string))
  = isAutoRestart (NewProcess exJoin (exConfig [])) /\
  isAutoRestart (NewProcess exJoin (exConfig [("autorestart", "true")]%string)) = true.
Proof.
  split.
  - destruct (isAutoRestart_policy (NewProcess exJoin (exConfig [])))
      as (_ & _ & Hother & _).
    apply Hother; try discriminate; reflexivity.
  - destruct (isAutoRestart_policy
                (NewProcess exJoin (exConfig [("autorestart", "true")]%string)))
      as (_ & Htrue & _).
    apply Htrue. reflexivity.
Defined.


(** ** One call of [run] *)

Section RunFacts.

Variable parseCommand : string -> option (string * list string).

(** What [run] has done when it calls [finishCb]. *)
Lemma run_spawn_cases h p fs :
  let '(p1, fs1, spawned) := run_spawn parseCommand h (p, fs) in
  (config p1 = config p /\ pidfile p1 = pidfile p /\
   retryTimes p1 = retryTimes p /\ inStart p1 = inStart p /\
   stopByUser p1 = stopByUser p) /\
  (if spawned then
     exists pid c,
       spawn h = Some pid /\ cmd p1 = Some c /\
       exec.Process c = Some {| os.Pid := pid |} /\
       exec.ProcessState c = None /\
       startTime p1 = now_start h /\
       (state p1 = RUNNING /\
        (getStartSeconds p <= 0 \/ found_after_sleep h = true) \/
        state p1 = STARTING /\ 0 < getStartSeconds p /\
        found_after_sleep h = false) /\
       (write_ok h = true ->
        fs1 !! pidfile p
        = Some (Readable (strconv.Itoa pid +:+ ":"
                          +:+ strconv.Itoa (time.Time_Unix (now_start h)))))
   else
     (p1 = p \/
      (state p1 = state p /\ startTime p1 = startTime p /\
       stopTime p1 = stopTime p /\
       exists c, cmd p1 = Some c /\ exec.Process c = None /\
                 exec.ProcessState c = None) \/
      (state p1 = FATAL /\ spawn h = None /\ startTime p1 = now_start h /\
       stopTime p1 = now_stop h /\
       exists c, cmd p1 = Some c /\ exec.Process c = None /\
                 exec.ProcessState c = None))).
Proof.
  unfold run_spawn.
  destruct (parseCommand _) as [[arg0 rest]|]; [|repeat split; auto].
  destruct (stillRunning p); [repeat split; auto|].
  set (c1 := if (1 <? length ((arg0 :: rest) ++ Arguments (config p)))%nat
             then exec.set_Args ((arg0 :: rest) ++ Arguments (config p))
                    (exec.Command arg0)
             else exec.Command arg0).
  assert (Hc1 : exec.Process c1 = None /\ exec.ProcessState c1 = None)
    by (subst c1; destruct (1 <? _)%nat; split; reflexivity).
  destruct Hc1 as [Hc1p Hc1s].
  assert (Hc2 : exec.Process (setDir (set_cmd (Some c1) p) c1) = None /\
                exec.ProcessState (setDir (set_cmd (Some c1) p) c1) = None)
    by (unfold setDir; destruct (String.eqb _ _); split; assumption).
  destruct Hc2 as [Hc2p Hc2s].
  cbv zeta.
  destruct (setUser h _).
  { split; [repeat split|]. right. left.
    repeat split. exists c1. auto. }
  destruct (spawn h) as [pid|].
  - split.
    + destruct (GetInt _ "startsecs" 1 <=? 0); [repeat split|].
      destruct (found_after_sleep h); repeat split.
    + exists pid, (exec.set_Process (Some {| os.Pid := pid |})
                     (setDir (set_cmd (Some c1) p) c1)).
      split; [reflexivity|].
      change (GetInt (config (set_cmd _ (changeStateTo STARTING _))) "startsecs" 1)
        with (getStartSeconds p).
      assert (Hwrite : forall q line,
                pidfile q = pidfile p -> write_ok h = true ->
                ioutil.WriteFile (write_ok h) fs (pidfile q) line !! pidfile p
                = Some (Readable line)).
      { intros q line Hq Hw. unfold ioutil.WriteFile. rewrite Hw, Hq.
        apply lookup_insert_eq. }
      destruct (getStartSeconds p <=? 0) eqn:Hsecs.
      * apply Z.leb_le in Hsecs.
        repeat split; auto.
      * apply Z.leb_gt in Hsecs.
        destruct (found_after_sleep h) eqn:Hfound; repeat split; auto.
  - split; [repeat split|]. right. right.
    repeat split. eexists. repeat split; eassumption.
Qed.

Lemma run_unfold h p fs :
  run parseCommand h (p, fs)
  = (if snd (run_spawn parseCommand h (p, fs))
     then run_wait h (fst (fst (run_spawn parseCommand h (p, fs))))
     else fst (fst (run_spawn parseCommand h (p, fs))),
     snd (fst (run_spawn parseCommand h (p, fs)))).
Proof.
  unfold run. destruct (run_spawn parseCommand h (p, fs)) as [[p1 fs1] [|]];
    reflexivity.
Qed.

(** What the second half of [run] does to the Process. *)
Lemma run_wait_cases h p :
  let p2 := run_wait h p in
  (config p2 = config p /\ pidfile p2 = pidfile p /\
   retryTimes p2 = retryTimes p /\ inStart p2 = inStart p /\
   stopByUser p2 = stopByUser p) /\
  startTime p2 = startTime p /\ stopTime p2 = now_stop h /\
  cmd p2 = exec.set_ProcessState (wait_state h) <$> cmd p /\
  (state p2 = BACKOFF /\ shortRun p2 = true \/
   state p2 = EXITED /\ shortRun p2 = false).
Proof.
  unfold run_wait. cbv zeta.
  match goal with
  | |- context [if ?b then _ else _] => destruct b eqn:Hshort
  end.
  - repeat split. left. split; [reflexivity|exact Hshort].
  - repeat split. right. split; [reflexivity|exact Hshort].
Qed.

(** A run that spawned a child ends BACKOFF when it was short and EXITED
    otherwise. *)
Lemma run_classifies h p fs :
  snd (run_spawn parseCommand h (p, fs)) = true ->
  let p2 := fst (run parseCommand h (p, fs)) in
  state p2 = BACKOFF /\ shortRun p2 = true \/
  state p2 = EXITED /\ shortRun p2 = false.
Proof.
  intros Hspawned p2. subst p2. rewrite run_unfold, Hspawned. cbn [fst].
  now destruct (run_wait_cases h (fst (fst (run_spawn parseCommand h (p, fs)))))
    as (_ & _ & _ & _ & Hclass).
Qed.

(** X6. When [run] calls [finishCb] with a child spawned, [GetPid] is the
    pid of the child, the state is STARTING exactly when [startsecs] is
    positive and the child was not found after the sleep, and RUNNING
    otherwise, the start time is the time taken before the spawn, and
    the pidfile holds [pid:epoch] if it could be written. When no child
    was spawned, the state is as it was, or FATAL after a failed spawn. *)
Theorem run_at_finishCb (h : RunHost) (p : Process) (fs : gmap string FileNode) :
  let '(p1, fs1, spawned) := run_spawn parseCommand h (p, fs) in
  if spawned then
    exists pid,
      spawn h = Some pid /\ GetPid p1 = Ok pid /\
      (state p1 = STARTING <->
       0 < getStartSeconds p /\ found_after_sleep h = false) /\
      (state p1 = RUNNING <->
       getStartSeconds p <= 0 \/ found_after_sleep h = true) /\
      GetStartTime p1 = now_start h /\
      (write_ok h = true ->
       fs1 !! pidfile p1
       = Some (Readable (strconv.Itoa pid +:+ ":"
                         +:+ strconv.Itoa (time.Time_Unix (now_start h)))))
  else
    state p1 = state p \/ state p1 = FATAL /\ spawn h = None.
Proof.
  pose proof (run_spawn_cases h p fs) as H.
  destruct (run_spawn parseCommand h (p, fs)) as [[p1 fs1] [|]].
  - destruct H as ((_ & Hpid & _) & pid & c & Hsp & Hc & Hproc & _ & Hst & Hstate & Hfs).
    exists pid. split; [exact Hsp|].
    split.
    { unfold GetPid. rewrite Hc, Hproc.
      destruct Hstate as [[-> _]|[-> _]]; reflexivity. }
    split; [|split; [|split; [exact Hst|now rewrite Hpid]]].
    + destruct Hstate as [[-> Hwhy]|[-> Hwhy]]; split; try discriminate; auto.
      intros [Hpos Hnot]. destruct Hwhy as [Hle|Hfound]; [lia|congruence].
    + destruct Hstate as [[-> Hwhy]|[-> Hwhy]]; split; try discriminate; auto.
      intros [Hle|Hfound]; [lia|]. destruct Hwhy as [_ Hnot]. congruence.
  - destruct H as (_ & [->|[(Hs & _)|(Hs & Hsp & _)]]); auto.
Qed.

(** X7. After a [run] that spawned a child and waited for it, the state
    is BACKOFF when the whole seconds between start and stop are fewer
    than [startsecs] and EXITED otherwise; [GetPid] is 0, the stop time is
    the time taken after the wait, and [GetExitstatus] is the exit status
    that [Wait] recorded, so the code [k] of a child that exited with
    code [k]. *)
Theorem run_exit_classification
  (h : RunHost) (p : Process) (fs : gmap string FileNode) :
  snd (run_spawn parseCommand h (p, fs)) = true ->
  let p2 := fst (run parseCommand h (p, fs)) in
  (state p2 = BACKOFF /\ shortRun p2 = true \/
   state p2 = EXITED /\ shortRun p2 = false) /\
  GetPid p2 = Ok 0 /\
  GetStartTime p2 = now_start h /\ GetStopTime p2 = now_stop h /\
  GetExitstatus p2
  = Ok (match wait_state h with
        | Some ps => syscall.ExitStatus (os.Sys ps)
        | None => 0
        end).
Proof.
  intros Hspawned p2. subst p2. rewrite run_unfold.
  pose proof (run_spawn_cases h p fs) as H.
  destruct (run_spawn parseCommand h (p, fs)) as [[p1 fs1] spawned].
  cbn [fst snd] in *. subst spawned.
  destruct H as (_ & pid & c & _ & Hc & _ & _ & Hst & _).
  destruct (run_wait_cases h p1) as (_ & Hstart & Hstop & Hcmd & Hclass).
  split; [exact Hclass|].
  assert (Hidle : state (run_wait h p1) = BACKOFF \/ state (run_wait h p1) = EXITED)
    by (destruct Hclass as [[-> _]|[-> _]]; auto).
  split; [|split; [|split]].
  - unfold GetPid. destruct Hidle as [->| ->]; reflexivity.
  - unfold GetStartTime. now rewrite Hstart.
  - unfold GetStopTime. destruct Hidle as [->| ->]; exact Hstop.
  - unfold GetExitstatus. rewrite Hcmd, Hc. simpl.
    destruct Hidle as [->| ->]; simpl; destruct (wait_state h); reflexivity.
Qed.

(** [run] leaves the configuration, the path of the pidfile, the retry
    counter and the two flags as they are. *)
Lemma run_frame h p fs :
  let p2 := fst (run parseCommand h (p, fs)) in
  config p2 = config p /\ pidfile p2 = pidfile p /\
  retryTimes p2 = retryTimes p /\ inStart p2 = inStart p /\
  stopByUser p2 = stopByUser p.
Proof.
  rewrite run_unfold.
  pose proof (run_spawn_cases h p fs) as H.
  destruct (run_spawn parseCommand h (p, fs)) as [[p1 fs1] spawned].
  cbn [fst snd] in *.
  destruct H as ((Hc & Hf & Hr & Hi & Hs) & _).
  destruct spawned.
  - destruct (run_wait_cases h p1) as ((Hc' & Hf' & Hr' & Hi' & Hs') & _).
    rewrite Hc', Hf', Hr', Hi', Hs'. auto.
  - auto.
Qed.

(** One turn of the loop: what it keeps, and that it ends with the
    pidfile removed. *)
Lemma iteration_frame h p fs :
  let '(p3, fs3, brk) := iteration parseCommand h (p, fs) in
  config p3 = config p /\ pidfile p3 = pidfile p /\ inStart p3 = inStart p /\
  stopByUser p3 = (stopByUser p || user_stop h)%bool /\
  state p3 = state (fst (run parseCommand h (p, fs))) /\
  brk = loopBreaks p3 /\
  fs3 !! pidfile p = None.
Proof.
  unfold iteration.
  pose proof (run_frame h p fs) as H. cbv zeta in H.
  destruct (run parseCommand h (p, fs)) as [p2 fs2]. cbn [fst] in *.
  destruct H as (Hc & Hf & Hr & Hi & Hs).
  split; [destruct (user_stop h), (shortRun p2); exact Hc|].
  split; [destruct (user_stop h), (shortRun p2); exact Hf|].
  split; [destruct (user_stop h), (shortRun p2); exact Hi|].
  split.
  { destruct (user_stop h), (shortRun p2); simpl; rewrite ?Hs;
      rewrite ?orb_true_r, ?orb_false_r; reflexivity. }
  split; [destruct (user_stop h), (shortRun p2); reflexivity|].
  split; [reflexivity|].
  unfold os.Remove. rewrite Hf. apply lookup_delete_eq.
Qed.

(** X8. For a run that spawned a child, the retry counter and the state
    agree: after the turn either the state is BACKOFF and [retryTimes] is
    one more than before, or the state is EXITED and [retryTimes] is 0.
    So when the loop gives up on a child that exits too soon, the state is
    BACKOFF. *)
Theorem iteration_counts_backoff
  (h : RunHost) (p : Process) (fs : gmap string FileNode) :
  0 <= retryTimes p < GoInt.maxInt ->
  snd (run_spawn parseCommand h (p, fs)) = true ->
  let p3 := fst (fst (iteration parseCommand h (p, fs))) in
  state p3 = BACKOFF /\ retryTimes p3 = retryTimes p + 1 \/
  state p3 = EXITED /\ retryTimes p3 = 0.
Proof.
  intros Hr Hspawned p3. subst p3.
  pose proof (run_classifies h p fs Hspawned) as Hclass. cbv zeta in Hclass.
  pose proof (iteration_frame h p fs) as Hframe.
  destruct (iteration parseCommand h (p, fs)) as [[p3 fs3] brk] eqn:Hit.
  destruct (iteration_step parseCommand h p fs p3 fs3 brk Hr Hit) as (Hcount & _).
  destruct Hframe as (_ & _ & _ & _ & Hstate & _). cbn [fst].
  rewrite Hstate, Hcount.
  destruct Hclass as [[-> ->]|[-> ->]]; auto.
Qed.

(** What every turn of the loop keeps, and that it ends with the
    pidfile removed. *)
Lemma restartLoop_frame (hs : list RunHost) :
  forall (p : Process) (fs : gmap string FileNode) s,
    s ∈ fst (restartLoop parseCommand hs (p, fs)) ->
    snd s !! pidfile p = None /\
    config (fst s) = config p /\ pidfile (fst s) = pidfile p /\
    inStart (fst s) = inStart p.
Proof.
  induction hs as [|h hs IH]; intros p fs s Hin; simpl in Hin.
  - apply elem_of_nil in Hin. destruct Hin.
  - pose proof (iteration_frame h p fs) as Hframe.
    destruct (iteration parseCommand h (p, fs)) as [[p3 fs3] brk].
    destruct Hframe as (Hc & Hf & Hi & _ & _ & _ & Hgone).
    assert (Hhere : snd (p3, fs3) !! pidfile p = None /\
      config (fst (p3, fs3)) = config p /\ pidfile (fst (p3, fs3)) = pidfile p /\
      inStart (fst (p3, fs3)) = inStart p) by (simpl; auto).
    destruct brk.
    + simpl in Hin. apply list_elem_of_singleton in Hin. now subst s.
    + destruct (restartLoop parseCommand hs (p3, fs3)) as [trace broke] eqn:Hrest.
      simpl in Hin. apply elem_of_cons in Hin as [->|Hin]; [exact Hhere|].
      specialize (IH p3 fs3 s). rewrite Hrest in IH.
      destruct (IH Hin) as (Hg & Hc' & Hf' & Hi').
      rewrite Hf in Hg. split; [exact Hg|].
      rewrite Hc', Hf', Hi'. auto.
Qed.

(** X9. At the end of every turn of the restart loop that [Start]
    launches, the pidfile has been removed, and the configuration, the
    path of the pidfile and [inStart] are as they were when the loop
    began. *)
Theorem restart_loop_leaves_no_pidfile
  (hs : list RunHost) (p : Process) (fs : gmap string FileNode)
  (s : Process * gmap string FileNode) :
  s ∈ fst (startLoop parseCommand hs (p, fs)) ->
  snd s !! pidfile p = None /\
  config (fst s) = config p /\ pidfile (fst s) = pidfile p /\
  inStart (fst s) = inStart p.
Proof.
  unfold startLoop. cbn [fst snd]. intros Hin.
  destruct (restartLoop_frame hs (set_retryTimes 0 p) fs s Hin)
    as (Hgone & Hc & Hf & Hi).
  repeat split; assumption.
Qed.

Lemma restartLoop_retry_inv (hs : list RunHost) :
  forall (p : Process) (fs : gmap string FileNode) s,
    0 <= retryTimes p < Z.max 1 (getStartRetries p) ->
    s ∈ fst (restartLoop parseCommand hs (p, fs)) ->
    0 <= retryTimes (fst s) <= Z.max 1 (getStartRetries p).
Proof.
  induction hs as [|h hs IH]; intros p fs s Hr Hin; simpl in Hin.
  - apply elem_of_nil in Hin. destruct Hin.
  - pose proof (getStartRetries_inRange p) as Hmax.
    unfold GoInt.inRange, GoInt.minInt in Hmax.
    assert (Hr' : 0 <= retryTimes p < GoInt.maxInt)
      by (unfold GoInt.maxInt in *; lia).
    pose proof (iteration_frame h p fs) as Hframe.
    destruct (iteration parseCommand h (p, fs)) as [[p3 fs3] brk] eqn:Hit.
    destruct (iteration_step parseCommand h p fs p3 fs3 brk Hr' Hit)
      as (Hcount & Hbrk & Hpos & _).
    destruct Hframe as (Hc & _).
    assert (Hsame : getStartRetries p3 = getStartRetries p)
      by (unfold getStartRetries; now rewrite Hc).
    assert (Hhere : 0 <= retryTimes p3 <= Z.max 1 (getStartRetries p))
      by (rewrite Hcount; destruct (shortRun _); lia).
    destruct brk.
    + simpl in Hin. apply list_elem_of_singleton in Hin. now subst s.
    + destruct (restartLoop parseCommand hs (p3, fs3)) as [trace broke] eqn:Hrest.
      simpl in Hin. apply elem_of_cons in Hin as [->|Hin]; [exact Hhere|].
      rewrite <- Hsame. apply (IH p3 fs3 s); [|now rewrite Hrest].
      assert (Hnot : ~ getStartRetries p3 <= retryTimes p3).
      { intros Hle.
        assert (loopBreaks p3 = true) by (apply loopBreaks_iff; auto).
        congruence. }
      lia.
Qed.

Lemma rev_case {A} (l : list A) : l = [] \/ exists l' x, l = l' ++ [x].
Proof.
  induction l as [|x l _] using rev_ind; [now left|right; eauto].
Qed.

(** X10. In the goroutine of [Start], [retryTimes] stays between 0 and
    [startretries] (or 1, if [startretries] is smaller); so a program
    whose every run is short is run at most [startretries] times (once,
    if [startretries] is smaller than 1) before the loop is left. *)
Theorem restart_loop_retry_bound
  (hs : list RunHost) (st : Process * gmap string FileNode) :
  let trace := fst (startLoop parseCommand hs st) in
  (forall s, s ∈ trace ->
             0 <= retryTimes (fst s) <= Z.max 1 (getStartRetries (fst st))) /\
  ((forall i s, trace !! i = Some s -> retryTimes (fst s) = Z.of_nat (S i)) ->
   Z.of_nat (length trace) <= Z.max 1 (getStartRetries (fst st))).
Proof.
  intros trace.
  assert (Hbound : forall s, s ∈ trace ->
    0 <= retryTimes (fst s) <= Z.max 1 (getStartRetries (fst st))).
  { intros s Hin. destruct st as [p fs]. unfold trace, startLoop in Hin.
    apply (restartLoop_retry_inv hs (set_retryTimes 0 p) fs s); [|exact Hin].
    simpl. lia. }
  split; [exact Hbound|].
  intros Hshort.
  destruct (rev_case trace) as [-> | (tr & s0 & Htrace)]; [simpl; lia|].
  rewrite Htrace in *.
  assert (Hlast : (tr ++ [s0]) !! length tr = Some s0).
  { rewrite lookup_app_r by lia. now rewrite Nat.sub_diag. }
  pose proof (Hshort _ _ Hlast) as Hval.
  assert (Hin : s0 ∈ tr ++ [s0]) by (apply elem_of_app; right; constructor).
  specialize (Hbound s0 Hin). rewrite length_app. simpl. lia.
Qed.

(** X11. A [Stop] during a turn, or [stopByUser] already set, ends the
    restart loop at the end of that turn, whatever [autorestart] and the
    retry counter say. *)
Theorem Stop_ends_loop_in_one_turn
  (h : RunHost) (hs : list RunHost) (p : Process) (fs : gmap string FileNode) :
  user_stop h = true \/ stopByUser p = true ->
  exists s,
    restartLoop parseCommand (h :: hs) (p, fs) = ([s], true) /\
    stopByUser (fst s) = true.
Proof.
  intros Hstop. simpl.
  pose proof (iteration_frame h p fs) as Hframe.
  destruct (iteration parseCommand h (p, fs)) as [[p3 fs3] brk].
  destruct Hframe as (_ & _ & _ & Hs & _ & Hbrk & _).
  assert (Hset : stopByUser p3 = true).
  { rewrite Hs. destruct Hstop as [-> | ->]; [apply orb_true_r|reflexivity]. }
  assert (brk = true) as ->.
  { rewrite Hbrk. apply loopBreaks_iff. auto. }
  exists (p3, fs3). split; [reflexivity|exact Hset].
Qed.

Lemma restartLoop_last (hs : list RunHost) : forall st trace,
  restartLoop parseCommand hs st = (trace, true) ->
  exists s, last trace = Some s /\ s ∈ trace /\ loopBreaks (fst s) = true.
Proof.
  induction hs as [|h hs IH]; intros [p fs] trace Hloop; simpl in Hloop;
    [discriminate|].
  pose proof (iteration_frame h p fs) as Hframe.
  destruct (iteration parseCommand h (p, fs)) as [[p3 fs3] brk].
  destruct Hframe as (_ & _ & _ & _ & _ & Hbrk & _).
  destruct brk.
  - inversion Hloop; subst. exists (p3, fs3).
    split; [reflexivity|]. split; [constructor|]. symmetry. exact Hbrk.
  - destruct (restartLoop parseCommand hs (p3, fs3)) as [tr br] eqn:Hrest.
    inversion Hloop; subst.
    destruct (IH _ _ Hrest) as (s & Hlast & Hin & Hb).
    exists s. split; [|split; [now constructor|exact Hb]].
    destruct tr; [discriminate Hlast|exact Hlast].
Qed.

(** X12. [Start] on a Process that is already [inStart] does nothing.
    Otherwise, when its restart loop has ended, [inStart] is false again,
    the pidfile has been removed, the configuration is unchanged, and
    one of the three exit tests holds: [stopByUser] is set, or
    [isAutoRestart] is false, or [retryTimes] has reached
    [startretries]. *)
Theorem Start_finished
  (wait : bool) (hs : list RunHost) (p : Process) (fs : gmap string FileNode) :
  (inStart p = true -> Start parseCommand wait hs (p, fs) = Some (p, fs)) /\
  (forall p2 fs2,
     inStart p = false ->
     Start parseCommand wait hs (p, fs) = Some (p2, fs2) ->
     inStart p2 = false /\ fs2 !! pidfile p = None /\
     config p2 = config p /\ pidfile p2 = pidfile p /\
     (stopByUser p2 = true \/ isAutoRestart p2 = false \/
      getStartRetries p2 <= retryTimes p2)).
Proof.
  split.
  - intros Hin. unfold Start. now rewrite Hin.
  - intros p2 fs2 Hin Hstart. unfold Start, startLoop in Hstart.
    rewrite Hin in Hstart. cbn [fst snd] in Hstart.
    destruct (restartLoop parseCommand hs _) as [trace [|]] eqn:Hloop;
      [|discriminate].
    destruct (restartLoop_last _ _ _ Hloop) as (s & Hlast & Hmem & Hbrk).
    rewrite Hlast in Hstart. destruct s as [p' fs']. inversion Hstart; subst.
    pose proof (restartLoop_frame hs
      (set_retryTimes 0 (set_stopByUser false (set_inStart true p))) fs
      (p', fs2)) as Hfiles.
    rewrite Hloop in Hfiles.
    destruct (Hfiles Hmem) as (Hgone & Hc & Hf & _).
    split; [reflexivity|]. split; [exact Hgone|].
    split; [exact Hc|]. split; [exact Hf|].
    apply loopBreaks_iff in Hbrk. exact Hbrk.
Qed.

End RunFacts.

(** ** Reading a pidfile *)

Lemma Index_append_none (a b : string) (sep : ascii) :
  strings.Index a sep = -1 -> strings.Index b sep = -1 ->
  strings.Index (a +:+ b) sep = -1.
Proof.
  induction a as [|c a IH]; intros Ha Hb; [exact Hb|].
  apply Index_none_head in Ha as [Hc Ha]. rewrite append_cons. simpl.
  now rewrite Hc, (IH Ha Hb).
Qed.

Lemma spaceBytes_Index (s : string) (sep : ascii) :
  spaceBytes s = true -> spaceByte sep = false -> strings.Index s sep = -1.
Proof.
  intros Hs Hsep. induction s as [|c s IH]; [reflexivity|].
  simpl in *. apply andb_true_iff in Hs as [Hc Hs].
  destruct (Ascii.eqb c sep) eqn:E.
  - apply Ascii.eqb_eq in E. congruence.
  - now rewrite (IH Hs).
Qed.

Lemma append_nonempty_r (a b : string) : b <> EmptyString -> a +:+ b <> EmptyString.
Proof. destruct a; [auto|discriminate]. Qed.

Lemma append_nonempty_l (a b : string) : a <> EmptyString -> a +:+ b <> EmptyString.
Proof. destruct a; [congruence|discriminate]. Qed.

(** The pid that [Attach] reads from a pidfile whose first field is a
    printed number between white space. *)
Lemma pidField (ws1 ws2 rest : string) (pid : Z) :
  GoInt.inRange pid -> spaceBytes ws1 = true -> spaceBytes ws2 = true ->
  (rest = EmptyString \/ exists r, rest = String ":" r) ->
  strconv.Atoi
    (strings.TrimSpace
       (nth 0 (strings.Split (ws1 +:+ strconv.Itoa pid +:+ ws2 +:+ rest) ":")
            EmptyString))
  = (pid, None).
Proof.
  intros Hpid Hws1 Hws2 Hrest.
  destruct (numberBytes_Itoa pid) as [Hnum Hne].
  assert (Hidx : strings.Index (ws1 +:+ strconv.Itoa pid +:+ ws2) ":" = -1).
  { apply Index_append_none; [now apply spaceBytes_Index|].
    apply Index_append_none; [now apply numberBytes_Index|].
    now apply spaceBytes_Index. }
  assert (Hfield :
    nth 0 (strings.Split (ws1 +:+ strconv.Itoa pid +:+ ws2 +:+ rest) ":")
        EmptyString
    = ws1 +:+ strconv.Itoa pid +:+ ws2).
  { replace (ws1 +:+ strconv.Itoa pid +:+ ws2 +:+ rest)
      with ((ws1 +:+ strconv.Itoa pid +:+ ws2) +:+ rest)
      by (now rewrite !append_assoc).
    destruct Hrest as [->|[r ->]].
    - rewrite append_empty_r, (Split_one _ _ Hidx). reflexivity.
    - rewrite (Split_first _ _ _ Hidx). reflexivity. }
  rewrite Hfield, (TrimSpace_number ws1 _ ws2 Hws1 Hws2 Hnum Hne).
  now apply Atoi_Itoa.
Qed.

Lemma Atoi_syntax_zero (s : string) (v : Z) :
  strconv.Atoi s = (v, Some strconv.ErrSyntax) -> v = 0.
Proof.
  unfold strconv.Atoi, strconv.ParseInt. destruct s as [|c rest]; [congruence|].
  cbv zeta.
  destruct (strconv.ParseUint _) as [un [[|]|]]; [congruence|..];
    destruct (negb (Ascii.eqb c "-") && (2 ^ 63 <=? un));
    try destruct (Ascii.eqb c "-" && (2 ^ 63 <? un)); congruence.
Qed.

(** [Attach] on a pidfile with something in it: the pid read is probed,
    and the outcome of the probe decides. *)
Lemma Attach_probe (h : Host) (p : Process) (info : string) (pid : Z) :
  files h !! pidfile p = Some (Readable info) -> info <> EmptyString ->
  fst (strconv.Atoi
         (strings.TrimSpace (nth 0 (strings.Split info ":") EmptyString))) = pid ->
  let '(p', fs', err) := Attach h p in
  (findLive h pid = None ->
   err = None /\ fs' = files h /\ state p' = RUNNING /\ GetPid p' = Ok pid /\
   inStart p' = true) /\
  (forall e, findLive h pid = Some e ->
             err = Some e /\ state p' = STOPPED /\ fs' !! pidfile p = None).
Proof.
  intros Hfile Hne <-.
  unfold Attach, ioutil.ReadFile. rewrite Hfile.
  apply String.eqb_neq in Hne. rewrite Hne. cbv zeta.
  destruct (findLive h _) as [e|].
  - split; [discriminate|]. intros e' [= <-].
    split; [reflexivity|]. split; [reflexivity|].
    unfold os.Remove. apply lookup_delete_eq.
  - split; [|discriminate]. intros _. repeat split.
Qed.

(** X13. [Attach] reads the pid from a pidfile whose first field is a
    printed number with white space before or after it, with or without
    a colon and more text behind: if that process is live the Process is
    RUNNING with that pid and the files are untouched, otherwise the
    error of the probe is returned, the state is STOPPED and the pidfile
    is gone. *)
Theorem Attach_padded_pid
  (h : Host) (p : Process) (ws1 ws2 rest : string) (pid : Z) :
  GoInt.inRange pid -> spaceBytes ws1 = true -> spaceBytes ws2 = true ->
  (rest = EmptyString \/ exists r, rest = String ":" r) ->
  files h !! pidfile p
  = Some (Readable (ws1 +:+ strconv.Itoa pid +:+ ws2 +:+ rest)) ->
  let '(p', fs', err) := Attach h p in
  (findLive h pid = None ->
   err = None /\ fs' = files h /\ state p' = RUNNING /\ GetPid p' = Ok pid /\
   inStart p' = true) /\
  (forall e, findLive h pid = Some e ->
             err = Some e /\ state p' = STOPPED /\ fs' !! pidfile p = None).
Proof.
  intros Hpid Hws1 Hws2 Hrest Hfile.
  pose proof (pidField ws1 ws2 rest pid Hpid Hws1 Hws2 Hrest) as Hfield.
  assert (Hne : ws1 +:+ strconv.Itoa pid +:+ ws2 +:+ rest <> EmptyString).
  { apply append_nonempty_r, append_nonempty_l, numberBytes_Itoa. }
  unfold Attach, ioutil.ReadFile. rewrite Hfile.
  apply String.eqb_neq in Hne. rewrite Hne. cbv zeta. rewrite Hfield.
  cbn [fst]. destruct (findLive h pid) as [e|].
  - split; [discriminate|]. intros e' [= <-].
    split; [reflexivity|]. split; [reflexivity|].
    unfold os.Remove. apply lookup_delete_eq.
  - split; [|discriminate]. intros _. repeat split.
Qed.

(** X14. What [run] writes, [Attach] reads back: a Process with the same
    pidfile, attached to the files as [run] left them when it called
    [finishCb], is RUNNING with the pid of the child, as long as the
    child is live. *)
Theorem Attach_after_run
  (parseCommand : string -> option (string * list string))
  (hr : RunHost) (p : Process) (fs : gmap string FileNode)
  (h : Host) (q : Process) (pid : Z) :
  spawn hr = Some pid -> GoInt.inRange pid -> write_ok hr = true ->
  snd (run_spawn parseCommand hr (p, fs)) = true ->
  files h = snd (fst (run_spawn parseCommand hr (p, fs))) ->
  pidfile q = pidfile p ->
  findLive h pid = None ->
  let '(q', fs', err) := Attach h q in
  err = None /\ fs' = files h /\ state q' = RUNNING /\ GetPid q' = Ok pid /\
  GetPid q' = GetPid (fst (fst (run_spawn parseCommand hr (p, fs)))).
Proof.
  intros Hsp Hrange Hw Hspawned Hfiles Hq Hlive.
  pose proof (run_spawn_cases parseCommand hr p fs) as H.
  destruct (run_spawn parseCommand hr (p, fs)) as [[p1 fs1] spawned].
  cbn [fst snd] in *. subst spawned.
  destruct H as ((_ & Hpf & _) & pid' & c & Hsp' & Hc & Hproc & _ & _ & Hstate & Hfs).
  assert (pid' = pid) as -> by congruence.
  assert (Hgp : GetPid p1 = Ok pid).
  { unfold GetPid. rewrite Hc, Hproc.
    destruct Hstate as [[-> _]|[-> _]]; reflexivity. }
  set (info := strconv.Itoa pid +:+ ":"
               +:+ strconv.Itoa (time.Time_Unix (now_start hr))) in *.
  assert (Hfile : files h !! pidfile q = Some (Readable info)).
  { rewrite Hfiles, Hq. now apply Hfs. }
  assert (Hne : info <> EmptyString)
    by (apply append_nonempty_l, numberBytes_Itoa).
  pose proof (pidField EmptyString EmptyString
                (String ":" (strconv.Itoa (time.Time_Unix (now_start hr)))) pid
                Hrange eq_refl eq_refl ltac:(right; eauto)) as Hfield.
  pose proof (Attach_probe h q info pid Hfile Hne
                (f_equal fst Hfield)) as Hatt.
  destruct (Attach h q) as [[q' fs'] err].
  destruct Hatt as [Hok _].
  destruct (Hok Hlive) as (Herr & Hfs' & Hst & Hgq & _).
  repeat split; try assumption. congruence.
Qed.

(** X15. [Attach] drops the error of [Atoi]: when the first field of the
    pidfile is no number, the pid it probes is 0, and if the host lets
    the probe of pid 0 pass, the Process is RUNNING with pid 0. *)
Theorem Attach_unparsable_pid (h : Host) (p : Process) (info : string) :
  files h !! pidfile p = Some (Readable info) -> info <> EmptyString ->
  snd (strconv.Atoi
         (strings.TrimSpace (nth 0 (strings.Split info ":") EmptyString)))
  = Some strconv.ErrSyntax ->
  let '(p', fs', err) := Attach h p in
  (findLive h 0 = None ->
   err = None /\ state p' = RUNNING /\ GetPid p' = Ok 0 /\ fs' = files h) /\
  (forall e, findLive h 0 = Some e ->
             err = Some e /\ state p' = STOPPED /\ fs' !! pidfile p = None).
Proof.
  intros Hfile Hne Hsyn.
  unfold Attach, ioutil.ReadFile. rewrite Hfile.
  apply String.eqb_neq in Hne. rewrite Hne. cbv zeta.
  destruct (strconv.Atoi _) as [v e] eqn:Hatoi. simpl in Hsyn. subst e.
  apply Atoi_syntax_zero in Hatoi. subst v. cbn [fst].
  destruct (findLive h 0) as [e|].
  - split; [discriminate|]. intros e' [= <-].
    split; [reflexivity|]. split; [reflexivity|].
    unfold os.Remove. apply lookup_delete_eq.
  - split; [|discriminate]. intros _. repeat split.
Qed.

(** X16. [Attach] never changes the configuration, the path of the
    pidfile, the retry counter, [stopByUser] or the stop time, and
    touches no file but the pidfile. When it fails, the command handle,
    the start time and [inStart] are as before. When it succeeds,
    [inStart] is set although no restart loop runs, so a later [Start]
    does nothing. *)
Theorem Attach_frame
  (parseCommand : string -> option (string * list string))
  (h : Host) (p : Process) :
  let '(p', fs', err) := Attach h p in
  (config p' = config p /\ pidfile p' = pidfile p /\
   retryTimes p' = retryTimes p /\ stopByUser p' = stopByUser p /\
   stopTime p' = stopTime p) /\
  (forall path, path <> pidfile p -> fs' !! path = files h !! path) /\
  (err <> None ->
   cmd p' = cmd p /\ startTime p' = startTime p /\ inStart p' = inStart p) /\
  (err = None ->
   Start_enter p' = (p', false) /\
   forall wait hs fs, Start parseCommand wait hs (p', fs) = Some (p', fs)).
Proof.
  unfold Attach.
  destruct (ioutil.ReadFile (files h) (pidfile p)) as [info|e].
  - destruct (String.eqb info EmptyString).
    + repeat split; try congruence.
    + cbv zeta. destruct (findLive h _) as [e|].
      * split; [repeat split|]. split.
        { intros path Hne. unfold os.Remove. now rewrite lookup_delete_ne. }
        split; [repeat split|discriminate].
      * split; [repeat split|]. split; [reflexivity|].
        split; [congruence|]. intros _. split; reflexivity.
  - repeat split; try congruence.
Qed.

(** ** Exit status and status text *)

Lemma ExitStatus_range (w : syscall.WaitStatus) :
  -1 <= syscall.ExitStatus w <= 255.
Proof.
  unfold syscall.ExitStatus. destruct (negb (syscall.Exited w)); [lia|].
  change 255 with (Z.ones 8) at 1 2. rewrite Z.land_ones by lia.
  pose proof (Z.mod_pos_bound (Z.shiftr w syscall.shift) (2 ^ 8) eq_refl) as H.
  change (2 ^ 8) with 256 in *. lia.
Qed.

Lemma ExitStatus_code (k : Z) :
  0 <= k <= 255 ->
  syscall.Exited (k * 256) = true /\ syscall.ExitStatus (k * 256) = k.
Proof.
  intros Hk.
  assert (Hex : syscall.Exited (k * 256) = true).
  { unfold syscall.Exited, syscall.mask, syscall.exited.
    change 127 with (Z.ones 7). rewrite Z.land_ones by lia.
    replace (k * 256) with (k * 2 * 2 ^ 7) by (change (2 ^ 7) with 128; lia).
    rewrite Z_mod_mult. reflexivity. }
  split; [exact Hex|].
  unfold syscall.ExitStatus. rewrite Hex. cbn [negb].
  unfold syscall.shift. rewrite Z.shiftr_div_pow2 by lia.
  change 255 with (Z.ones 8). rewrite Z.land_ones by lia.
  change (2 ^ 8) with 256.
  rewrite Z.div_mul by lia. apply Z.mod_small. lia.
Qed.

(** X17. [GetExitstatus] is 0 outside EXITED and BACKOFF and before a
    wait status is recorded; in those two states it panics when there is
    no command handle; otherwise it lies between -1 and 255, is the code
    [k] for a child that exited with code [k], and -1 for a child that
    was killed by a signal. *)
Theorem GetExitstatus_range (p : Process) :
  (forall n, GetExitstatus p = Ok n -> -1 <= n <= 255) /\
  (state p <> EXITED -> state p <> BACKOFF -> GetExitstatus p = Ok 0) /\
  (GetExitstatus p = Panic <->
   (state p = EXITED \/ state p = BACKOFF) /\ cmd p = None) /\
  (forall c w,
     state p = EXITED \/ state p = BACKOFF ->
     cmd p = Some c -> exec.ProcessState c = Some {| os.status := w |} ->
     (forall k, 0 <= k <= 255 -> w = k * 256 -> GetExitstatus p = Ok k) /\
     (syscall.Signaled w = true -> GetExitstatus p = Ok (-1))).
Proof.
  unfold GetExitstatus.
  split; [|split; [|split]].
  - intros n. destruct (_ || _); [|intros [= <-]; lia].
    destruct (cmd p) as [c|]; [|discriminate].
    destruct (exec.ProcessState c) as [ps|]; intros [= <-]; [|lia].
    apply ExitStatus_range.
  - intros H1 H2. rewrite !bool_decide_eq_false_2 by assumption. reflexivity.
  - split.
    + destruct (bool_decide (state p = EXITED)) eqn:E1;
        destruct (bool_decide (state p = BACKOFF)) eqn:E2; simpl;
        try discriminate;
        (destruct (cmd p) as [c|];
         [destruct (exec.ProcessState c); discriminate|]); intros _;
        (split; [|reflexivity]).
      * left. now apply bool_decide_eq_true in E1.
      * left. now apply bool_decide_eq_true in E1.
      * right. now apply bool_decide_eq_true in E2.
    + intros [[H|H] Hc]; rewrite H, Hc; reflexivity.
  - intros c w Hst Hc Hps.
    assert (Hin : bool_decide (state p = EXITED)
                  || bool_decide (state p = BACKOFF) = true)
      by (destruct Hst as [-> | ->]; reflexivity).
    rewrite Hin, Hc, Hps. cbn [os.Sys os.status]. split.
    + intros k Hk ->. f_equal. now apply ExitStatus_code.
    + intros Hsig. f_equal. now apply Signaled_ExitStatus.
Qed.

(** X18. [GetStatus] can be called only once a wait status is recorded:
    on a new Process, on an attached one and on one whose child is still
    running it reads through a nil pointer. After [run] has waited for
    the child it is the description of the wait status if the child
    exited, and "running" if it did not (killed by a signal included). *)
Theorem GetStatus_needs_wait_status
  (filepath_Join : string -> string -> string)
  (parseCommand : string -> option (string * list string))
  (describe : os.ProcessState -> string) :
  (forall cfg, GetStatus describe (NewProcess filepath_Join cfg) = Panic) /\
  (forall h p, snd (Attach h p) = None ->
               GetStatus describe (fst (fst (Attach h p))) = Panic) /\
  (forall h p fs,
     snd (run_spawn parseCommand h (p, fs)) = true ->
     GetStatus describe (fst (fst (run_spawn parseCommand h (p, fs)))) = Panic /\
     GetStatus describe (fst (run parseCommand h (p, fs)))
     = match wait_state h with
       | None => Panic
       | Some ps =>
           Ok (if syscall.Exited (os.Sys ps) then describe ps
               else "running"%string)
       end).
Proof.
  split; [reflexivity|]. split.
  - intros h p. unfold Attach.
    destruct (ioutil.ReadFile _ _) as [info|e]; [|discriminate].
    destruct (String.eqb info EmptyString); [discriminate|]. cbv zeta.
    destruct (findLive h _); [discriminate|reflexivity].
  - intros h p fs Hspawned. rewrite run_unfold.
    pose proof (run_spawn_cases parseCommand h p fs) as H.
    destruct (run_spawn parseCommand h (p, fs)) as [[p1 fs1] spawned].
    cbn [fst snd] in *. subst spawned.
    destruct H as (_ & pid & c & _ & Hc & _ & Hps & _).
    destruct (run_wait_cases h p1) as (_ & _ & _ & Hcmd & _).
    unfold GetStatus. rewrite Hcmd, Hc, Hps. simpl.
    split; [reflexivity|]. destruct (wait_state h) as [ps|]; [|reflexivity].
    simpl. destruct (syscall.Exited _); reflexivity.
Qed.

(** ** The states the code enters *)

Section States.

Variable parseCommand : string -> option (string * list string).

Lemma run_states h p fs :
  let s := state (fst (run parseCommand h (p, fs))) in
  s = BACKOFF \/ s = EXITED \/ s = FATAL \/ s = state p.
Proof.
  rewrite run_unfold.
  pose proof (run_spawn_cases parseCommand h p fs) as H.
  destruct (run_spawn parseCommand h (p, fs)) as [[p1 fs1] spawned].
  cbn [fst snd] in *. destruct spawned.
  - destruct (run_wait_cases h p1) as (_ & _ & _ & _ & [[-> _]|[-> _]]); auto.
  - destruct H as (_ & [->|[(-> & _)|(-> & _)]]); auto.
Qed.

Lemma restartLoop_states (hs : list RunHost) :
  forall (p : Process) (fs : gmap string FileNode) s,
    s ∈ fst (restartLoop parseCommand hs (p, fs)) ->
    state (fst s) = BACKOFF \/ state (fst s) = EXITED \/
    state (fst s) = FATAL \/ state (fst s) = state p.
Proof.
  induction hs as [|h hs IH]; intros p fs s Hin; simpl in Hin.
  - apply elem_of_nil in Hin. destruct Hin.
  - pose proof (iteration_frame parseCommand h p fs) as Hframe.
    pose proof (run_states h p fs) as Hrun.
    destruct (iteration parseCommand h (p, fs)) as [[p3 fs3] brk].
    destruct Hframe as (_ & _ & _ & _ & Hst & _). cbv zeta in Hrun.
    rewrite <- Hst in Hrun.
    destruct brk.
    + simpl in Hin. apply list_elem_of_singleton in Hin. now subst s.
    + destruct (restartLoop parseCommand hs (p3, fs3)) as [trace broke] eqn:Hrest.
      simpl in Hin. apply elem_of_cons in Hin as [->|Hin]; [exact Hrun|].
      specialize (IH p3 fs3 s). rewrite Hrest in IH.
      destruct (IH Hin) as [H|[H|[H|H]]]; auto. rewrite H. exact Hrun.
Qed.

(** X19. The state STOPPING is never entered: a Process that is not
    STOPPING is not STOPPING after [Attach], at the end of any turn of
    the restart loop, or after [Stop]; and at the end of a turn the
    state is BACKOFF, EXITED, FATAL or what it was when the loop began. *)
Theorem STOPPING_never_entered (p : Process) :
  state p <> STOPPING ->
  (forall h, state (fst (fst (Attach h p))) <> STOPPING) /\
  (forall hs fs s,
     s ∈ fst (restartLoop parseCommand hs (p, fs)) ->
     In (state (fst s)) [BACKOFF; EXITED; FATAL; state p] /\
     state (fst s) <> STOPPING) /\
  (forall ToSignal wait fuel h fs,
     state (stop_proc (Stop ToSignal wait fuel h (p, fs))) = state p).
Proof.
  intros Hp. split; [|split].
  - intros h. unfold Attach.
    destruct (ioutil.ReadFile _ _) as [info|e]; [|discriminate].
    destruct (String.eqb info EmptyString); [exact Hp|]. cbv zeta.
    destruct (findLive h _); discriminate.
  - intros hs fs s Hin.
    destruct (restartLoop_states hs p fs s Hin) as [H|[H|[H|H]]];
      rewrite H; simpl; split; auto; discriminate.
  - reflexivity.
Qed.

End States.

(** ** Stop: the watchdog and the polling loop *)

Lemma waitPoll_iff (fuel : nat) : forall k h,
  waitPoll fuel k h = true <->
  exists j, (k <= j < k + fuel)%nat /\ stillLive (poll_state h j) = false.
Proof.
  induction fuel as [|fuel IH]; intros k h; simpl.
  - split; [discriminate|]. intros (j & Hj & _). lia.
  - destruct (stillLive (poll_state h k)) eqn:E; simpl.
    + rewrite IH. split; intros (j & Hj & Hs).
      * exists j. split; [lia|exact Hs].
      * exists j. split; [|exact Hs].
        destruct (decide (j = k)) as [->|]; [congruence|lia].
    + split; [|reflexivity]. intros _. exists k. split; [lia|exact E].
Qed.

(** X20. [Stop(true)] returns exactly when some poll of the state finds
    it outside STARTING, RUNNING and STOPPING; the signals it sent play
    no part. [Stop(false)] returns at once. *)
Theorem Stop_wait_returns_iff
  (ToSignal : string -> syscall.Signal + string)
  (fuel : nat) (h : StopHost) (st : Process * gmap string FileNode) :
  (returned (Stop ToSignal true fuel h st) = true <->
   exists k, (k < fuel)%nat /\
             poll_state h k <> STARTING /\ poll_state h k <> RUNNING /\
             poll_state h k <> STOPPING) /\
  returned (Stop ToSignal false fuel h st) = true.
Proof.
  destruct st as [p fs]. split; [|reflexivity].
  change (returned (Stop ToSignal true fuel h (p, fs))) with (waitPoll fuel 0 h).
  rewrite waitPoll_iff. split.
  - intros (j & Hj & Hs). exists j. split; [lia|].
    destruct (poll_state h j); try discriminate Hs; repeat split; discriminate.
  - intros (k & Hk & H1 & H2 & H3). exists k. split; [lia|].
    destruct (poll_state h k); try reflexivity; congruence.
Qed.

Lemma watchdog_skip (k : nat) : forall fuel k0 endTime h,
  (forall j, (k0 <= j < k0 + k)%nat ->
             stillLive (state (watch_proc h j)) = true /\
             time.Before endTime (watch_clock h j) = false) ->
  watchdog (k + fuel) k0 endTime h = watchdog fuel (k0 + k) endTime h.
Proof.
  induction k as [|k IH]; intros fuel k0 endTime h Hwait.
  - now rewrite Nat.add_0_r.
  - simpl. destruct (Hwait k0 ltac:(lia)) as [-> ->]. simpl.
    rewrite IH; [f_equal; lia|]. intros j Hj. apply Hwait. lia.
Qed.

(** X21. The watchdog of [Stop] sends SIGKILL at its first turn later
    than [stopwaitsecs] seconds after [Stop] was called, to the child the
    Process has then, if it is still STARTING, RUNNING or STOPPING; it
    sends nothing if the Process has left these states by that turn.
    Here [stopwaitsecs] lies between 0 and 9223372036, so that the
    product with [time.Second] does not wrap. *)
Theorem Stop_kills_after_stopwaitsecs
  (ToSignal : string -> syscall.Signal + string) (wait : bool) (fuel : nat) (h : StopHost)
  (p : Process) (fs : gmap string FileNode) (k : nat) :
  let w := GetInt (config p) "stopwaitsecs" 10 in
  0 <= w <= 9223372036 ->
  (k < fuel)%nat ->
  (forall j, (j < k)%nat ->
             stillLive (state (watch_proc h j)) = true /\
             watch_clock h j <= stop_now h + w * 1000000000) ->
  (stillLive (state (watch_proc h k)) = false ->
   forced (Stop ToSignal wait fuel h (p, fs)) = Some []) /\
  (stillLive (state (watch_proc h k)) = true ->
   stop_now h + w * 1000000000 < watch_clock h k ->
   forced (Stop ToSignal wait fuel h (p, fs))
   = Some (sendSignal (watch_proc h k) syscall.SIGKILL)).
Proof.
  intros w Hw Hk Hbefore.
  set (endTime := time.Add (stop_now h) (GoInt.mul w time.Second)).
  assert (Hend : endTime = stop_now h + w * 1000000000).
  { unfold endTime, time.Add, GoInt.mul, time.Second.
    rewrite wrap_id; [reflexivity|].
    unfold GoInt.inRange, GoInt.minInt, GoInt.maxInt. lia. }
  change (forced (Stop ToSignal wait fuel h (p, fs))) with (watchdog fuel 0 endTime h).
  replace fuel with (k + S (fuel - S k))%nat by lia.
  rewrite watchdog_skip.
  2:{ intros j Hj. destruct (Hbefore j ltac:(lia)) as [Hl Hc].
      split; [exact Hl|]. unfold time.Before. apply Z.ltb_ge. lia. }
  simpl. split.
  - intros ->. reflexivity.
  - intros -> Hlate. simpl.
    unfold time.Before. rewrite (proj2 (Z.ltb_lt _ _)) by lia. reflexivity.
Qed.

(** ** The manager *)

Lemma forEach_Panic_iff (f : option nat -> result (list ProcCall)) (all : list (option nat)) :
  forEach f all = Panic <-> exists x, x ∈ all /\ f x = Panic.
Proof.
  induction all as [|x all IH]; simpl.
  - split; [discriminate|]. intros (x & Hx & _). apply elem_of_nil in Hx. destruct Hx.
  - destruct (f x) as [made|] eqn:Hfx.
    + destruct (forEach f all) as [more|].
      * split; [discriminate|]. intros (y & Hy & Hfy).
        apply elem_of_cons in Hy as [->|Hy]; [congruence|].
        assert (Panic = Panic :> result (list ProcCall)) as _ by reflexivity.
        destruct IH as [_ IH]. discriminate IH. eauto.
      * split; [|reflexivity]. intros _.
        destruct IH as [IH _]. destruct (IH eq_refl) as (y & Hy & Hfy).
        exists y. split; [now constructor|exact Hfy].
    + split; [|reflexivity]. intros _. exists x. split; [constructor|exact Hfx].
Qed.

Lemma forEach_Ok (f : option nat -> result (list ProcCall)) (all : list (option nat)) :
  forall calls, forEach f all = Ok calls ->
  forall c, c ∈ calls <-> exists x made, x ∈ all /\ f x = Ok made /\ c ∈ made.
Proof.
  induction all as [|x all IH]; simpl; intros calls Hcalls c.
  - inversion Hcalls; subst. split.
    + intros Hc. apply elem_of_nil in Hc. destruct Hc.
    + intros (x & made & Hx & _). apply elem_of_nil in Hx. destruct Hx.
  - destruct (f x) as [made|] eqn:Hfx; [|discriminate].
    destruct (forEach f all) as [more|]; [|discriminate].
    inversion Hcalls; subst. rewrite elem_of_app, (IH more eq_refl c). split.
    + intros [Hc|(y & made' & Hy & Hfy & Hc)].
      * exists x, made. split; [constructor|auto].
      * exists y, made'. split; [now constructor|auto].
    + intros (y & made' & Hy & Hfy & Hc).
      apply elem_of_cons in Hy as [->|Hy].
      * left. congruence.
      * right. eauto.
Qed.

Lemma forEach_length (f : option nat -> result (list ProcCall)) (all : list (option nat)) :
  (forall x made, f x = Ok made -> length made = 1%nat) ->
  forall calls, forEach f all = Ok calls -> length calls = length all.
Proof.
  intros Hone. induction all as [|x all IH]; simpl; intros calls Hcalls.
  - now inversion Hcalls.
  - destruct (f x) as [made|] eqn:Hfx; [|discriminate].
    destruct (forEach f all) as [more|]; [|discriminate].
    inversion Hcalls; subst. rewrite length_app, (Hone x made Hfx), (IH more eq_refl).
    reflexivity.
Qed.

Lemma elem_of_getAllProcess (pm : ProcessManager) (proc : option nat) :
  proc ∈ getAllProcess pm <-> exists name, procs pm !! name = Some proc.
Proof.
  unfold getAllProcess. rewrite list_elem_of_fmap. split.
  - intros ([name proc'] & -> & Hin). exists name.
    now apply elem_of_map_to_list in Hin.
  - intros (name & Hname). exists (name, proc). split; [reflexivity|].
    now apply elem_of_map_to_list.
Qed.

(** X22. [StopAllProcesses] calls [Stop(true)] on every registered
    Process, once for every name, and on nothing else; it panics exactly
    when some name is registered with a nil pointer, as [Add] allows. *)
Theorem StopAllProcesses_calls (pm : ProcessManager) :
  (StopAllProcesses pm = Panic <-> exists name, procs pm !! name = Some None) /\
  (forall calls,
     StopAllProcesses pm = Ok calls ->
     length calls = size (procs pm) /\
     forall c, c ∈ calls <->
               exists name l, procs pm !! name = Some (Some l) /\
                              c = Do_Stop l true).
Proof.
  unfold StopAllProcesses, ForEachProcess. split.
  - rewrite forEach_Panic_iff. split.
    + intros ([l|] & Hin & Hf); [discriminate|].
      now apply elem_of_getAllProcess in Hin.
    + intros (name & Hname). exists None. split; [|reflexivity].
      apply elem_of_getAllProcess. eauto.
  - intros calls Hcalls. split.
    + assert (Hone : forall x made,
                match x with
                | Some l => Ok [Do_Stop l true]
                | None => Panic
                end = Ok made -> length made = 1%nat)
        by (intros [l|] made Hf; inversion Hf; reflexivity).
      rewrite (forEach_length _ _ Hone calls Hcalls).
      unfold getAllProcess. rewrite length_fmap. apply length_map_to_list.
    + intros c. rewrite (forEach_Ok _ _ calls Hcalls c). split.
      * intros ([l|] & made & Hin & Hf & Hc); simpl in Hf; [|discriminate].
        inversion Hf; subst made. apply list_elem_of_singleton in Hc.
        apply elem_of_getAllProcess in Hin as (name & Hname). eauto.
      * intros (name & l & Hname & ->). exists (Some l), [Do_Stop l true].
        split; [apply elem_of_getAllProcess; eauto|].
        split; [reflexivity|constructor].
Qed.

(** X23. When every name of the manager leads to a Process,
    [StartAutoStartPrograms] does not panic and calls [Start(false)] on
    exactly the Processes whose [autostart] option is absent or the
    string [true]. *)
Theorem StartAutoStartPrograms_calls
  (pm : ProcessManager) (heap : gmap nat Process) :
  namesAgree pm heap ->
  exists calls,
    StartAutoStartPrograms pm heap = Ok calls /\
    forall c, c ∈ calls <->
              exists name l p,
                procs pm !! name = Some (Some l) /\ heap !! l = Some p /\
                GetString (config p) "autostart" "true" = "true"%string /\
                c = Do_Start l false.
Proof.
  intros Hagree. unfold StartAutoStartPrograms, ForEachProcess.
  match goal with
  | |- context [forEach ?f ?all] => destruct (forEach f all) as [calls|] eqn:Hcalls
  end.
  - exists calls. split; [reflexivity|]. intros c.
    rewrite (forEach_Ok _ _ calls Hcalls c). split.
    + intros ([l|] & made & Hin & Hf & Hc); simpl in Hf; [|discriminate].
      apply elem_of_getAllProcess in Hin as (name & Hname).
      destruct (heap !! l) as [p|] eqn:Hl; [|discriminate].
      unfold isAutoStart in Hf.
      destruct (String.eqb _ "true") eqn:Hauto; inversion Hf; subst made.
      * apply list_elem_of_singleton in Hc. apply String.eqb_eq in Hauto.
        exists name, l, p. auto.
      * apply elem_of_nil in Hc. destruct Hc.
    + intros (name & l & p & Hname & Hl & Hauto & ->).
      exists (Some l), [Do_Start l false].
      split; [apply elem_of_getAllProcess; eauto|].
      rewrite Hl. unfold isAutoStart. rewrite Hauto. simpl.
      split; [reflexivity|constructor].
  - apply forEach_Panic_iff in Hcalls as (proc & Hin & Hf).
    apply elem_of_getAllProcess in Hin as (name & Hname).
    destruct (Hagree name proc Hname) as (l & p & -> & Hl & _).
    simpl in Hf. rewrite Hl in Hf. destruct (isAutoStart p); discriminate.
Qed.

Section Manager.

Variable filepath_Join : string -> string -> string.

(** X24. [CreateProcess] registers a new Process under the name of the
    configuration, at a fresh address, unless the name is taken: then it
    returns what is registered and changes nothing, the new
    configuration is dropped. Other names and the Processes already in
    the heap are untouched, [Find] of the name gives the pointer
    returned, and names keep leading to Processes of their name. *)
Theorem CreateProcess_registers
  (pm : ProcessManager) (heap : gmap nat Process) (cfg : ConfigEntry) :
  let '(pm', heap', proc) := CreateProcess filepath_Join pm heap cfg in
  procs pm' !! Name cfg = Some proc /\
  Find pm' (Name cfg) = proc /\
  (forall n, n <> Name cfg -> procs pm' !! n = procs pm !! n) /\
  (forall l p, heap !! l = Some p -> heap' !! l = Some p) /\
  (forall old, procs pm !! Name cfg = Some old ->
               pm' = pm /\ heap' = heap /\ proc = old) /\
  (procs pm !! Name cfg = None ->
   exists l, proc = Some l /\ heap !! l = None /\
             heap' !! l = Some (NewProcess filepath_Join cfg)) /\
  (namesAgree pm heap -> namesAgree pm' heap').
Proof.
  unfold CreateProcess, createProgram.
  destruct (procs pm !! Name cfg) as [old|] eqn:Hold.
  - split; [exact Hold|]. split; [now apply Find_exact|].
    split; [reflexivity|]. split; [auto|].
    split; [intros ? [= <-]; auto|]. split; [discriminate|auto].
  - set (l := fresh (dom heap)).
    assert (Hfresh : heap !! l = None).
    { apply not_elem_of_dom. apply is_fresh. }
    split; [apply lookup_insert_eq|].
    split; [apply Find_exact; apply lookup_insert_eq|].
    split; [intros n Hn; simpl; now rewrite lookup_insert_ne by congruence|].
    split.
    { intros l' p Hl'. rewrite lookup_insert_ne; [exact Hl'|]. congruence. }
    split; [discriminate|].
    split; [intros _; exists l; split; [reflexivity|];
            split; [exact Hfresh|apply lookup_insert_eq]|].
    intros Hagree name proc. simpl.
    destruct (decide (name = Name cfg)) as [->|Hne].
    + rewrite lookup_insert_eq. intros [= <-].
      exists l, (NewProcess filepath_Join cfg).
      split; [reflexivity|]. split; [apply lookup_insert_eq|reflexivity].
    + rewrite lookup_insert_ne by congruence. intros Hname.
      destruct (Hagree name proc Hname) as (l' & p & -> & Hl' & Hn).
      exists l', p. split; [reflexivity|]. split; [|exact Hn].
      rewrite lookup_insert_ne; [exact Hl'|]. congruence.
Qed.

End Manager.

Lemma group_name_longer (g n : string) : g +:+ ":" +:+ n <> n.
Proof.
  intros H. apply (f_equal String.length) in H.
  rewrite !length_append in H. simpl in H. lia.
Qed.

(** X25. [Remove] returns what was registered under the name, or nil,
    forgets the name and nothing else. Afterwards [Find] of a name
    without a colon finds nothing; but [Find] of a removed name
    [group:prog] still finds what is registered as [prog]. *)
Theorem Remove_then_Find (pm : ProcessManager) (name : string) :
  let '(pm', proc) := Remove pm name in
  proc = default None (procs pm !! name) /\
  procs pm' !! name = None /\
  (forall n, n <> name -> procs pm' !! n = procs pm !! n) /\
  (strings.Index name ":" = -1 -> Find pm' name = None) /\
  (forall g n, name = g +:+ ":" +:+ n -> strings.Index g ":" = -1 ->
               Find pm' name = default None (procs pm !! n)) /\
  (forall heap, namesAgree pm heap -> namesAgree pm' heap).
Proof.
  unfold Remove.
  assert (Hgone : delete name (procs pm) !! name = None) by apply lookup_delete_eq.
  split; [reflexivity|]. split; [exact Hgone|].
  split; [intros n Hn; simpl; now rewrite lookup_delete_ne by congruence|].
  split; [|split].
  - intros Hidx. unfold Find. simpl. rewrite Hgone, Hidx. reflexivity.
  - intros g n -> Hg. rewrite Find_group; [|exact Hgone|exact Hg].
    simpl. rewrite lookup_delete_ne; [reflexivity|apply group_name_longer].
  - intros heap Hagree n proc. simpl.
    destruct (decide (n = name)) as [->|Hne].
    + rewrite lookup_delete_eq. discriminate.
    + rewrite lookup_delete_ne by congruence. apply Hagree.
Qed.

(** ** The adapters *)

Section Adapter.

Variable filepath_Join : string -> string -> string.

(** What [New] builds: one Process, STOPPED, under the name of the
    service, with its pidfile in the working directory. *)
Lemma New_heap (c : service.Config) :
  let '(s, heap) := service.New filepath_Join c in
  let l := fresh (dom (∅ : gmap nat Process)) in
  let p0 := NewProcess filepath_Join (service.parseConfig s) in
  service.Cfg s = c /\
  procs (service.procMgr s) = {[ service.Name c := Some l ]} /\
  heap = {[ l := p0 ]} /\
  pidfile p0 = filepath_Join (service.WorkingDirectory c)
                             (service.Name c +:+ ".pid").
Proof.
  unfold service.New, CreateProcess, createProgram. simpl.
  rewrite lookup_empty. simpl. repeat split.
Qed.

(** X26. A service built by [New] over the pidfile of an earlier
    supervisor: when the pidfile in the working directory holds a
    printed pid, with white space around it or a colon and more text
    behind, and that process is live, [Status] is
    [running (pid: N)], [PID] is [N], both without error, and the
    Process is RUNNING afterwards; when the process is not live, both
    return the error of the probe and the pidfile is gone. *)
Theorem supervised_Status_reattach
  (c : service.Config) (h : Host) (ws1 ws2 rest : string) (pid : Z) :
  GoInt.inRange pid -> spaceBytes ws1 = true -> spaceBytes ws2 = true ->
  (rest = EmptyString \/ exists r, rest = String ":" r) ->
  files h !! filepath_Join (service.WorkingDirectory c)
                           (service.Name c +:+ ".pid")
  = Some (Readable (ws1 +:+ strconv.Itoa pid +:+ ws2 +:+ rest)) ->
  let '(s, heap) := service.New filepath_Join c in
  let l := fresh (dom (∅ : gmap nat Process)) in
  (findLive h pid = None ->
   exists p',
     state p' = RUNNING /\ GetPid p' = Ok pid /\
     supervised.Status h s heap
     = Ok ("running (pid: " +:+ strconv.Itoa pid +:+ ")", None,
           <[l := p']> heap, files h) /\
     supervised.PID h s heap = Ok (pid, None, <[l := p']> heap, files h)) /\
  (forall e, findLive h pid = Some e ->
     exists p' fs',
       state p' = STOPPED /\
       fs' !! filepath_Join (service.WorkingDirectory c)
                            (service.Name c +:+ ".pid") = None /\
       supervised.Status h s heap
       = Ok (EmptyString, Some e, <[l := p']> heap, fs') /\
       supervised.PID h s heap = Ok (0, Some e, <[l := p']> heap, fs')).
Proof.
  intros Hpid Hws1 Hws2 Hrest Hfile.
  pose proof (New_heap c) as Hnew.
  pose proof (New_registers filepath_Join c) as Hfind.
  destruct (service.New filepath_Join c) as [s heap]. cbv zeta in *.
  cbn [fst] in Hfind.
  destruct Hnew as (Hcfg & _ & Hheap & Hpath).
  set (l := fresh (dom (∅ : gmap nat Process))) in *.
  set (p0 := NewProcess filepath_Join (service.parseConfig s)) in *.
  rewrite <- Hpath in Hfile.
  pose proof (pidField ws1 ws2 rest pid Hpid Hws1 Hws2 Hrest) as Hfield.
  assert (Hne : ws1 +:+ strconv.Itoa pid +:+ ws2 +:+ rest <> EmptyString)
    by (apply append_nonempty_r, append_nonempty_l, numberBytes_Itoa).
  pose proof (Attach_probe h p0 _ pid Hfile Hne ltac:(now rewrite Hfield))
    as Hatt.
  assert (Hl : heap !! l = Some p0) by (rewrite Hheap; apply lookup_singleton_eq).
  unfold supervised.Status, supervised.PID, supervised.checkRunning.
  rewrite Hcfg, Hfind, Hl.
  change (GetPid p0) with (Ok 0 : result Z). cbn [Z.eqb].
  destruct (Attach h p0) as [[p' fs'] err].
  destruct Hatt as [Hlive Hdead]. split.
  - intros Hfl. destruct (Hlive Hfl) as (-> & -> & Hst & Hgp & _).
    exists p'. rewrite Hgp. repeat split; assumption.
  - intros e Hfl. destruct (Hdead e Hfl) as (-> & Hst & Hgone).
    exists p', fs'. rewrite <- Hpath. repeat split; assumption.
Qed.

(** X27. [Start] of a service built by [New] returns no error whenever
    the executable is not empty, also when nothing can be started. It
    launches the restart loop exactly when [Attach] fails; when [Attach]
    succeeds the Process is RUNNING and no loop supervises it. Either
    way [inStart] is set afterwards. *)
Theorem supervised_Start_outcome (c : service.Config) (h : Host) :
  let '(s, heap) := service.New filepath_Join c in
  let l := fresh (dom (∅ : gmap nat Process)) in
  let p0 := NewProcess filepath_Join (service.parseConfig s) in
  (service.Executable c = EmptyString ->
   supervised.Start h s heap
   = Ok (Some "empty executable"%string, heap, files h, false)) /\
  (service.Executable c <> EmptyString ->
   exists p' fs' launched,
     supervised.Start h s heap = Ok (None, <[l := p']> heap, fs', launched) /\
     inStart p' = true /\
     (launched = true <-> snd (Attach h p0) <> None) /\
     (launched = false -> state p' = RUNNING /\ fs' = files h) /\
     (launched = true -> state p' <> RUNNING /\ stopByUser p' = false)).
Proof.
  pose proof (New_heap c) as Hnew.
  pose proof (New_registers filepath_Join c) as Hfind.
  destruct (service.New filepath_Join c) as [s heap]. cbv zeta in *.
  cbn [fst] in Hfind.
  destruct Hnew as (Hcfg & _ & Hheap & _).
  set (l := fresh (dom (∅ : gmap nat Process))) in *.
  set (p0 := NewProcess filepath_Join (service.parseConfig s)) in *.
  assert (Hl : heap !! l = Some p0) by (rewrite Hheap; apply lookup_singleton_eq).
  unfold supervised.Start. rewrite Hcfg, Hfind. split.
  - intros ->. reflexivity.
  - intros Hexe. apply String.eqb_neq in Hexe. rewrite Hexe, Hl.
    assert (Hfail : forall p1 fs1,
              inStart p1 = false -> state p1 <> RUNNING ->
              exists p' fs' launched,
                (let '(p'', launched) := Start_enter p1 in
                 Ok (@None string, <[l := p'']> heap, fs1, launched))
                = Ok (None, <[l := p']> heap, fs', launched) /\
                inStart p' = true /\
                (launched = true <-> True) /\
                (launched = false -> state p' = RUNNING /\ fs' = files h) /\
                (launched = true -> state p' <> RUNNING /\ stopByUser p' = false)).
    { intros p1 fs1 Hin Hst. unfold Start_enter. rewrite Hin.
      eexists _, _, _. split; [reflexivity|]. split; [reflexivity|].
      split; [tauto|]. split; [discriminate|]. intros _. split; [exact Hst|reflexivity]. }
    unfold Attach. unfold ioutil.ReadFile.
    destruct (files h !! pidfile p0) as [[info|]|].
    + destruct (String.eqb info EmptyString).
      * destruct (Hfail p0 (files h) eq_refl ltac:(discriminate))
          as (p' & fs' & launched & Heq & Hin & Hiff & Hrest).
        exists p', fs', launched. split; [exact Heq|]. split; [exact Hin|].
        split; [|exact Hrest]. rewrite Hiff. cbn. split; [discriminate|auto].
      * cbv zeta. destruct (findLive h _).
        -- destruct (Hfail (changeStateTo STOPPED p0)
                       (os.Remove (files h) (pidfile p0)) eq_refl
                       ltac:(discriminate))
             as (p' & fs' & launched & Heq & Hin & Hiff & Hrest).
           exists p', fs', launched. split; [exact Heq|]. split; [exact Hin|].
           split; [|exact Hrest]. rewrite Hiff. cbn. split; [discriminate|auto].
        -- eexists _, _, _. split; [reflexivity|]. split; [reflexivity|].
           split; [cbn; split; [discriminate|congruence]|].
           split; [intros _; split; reflexivity|discriminate].
    + destruct (Hfail (changeStateTo UNKNOWN p0) (files h) eq_refl
                  ltac:(discriminate))
        as (p' & fs' & launched & Heq & Hin & Hiff & Hrest).
      exists p', fs', launched. split; [exact Heq|]. split; [exact Hin|].
      split; [|exact Hrest]. rewrite Hiff. cbn. split; [discriminate|auto].
    + destruct (Hfail (changeStateTo UNKNOWN p0) (files h) eq_refl
                  ltac:(discriminate))
        as (p' & fs' & launched & Heq & Hin & Hiff & Hrest).
      exists p', fs', launched. split; [exact Heq|]. split; [exact Hin|].
      split; [|exact Hrest]. rewrite Hiff. cbn. split; [discriminate|auto].
Qed.

(** X28. [Update] of a registered service stops the registered Process
    without waiting: when [Update] returns, that Process has
    [stopByUser] set, its pidfile has been removed, and it is otherwise
    as it was. [Update] registers a new Process at another address,
    built by [NewProcess] from the configuration of the service, and
    starts it: the new Process has [inStart] set and a restart loop has
    been launched for it. Other names and other Processes are untouched. *)
Theorem Update_replaces
  (ToSignal : string -> syscall.Signal + string)
  (fuel : nat) (sh : StopHost) (h : Host)
  (s : service.supervisedService) (heap : gmap nat Process)
  (l : nat) (old : Process) :
  procs (service.procMgr s) !! service.Name (service.Cfg s) = Some (Some l) ->
  heap !! l = Some old ->
  let r := Stop ToSignal false fuel sh (old, files h) in
  exists l2 s' heap',
    supervised.Update filepath_Join ToSignal fuel sh h s heap
    = Ok ([service.Call_Stop l false; service.Call_Start l2 false], s', heap',
          Some r, true) /\
    l2 <> l /\
    Find (service.procMgr s') (service.Name (service.Cfg s')) = Some l2 /\
    heap' !! l2
    = Some (set_stopByUser false
              (set_inStart true
                 (NewProcess filepath_Join (service.parseConfig s)))) /\
    heap' !! l = Some (set_stopByUser true old) /\
    stop_files r !! pidfile old = None /\
    (forall l', l' <> l -> l' <> l2 -> heap' !! l' = heap !! l') /\
    (forall n, n <> service.Name (service.Cfg s) ->
               procs (service.procMgr s') !! n = procs (service.procMgr s) !! n).
Proof.
  intros Hreg Hold r.
  unfold supervised.Update. rewrite (Find_exact _ _ _ Hreg), Hold.
  fold r. cbv zeta.
  unfold Remove, CreateProcess, createProgram.
  change (Name (service.parseConfig s)) with (service.Name (service.Cfg s)).
  cbn [procs]. rewrite lookup_delete_eq.
  set (heap1 := <[l := stop_proc r]> heap).
  set (l2 := fresh (dom heap1)).
  assert (Hfresh : heap1 !! l2 = None) by (apply not_elem_of_dom, is_fresh).
  assert (Hne : l2 <> l).
  { intros ->. unfold heap1 in Hfresh. rewrite lookup_insert_eq in Hfresh.
    discriminate. }
  rewrite lookup_insert_eq. unfold Start_enter. cbn [inStart NewProcess].
  eexists l2, _, _. split; [reflexivity|]. split; [exact Hne|].
  split; [apply Find_exact; cbn; apply lookup_insert_eq|].
  split; [apply lookup_insert_eq|].
  split.
  { rewrite !lookup_insert_ne by congruence. unfold heap1.
    apply lookup_insert_eq. }
  split; [apply lookup_delete_eq|].
  split.
  - intros l' Hl Hl2. rewrite !lookup_insert_ne by congruence.
    unfold heap1. now rewrite lookup_insert_ne by congruence.
  - intros n Hn. cbn.
    rewrite lookup_insert_ne by congruence. now rewrite lookup_delete_ne by congruence.
Qed.

End Adapter.

(** X29. [checkRunning] of the procd backend returns -1 with every
    error. It leaves the files alone when the pidfile cannot be read and
    when the process is live, and removes the pidfile, and nothing else,
    when it is empty or the probe fails. For a pidfile holding a printed
    pid with white space around it and a live process, it returns the
    pid and [Status] is [(pid: N)]. *)
Theorem procd_checkRunning_outcome (h : Host) (name : string) :
  let path := "/var/run/" +:+ name +:+ ".pid" in
  let '(pid, err, fs) := procd.checkRunning h name in
  (err <> None -> pid = -1) /\
  (err = None -> fs = files h) /\
  (forall other, other <> path -> fs !! other = files h !! other) /\
  (forall content, files h !! path = Some (Readable content) ->
                   err <> None -> fs !! path = None) /\
  ((forall content, files h !! path <> Some (Readable content)) ->
   fs = files h /\ err = Some procd.ErrServiceIsNotRunning) /\
  (forall ws1 ws2 n,
     GoInt.inRange n -> spaceBytes ws1 = true -> spaceBytes ws2 = true ->
     files h !! path = Some (Readable (ws1 +:+ strconv.Itoa n +:+ ws2)) ->
     FindProcess h n = None -> kill0 h n = None ->
     pid = n /\ err = None /\
     procd.Status h name = ("(pid: " +:+ strconv.Itoa n +:+ ")", None, files h)).
Proof.
  intros path. unfold procd.Status, procd.checkRunning.
  fold path. unfold ioutil.ReadFile.
  destruct (files h !! path) as [[content|]|] eqn:Hfile.
  - destruct (String.eqb content EmptyString) eqn:Hempty.
    + split; [reflexivity|]. split; [discriminate|].
      split; [intros other Hne; unfold os.Remove; now rewrite lookup_delete_ne|].
      split; [intros; apply lookup_delete_eq|].
      split; [intros Hno; now destruct (Hno content)|].
      intros ws1 ws2 n _ _ _ [= Hc]. exfalso.
      apply String.eqb_eq in Hempty. rewrite Hempty in Hc.
      symmetry in Hc. revert Hc. apply append_nonempty_r, append_nonempty_l, numberBytes_Itoa.
    + cbv zeta.
      set (intpid := fst (strconv.Atoi (strings.TrimSpace content))).
      assert (Hread : forall ws1 ws2 n,
                GoInt.inRange n -> spaceBytes ws1 = true -> spaceBytes ws2 = true ->
                Some (Readable content)
                = Some (Readable (ws1 +:+ strconv.Itoa n +:+ ws2)) ->
                intpid = n).
      { intros ws1 ws2 n Hn Hws1 Hws2 [= ->]. unfold intpid.
        destruct (numberBytes_Itoa n) as [Hnum Hne].
        rewrite (TrimSpace_number ws1 _ ws2 Hws1 Hws2 Hnum Hne).
        now rewrite Atoi_Itoa. }
      destruct (FindProcess h intpid) as [e|] eqn:Hfp;
        [|destruct (kill0 h intpid) as [e|] eqn:Hk].
      * split; [reflexivity|]. split; [discriminate|].
        split; [intros other Hne; unfold os.Remove; now rewrite lookup_delete_ne|].
        split; [intros; apply lookup_delete_eq|].
        split; [intros Hno; now destruct (Hno content)|].
        intros ws1 ws2 n Hn Hws1 Hws2 Hc Hfpn _.
        rewrite (Hread ws1 ws2 n Hn Hws1 Hws2 Hc) in Hfp. congruence.
      * split; [reflexivity|]. split; [discriminate|].
        split; [intros other Hne; unfold os.Remove; now rewrite lookup_delete_ne|].
        split; [intros; apply lookup_delete_eq|].
        split; [intros Hno; now destruct (Hno content)|].
        intros ws1 ws2 n Hn Hws1 Hws2 Hc _ Hkn.
        rewrite (Hread ws1 ws2 n Hn Hws1 Hws2 Hc) in Hk. congruence.
      * split; [congruence|]. split; [reflexivity|].
        split; [reflexivity|]. split; [congruence|].
        split; [intros Hno; now destruct (Hno content)|].
        intros ws1 ws2 n Hn Hws1 Hws2 Hc _ _.
        rewrite (Hread ws1 ws2 n Hn Hws1 Hws2 Hc). auto.
  - split; [reflexivity|]. split; [reflexivity|]. split; [reflexivity|].
    split; [discriminate|]. split; [auto|]. discriminate.
  - split; [reflexivity|]. split; [reflexivity|]. split; [reflexivity|].
    split; [discriminate|]. split; [auto|]. discriminate.
Qed.

(** ** Instances *)

Lemma inRange_4242 : GoInt.inRange 4242.
Proof. unfold GoInt.inRange, GoInt.minInt, GoInt.maxInt. lia. Qed.

Lemma run_at_finishCb_witness :
  GetPid (fst (fst (run_spawn exParse exExits exFresh))) = Ok 4242 /\
  snd (fst (run_spawn exParse exExits exFresh)) !! "/prog.pid"%string
  = Some (Readable "4242:1700000000").
Proof.
  pose proof (run_at_finishCb exParse exExits (fst exFresh) (snd exFresh)) as H.
  vm_compute in H |- *.
  destruct H as (pid & Hsp & Hpid & _ & _ & _ & Hw).
  injection Hsp as <-. split; [exact Hpid|exact (Hw eq_refl)].
Defined.

Lemma run_exit_classification_witness :
  state (fst (run exParse exExits exFresh)) = EXITED /\
  GetExitstatus (fst (run exParse exExits exFresh)) = Ok 1.
Proof.
  pose proof (run_exit_classification exParse exExits (fst exFresh) (snd exFresh)
                ltac:(vm_compute; reflexivity)) as H.
  vm_compute in H |- *.
  destruct H as (Hclass & _ & _ & _ & Hex).
  split; [|exact Hex].
  destruct Hclass as [[H _]|[H _]]; [discriminate H|exact H].
Defined.

Lemma iteration_counts_backoff_witness :
  state (fst (fst (iteration exParse exExits exFresh))) = EXITED /\
  retryTimes (fst (fst (iteration exParse exExits exFresh))) = 0.
Proof.
  pose proof (iteration_counts_backoff exParse exExits (fst exFresh) (snd exFresh)
                ltac:(unfold GoInt.maxInt; simpl; lia)
                ltac:(vm_compute; reflexivity)) as H.
  vm_compute in H |- *.
  destruct H as [[H _]|H]; [discriminate H|exact H].
Defined.

Lemma restart_loop_leaves_no_pidfile_witness :
  snd (fst (iteration exParse exSpawnFails exRetrying)) !! "/prog.pid"%string = None.
Proof.
  destruct (restart_loop_leaves_no_pidfile exParse [exSpawnFails; exSpawnFails]
              (fst exRetrying) (snd exRetrying)
              (fst (iteration exParse exSpawnFails exRetrying))
              ltac:(vm_compute; constructor)) as (H & _).
  exact H.
Defined.

Lemma restart_loop_retry_bound_witness :
  Z.of_nat (length (fst (startLoop exParse
                           [exSpawnFails; exSpawnFails; exSpawnFails] exRetrying)))
  <= 2.
Proof.
  destruct (restart_loop_retry_bound exParse
              [exSpawnFails; exSpawnFails; exSpawnFails] exRetrying) as [_ H].
  apply H. intros [|[|i]] s Hs; vm_compute in Hs;
    [injection Hs as <-; reflexivity..|discriminate Hs].
Defined.

Lemma Stop_ends_loop_in_one_turn_witness :
  exists s,
    restartLoop exParse [exSpawnFails; exSpawnFails]
      (set_stopByUser true (fst exRetrying), ∅) = ([s], true) /\
    stopByUser (fst s) = true.
Proof.
  exact (Stop_ends_loop_in_one_turn exParse exSpawnFails [exSpawnFails]
           (set_stopByUser true (fst exRetrying)) ∅ (or_intror eq_refl)).
Defined.

Lemma Start_finished_witness :
  match Start exParse false [exSpawnFails; exSpawnFails] exRetrying with
  | Some (p2, fs2) => inStart p2 = false /\ fs2 !! "/prog.pid"%string = None
  | None => False
  end.
Proof.
  destruct (Start_finished exParse false [exSpawnFails; exSpawnFails]
              (fst exRetrying) (snd exRetrying)) as [_ H].
  destruct (Start exParse false [exSpawnFails; exSpawnFails] exRetrying)
    as [[p2 fs2]|] eqn:E.
  - destruct (H p2 fs2 eq_refl E) as (Hi & Hg & _). split; [exact Hi|exact Hg].
  - vm_compute in E. discriminate E.
Defined.

Lemma Attach_padded_pid_witness :
  state (fst (fst (Attach (exHost exPadded) (fst exFresh)))) = RUNNING /\
  GetPid (fst (fst (Attach (exHost exPadded) (fst exFresh)))) = Ok 4242.
Proof.
  pose proof (Attach_padded_pid (exHost exPadded) (fst exFresh)
                " " (String "010" EmptyString) EmptyString 4242
                inRange_4242 eq_refl eq_refl (or_introl eq_refl)
                ltac:(vm_compute; reflexivity)) as H.
  destruct (Attach (exHost exPadded) (fst exFresh)) as [[p' fs'] err].
  destruct H as [H _].
  destruct (H ltac:(vm_compute; reflexivity)) as (_ & _ & Hst & Hpid & _).
  split; [exact Hst|exact Hpid].
Defined.

Lemma Attach_after_run_witness :
  state (fst (fst (Attach (exHost exFiles) (fst exFresh)))) = RUNNING /\
  GetPid (fst (fst (Attach (exHost exFiles) (fst exFresh)))) = Ok 4242.
Proof.
  pose proof (Attach_after_run exParse exExits (fst exFresh) (snd exFresh)
                (exHost exFiles) (fst exFresh) 4242
                eq_refl inRange_4242 eq_refl
                ltac:(vm_compute; reflexivity) ltac:(vm_compute; reflexivity)
                eq_refl ltac:(vm_compute; reflexivity)) as H.
  destruct (Attach (exHost exFiles) (fst exFresh)) as [[q' fs'] err].
  destruct H as (_ & _ & Hst & Hpid & _). split; [exact Hst|exact Hpid].
Defined.

Lemma Attach_unparsable_pid_witness :
  state (fst (fst (Attach (exHostAll exGarbage) (fst exFresh)))) = RUNNING /\
  GetPid (fst (fst (Attach (exHostAll exGarbage) (fst exFresh)))) = Ok 0.
Proof.
  pose proof (Attach_unparsable_pid (exHostAll exGarbage) (fst exFresh) "abc"
                ltac:(vm_compute; reflexivity) ltac:(discriminate)
                ltac:(vm_compute; reflexivity)) as H.
  destruct (Attach (exHostAll exGarbage) (fst exFresh)) as [[p' fs'] err].
  destruct H as [H _].
  destruct (H ltac:(vm_compute; reflexivity)) as (_ & Hst & Hpid & _).
  split; [exact Hst|exact Hpid].
Defined.

Lemma Attach_frame_witness :
  Start exParse false [exExits] (exAttached, ∅) = Some (exAttached, ∅).
Proof.
  unfold exAttached.
  pose proof (Attach_frame exParse (exHost exFiles)
                (NewProcess exJoin (exConfig [("command", "/bin/sleep")]%string)))
    as H.
  destruct (Attach (exHost exFiles)
              (NewProcess exJoin (exConfig [("command", "/bin/sleep")]%string)))
    as [[p' fs'] err] eqn:E.
  destruct H as (_ & _ & _ & Hok).
  assert (Herr : err = None) by (vm_compute in E; congruence).
  destruct (Hok Herr) as [_ Hstart]. apply Hstart.
Defined.

Lemma GetExitstatus_range_witness : GetExitstatus exKilled = Ok (-1).
Proof.
  destruct (GetExitstatus_range exKilled) as (_ & _ & _ & H).
  destruct (H {| exec.Path := "/bin/sleep"; exec.Args := ["/bin/sleep"%string];
                 exec.Dir := EmptyString;
                 exec.Process := Some {| os.Pid := 4242 |};
                 exec.ProcessState := Some {| os.status := 9 |} |}
              9 (or_introl eq_refl) eq_refl eq_refl) as [_ Hs].
  apply Hs. reflexivity.
Defined.

Lemma GetStatus_needs_wait_status_witness :
  GetStatus (fun _ => "exit status 1"%string) (fst (run exParse exExits exFresh))
  = Ok "exit status 1"%string /\
  GetStatus (fun _ => "exit status 1"%string) exAttached = Panic.
Proof.
  destruct (GetStatus_needs_wait_status exJoin exParse
              (fun _ => "exit status 1"%string)) as (_ & Hatt & Hrun).
  split.
  - destruct (Hrun exExits (fst exFresh) (snd exFresh)
                ltac:(vm_compute; reflexivity)) as [_ H].
    exact H.
  - exact (Hatt (exHost exFiles)
             (NewProcess exJoin (exConfig [("command", "/bin/sleep")]%string))
             ltac:(vm_compute; reflexivity)).
Defined.

Lemma STOPPING_never_entered_witness :
  state (fst (fst (Attach (exHost exFiles) (fst exFresh)))) <> STOPPING.
Proof.
  destruct (STOPPING_never_entered exParse (fst exFresh)
              ltac:(simpl; discriminate)) as [H _].
  apply H.
Defined.

Lemma Stop_kills_after_stopwaitsecs_witness :
  forced (Stop exToSignal true 20 exStubborn (exLive, ∅))
  = Some [Kill 4242 syscall.SIGKILL].
Proof.
  assert (Hw : 0 <= GetInt (config exLive) "stopwaitsecs" 10 <= 9223372036)
    by (change (0 <= 10 <= 9223372036); lia).
  assert (Hbefore : forall j, (j < 10)%nat ->
            stillLive (state (watch_proc exStubborn j)) = true /\
            watch_clock exStubborn j
            <= stop_now exStubborn
               + GetInt (config exLive) "stopwaitsecs" 10 * 1000000000).
  { intros j Hj. split; [reflexivity|].
    change (time.Unix (1700000000 + Z.of_nat j) 1000
            <= time.Unix 1700000000 0 + 10 * 1000000000).
    unfold time.Unix, time.Second. lia. }
  destruct (Stop_kills_after_stopwaitsecs exToSignal true 20 exStubborn exLive ∅ 10
              Hw ltac:(lia) Hbefore) as [_ H].
  rewrite (H eq_refl ltac:(vm_compute; reflexivity)). reflexivity.
Defined.

Lemma StopAllProcesses_calls_witness :
  StopAllProcesses (Add NewProcessManager "ghost" None) = Panic.
Proof.
  destruct (StopAllProcesses_calls (Add NewProcessManager "ghost" None))
    as [[_ H] _].
  apply H. exists "ghost"%string. vm_compute. reflexivity.
Defined.

Lemma StartAutoStartPrograms_calls_witness :
  exists calls,
    StartAutoStartPrograms (service.procMgr (fst (service.New exJoin exService)))
                           (snd (service.New exJoin exService)) = Ok calls /\
    Do_Start (fresh (dom (∅ : gmap nat Process))) false ∈ calls.
Proof.
  assert (Hagree : namesAgree (service.procMgr (fst (service.New exJoin exService)))
                              (snd (service.New exJoin exService))).
  { pose proof (New_heap exJoin exService) as Hnew.
    destruct (service.New exJoin exService) as [s heap].
    destruct Hnew as (Hc & Hp & Hh & _). cbn [fst snd].
    intros name proc Hname. rewrite Hp in Hname.
    apply lookup_singleton_Some in Hname as [<- <-].
    eexists _, _. split; [reflexivity|].
    split; [rewrite Hh; apply lookup_singleton_eq|].
    simpl. now rewrite Hc. }
  destruct (StartAutoStartPrograms_calls _ _ Hagree) as (calls & Heq & Hiff).
  exists calls. split; [exact Heq|]. apply Hiff.
  exists "prog"%string, (fresh (dom (∅ : gmap nat Process))),
    (NewProcess exJoin (service.parseConfig (fst (service.New exJoin exService)))).
  split; [vm_compute; reflexivity|].
  split; [vm_compute; reflexivity|]. split; reflexivity.
Defined.

Lemma CreateProcess_registers_witness :
  CreateProcess exJoin (service.procMgr (fst (service.New exJoin exService)))
    (snd (service.New exJoin exService))
    (exConfig [("command", "/bin/true")]%string)
  = (service.procMgr (fst (service.New exJoin exService)),
     snd (service.New exJoin exService),
     Some (fresh (dom (∅ : gmap nat Process)))).
Proof.
  pose proof (CreateProcess_registers exJoin
                (service.procMgr (fst (service.New exJoin exService)))
                (snd (service.New exJoin exService))
                (exConfig [("command", "/bin/true")]%string)) as H.
  destruct (CreateProcess exJoin _ _ _) as [[pm' heap'] proc].
  destruct H as (_ & _ & _ & _ & Hold & _).
  assert (Hreg : procs (service.procMgr (fst (service.New exJoin exService)))
                  !! Name (exConfig [("command", "/bin/true")]%string)
                  = Some (Some (fresh (dom (∅ : gmap nat Process)))))
    by (vm_compute; reflexivity).
  destruct (Hold _ Hreg) as (-> & -> & ->).
  reflexivity.
Defined.

Lemma Remove_then_Find_witness :
  Find (fst (Remove (Add (Add NewProcessManager "prog" (Some 0%nat))
                         "grp:prog" (Some 1%nat)) "grp:prog")) "grp:prog"
  = Some 0%nat.
Proof.
  pose proof (Remove_then_Find
                (Add (Add NewProcessManager "prog" (Some 0%nat))
                     "grp:prog" (Some 1%nat)) "grp:prog") as H.
  destruct (Remove _ _) as [pm' proc].
  destruct H as (_ & _ & _ & _ & Hg & _).
  cbn [fst]. rewrite (Hg "grp"%string "prog"%string eq_refl eq_refl).
  vm_compute. reflexivity.
Defined.

Lemma supervised_Status_reattach_witness :
  exists heap',
    supervised.Status (exHost exFiles) (fst (service.New exJoin exService))
                      (snd (service.New exJoin exService))
    = Ok ("running (pid: 4242)"%string, None, heap', exFiles).
Proof.
  pose proof (supervised_Status_reattach exJoin exService (exHost exFiles)
                EmptyString EmptyString ":1700000000" 4242
                inRange_4242 eq_refl eq_refl (or_intror (ex_intro _ _ eq_refl))
                ltac:(vm_compute; reflexivity)) as H.
  destruct (service.New exJoin exService) as [s heap]. cbn [fst snd].
  destruct H as [H _].
  destruct (H ltac:(vm_compute; reflexivity)) as (p' & _ & _ & HS & _).
  eexists. exact HS.
Defined.

Lemma supervised_Start_outcome_witness :
  exists heap' fs',
    supervised.Start (exHost ∅) (fst (service.New exJoin exService))
                     (snd (service.New exJoin exService))
    = Ok (None, heap', fs', true).
Proof.
  pose proof (supervised_Start_outcome exJoin exService (exHost ∅)) as H.
  vm_compute in H |- *.
  destruct H as [_ H].
  destruct (H ltac:(discriminate)) as (p' & fs' & launched & Heq & _ & Hiff & _).
  assert (launched = true) as -> by (apply Hiff; discriminate).
  eexists _, _. exact Heq.
Defined.

Lemma Update_replaces_witness :
  exists l2 s' heap',
    supervised.Update exJoin exToSignal 20 exStubborn (exHost exFiles)
      (fst (service.New exJoin exService)) (snd (service.New exJoin exService))
    = Ok ([service.Call_Stop (fresh (dom (∅ : gmap nat Process))) false;
           service.Call_Start l2 false], s', heap',
          Some (Stop exToSignal false 20 exStubborn
                  (NewProcess exJoin
                     (service.parseConfig (fst (service.New exJoin exService))),
                   exFiles)), true) /\
    l2 <> fresh (dom (∅ : gmap nat Process)) /\
    stopByUser <$> heap' !! fresh (dom (∅ : gmap nat Process)) = Some true /\
    inStart <$> heap' !! l2 = Some true.
Proof.
  assert (Hreg : procs (service.procMgr (fst (service.New exJoin exService)))
                  !! service.Name (service.Cfg (fst (service.New exJoin exService)))
                  = Some (Some (fresh (dom (∅ : gmap nat Process)))))
    by (vm_compute; reflexivity).
  assert (Hold : snd (service.New exJoin exService)
                 !! fresh (dom (∅ : gmap nat Process))
                 = Some (NewProcess exJoin
                           (service.parseConfig (fst (service.New exJoin exService)))))
    by (vm_compute; reflexivity).
  destruct (Update_replaces exJoin exToSignal 20 exStubborn (exHost exFiles)
              (fst (service.New exJoin exService))
              (snd (service.New exJoin exService)) _ _ Hreg Hold)
    as (l2 & s' & heap' & Heq & Hne & _ & Hnew & Hstopped & _).
  exists l2, s', heap'. split; [exact Heq|]. split; [exact Hne|].
  rewrite Hnew, Hstopped. split; reflexivity.
Defined.

Lemma procd_checkRunning_outcome_witness :
  procd.Status (exHost exProcd) "prog" = ("(pid: 4242)"%string, None, exProcd).
Proof.
  pose proof (procd_checkRunning_outcome (exHost exProcd) "prog") as H.
  cbv zeta in H.
  destruct (procd.checkRunning (exHost exProcd) "prog") as [[pid err] fs].
  destruct H as (_ & _ & _ & _ & _ & H).
  destruct (H EmptyString (String "010" EmptyString) 4242
              inRange_4242 eq_refl eq_refl
              ltac:(vm_compute; reflexivity) eq_refl eq_refl) as (_ & _ & HS).
  exact HS.
Defined.
